(** * Objective-C interoperation of the IR generator (lib/IRGen/GenObjC.cpp)

    A shallow embedding of the selector model, the per-module symbol cache,
    the message-send preparation, the type-encoding synthesis, the method
    descriptor builders, the partial-application builder and the
    eligibility predicates, followed by the properties proved about them. *)

From Stdlib Require Import ZArith Ascii String List Lia Bool.
From stdpp Require Import base option gmap strings list.

Local Open Scope string_scope.

Set Warnings "-register-all".

(** ** Failure

    [llvm_unreachable] and a failing [assert] stop the compiler; both are
    modelled as an aborted computation that carries the message. *)

Inductive Fatal :=
| Unreachable (msg : string)
| AssertionFailed (msg : string).

Inductive Result (A : Type) :=
| Ok (a : A)
| Abort (f : Fatal).

Arguments Ok {A} a.
Arguments Abort {A} f.

Definition bindR {A B : Type} (r : Result A) (k : A -> Result B) : Result B :=
  match r with
  | Ok a => k a
  | Abort f => Abort f
  end.

Definition assertR (cond : bool) (msg : string) : Result unit :=
  if cond then Ok tt else Abort (AssertionFailed msg).

(** ** Swift types and declarations, as far as this file queries them *)

Inductive Ty :=
| NominalType (name : string)
| BoundGenericType (name : string) (args : list Ty)
| TupleType (elts : list Ty)
| ParenType (underlying : Ty)
| FunctionType (input result : Ty) (block : bool)
| PolymorphicFunctionType (input result : Ty).

(** [Type::getCanonicalType]: the type with its sugar (parentheses) removed. *)
Fixpoint getCanonicalType (t : Ty) : Ty :=
  match t with
  | NominalType n => NominalType n
  | BoundGenericType n args => BoundGenericType n (map getCanonicalType args)
  | TupleType elts => TupleType (map getCanonicalType elts)
  | ParenType u => getCanonicalType u
  | FunctionType i r b => FunctionType (getCanonicalType i) (getCanonicalType r) b
  | PolymorphicFunctionType i r =>
      PolymorphicFunctionType (getCanonicalType i) (getCanonicalType r)
  end.

Record AnyFunctionType := {
  getInput : Ty;
  getResult : Ty;
  isBlock : bool
}.

(** [t->getAs<AnyFunctionType>()] *)
Definition getAs_AnyFunctionType (t : Ty) : option AnyFunctionType :=
  match getCanonicalType t with
  | FunctionType i r b => Some {| getInput := i; getResult := r; isBlock := b |}
  | PolymorphicFunctionType i r =>
      Some {| getInput := i; getResult := r; isBlock := false |}
  | _ => None
  end.

(** [t->is<PolymorphicFunctionType>()] *)
Definition is_PolymorphicFunctionType (t : Ty) : bool :=
  match getCanonicalType t with
  | PolymorphicFunctionType _ _ => true
  | _ => false
  end.

(** [t->is<BoundGenericType>()] *)
Definition is_BoundGenericType (t : Ty) : bool :=
  match getCanonicalType t with
  | BoundGenericType _ _ => true
  | _ => false
  end.

(** The declaration context of a member: whether it is a protocol, and the
    type it declares ([getDeclaredTypeInContext]). *)
Record DeclContext := {
  isProtocolDecl : bool;
  getDeclaredTypeInContext : Ty
}.

Inductive FuncDecl := mkFuncDecl {
  func_getObjCSelector : string;
  func_getDeclContext : DeclContext;
  func_getType : Ty;
  func_isAccessor : bool;
  func_isObjC : bool;
  func_isIBAction : bool;
  func_isInstanceMember : bool;
  func_getOverriddenDecl : option FuncDecl
}.

Inductive ConstructorDecl := mkConstructorDecl {
  ctor_getObjCSelector : string;
  ctor_getDeclContext : DeclContext;
  ctor_getType : Ty;
  ctor_isObjC : bool;
  ctor_getOverriddenDecl : option ConstructorDecl
}.

Record DestructorDecl := {
  dtor_getDeclContext : DeclContext;
  dtor_getType : Ty
}.

Inductive VarDecl := mkVarDecl {
  var_getObjCGetterSelector : string;
  var_getObjCSetterSelector : string;
  var_getDeclContext : DeclContext;
  var_getType : Ty;
  var_isObjC : bool;
  var_isSettable : bool;
  var_getGetter : FuncDecl;
  var_getSetter : option FuncDecl;
  var_getOverriddenDecl : option VarDecl
}.

Inductive SubscriptDecl := mkSubscriptDecl {
  sub_getObjCGetterSelector : string;
  sub_getObjCSetterSelector : string;
  sub_getDeclContext : DeclContext;
  sub_getElementType : Ty;
  sub_isObjC : bool;
  sub_isSettable : bool;
  sub_getGetter : FuncDecl;
  sub_getSetter : option FuncDecl;
  sub_getOverriddenDecl : option SubscriptDecl
}.

Inductive ValueDecl :=
| AFuncDecl (f : FuncDecl)
| AConstructorDecl (c : ConstructorDecl)
| ADestructorDecl (d : DestructorDecl)
| AVarDecl (v : VarDecl)
| ASubscriptDecl (s : SubscriptDecl)
| AClassDecl (name : string)
| AnEnumElementDecl (name : string).

Module SILDeclRef.

Inductive Kind :=
| Func
| Allocator
| Initializer
| EnumElement
| Destroyer
| Deallocator
| GlobalAccessor
| DefaultArgGenerator
| IVarInitializer
| IVarDestroyer.

Record SILDeclRef := {
  kind : Kind;
  getDecl : ValueDecl;
  isForeign : bool
}.

End SILDeclRef.

Abbreviation SILDeclRef := SILDeclRef.SILDeclRef.

(** ** Selector model (class [Selector]) *)

Module Family.

Inductive Family := None | Alloc | Copy | Init | MutableCopy | New.

End Family.

Module Selector.

Record Selector := { Text : string }.

(** [FOREACH_FAMILY], in the order of the macro. *)
Definition FOREACH_FAMILY : list (Family.Family * string) :=
  [ (Family.Alloc, "alloc");
    (Family.Copy, "copy");
    (Family.Init, "init");
    (Family.MutableCopy, "mutableCopy");
    (Family.New, "new") ].

Definition ofFuncDecl (method : FuncDecl) : Selector :=
  {| Text := func_getObjCSelector method |}.

Definition ofConstructorDecl (ctor : ConstructorDecl) : Selector :=
  {| Text := ctor_getObjCSelector ctor |}.

(** [Selector(ValueDecl *methodOrCtorOrDtor)] *)
Definition ofValueDecl (methodOrCtorOrDtor : ValueDecl) : Result Selector :=
  match methodOrCtorOrDtor with
  | AFuncDecl method => Ok {| Text := func_getObjCSelector method |}
  | AConstructorDecl ctor => Ok {| Text := ctor_getObjCSelector ctor |}
  | ADestructorDecl _ => Ok {| Text := "dealloc" |}
  | _ => Abort (Unreachable
           "property or subscript selector should be generated using ForGetter or ForSetter constructors")
  end.

Definition ofVarDeclForGetter (asd : VarDecl) : Selector :=
  {| Text := var_getObjCGetterSelector asd |}.

Definition ofVarDeclForSetter (asd : VarDecl) : Selector :=
  {| Text := var_getObjCSetterSelector asd |}.

Definition ofSubscriptDeclForGetter (asd : SubscriptDecl) : Selector :=
  {| Text := sub_getObjCGetterSelector asd |}.

Definition ofSubscriptDeclForSetter (asd : SubscriptDecl) : Selector :=
  {| Text := sub_getObjCSetterSelector asd |}.

(** [Selector(SILDeclRef ref)]; [cast<>] asserts the dynamic kind. *)
Definition ofSILDeclRef (ref : SILDeclRef) : Result Selector :=
  match SILDeclRef.kind ref with
  | SILDeclRef.Allocator
  | SILDeclRef.DefaultArgGenerator
  | SILDeclRef.EnumElement
  | SILDeclRef.GlobalAccessor =>
      Abort (Unreachable "Method does not have a selector")
  | SILDeclRef.Destroyer
  | SILDeclRef.Deallocator => Ok {| Text := "dealloc" |}
  | SILDeclRef.Func =>
      match SILDeclRef.getDecl ref with
      | AFuncDecl f => Ok {| Text := func_getObjCSelector f |}
      | _ => Abort (AssertionFailed "cast<Ty>() argument of incompatible type!")
      end
  | SILDeclRef.Initializer =>
      match SILDeclRef.getDecl ref with
      | AConstructorDecl c => Ok {| Text := ctor_getObjCSelector c |}
      | _ => Abort (AssertionFailed "cast<Ty>() argument of incompatible type!")
      end
  | SILDeclRef.IVarInitializer => Ok {| Text := ".cxx_construct" |}
  | SILDeclRef.IVarDestroyer => Ok {| Text := ".cxx_destruct" |}
  end.

Definition str (s : Selector) : string := Text s.

(** [islower] of the C locale. *)
Definition islower (c : ascii) : bool :=
  (97 <=? nat_of_ascii c)%nat && (nat_of_ascii c <=? 122)%nat.

(** [StringRef::startswith] *)
Definition startswith (text pfx : string) : bool := String.prefix pfx text.

(** The loop [while (!text.empty() && text[0] == '_') text = text.substr(1);] *)
Fixpoint dropUnderscores (text : string) : string :=
  match text with
  | String c rest => if Ascii.eqb c "_" then dropUnderscores rest else text
  | EmptyString => text
  end.

Definition hasPrefix (text pfx : string) : bool :=
  if negb (startswith text pfx) then false
  else if (String.length text =? String.length pfx)%nat then true
  else
    match String.get (String.length pfx) text with
    | Some c => negb (islower c)
    | None => false
    end.

(** The expansion of [FOREACH_FAMILY(CHECK_PREFIX)] followed by
    [return Family::None]. *)
Fixpoint checkPrefixes (text : string) (families : list (Family.Family * string))
  : Family.Family :=
  match families with
  | (label, pfx) :: rest =>
      if hasPrefix text pfx then label else checkPrefixes text rest
  | [] => Family.None
  end.

Definition getFamily (s : Selector) : Family.Family :=
  checkPrefixes (dropUnderscores (str s)) FOREACH_FAMILY.

End Selector.

Abbreviation Selector := Selector.Selector.

(** ** LLVM constants and globals *)

Inductive Linkage := InternalLinkage | WeakAnyLinkage | ExternalLinkage.

Inductive Visibility := DefaultVisibility | HiddenVisibility.

(** A constant is identified by what it denotes; a global variable by its
    position in the module's list of globals, which is its identity. *)
Inductive Constant :=
| ConstantPointerNull
| ConstantDataArrayString (s : string)
| GlobalVariableAddr (index : nat)
| InBoundsGEP00 (c : Constant)
| GlobalStringAddr (s : string)
| FunctionAddr (declRef : SILDeclRef)
| OpaqueData (tag : string) (id : positive)
| BitCastToInt8Ptr (c : Constant).

Definition isNull (c : Constant) : bool :=
  match c with
  | ConstantPointerNull => true
  | _ => false
  end.

Record GlobalVariable := {
  gv_typeOf : Constant;
  gv_isConstant : bool;
  gv_linkage : Linkage;
  gv_initializer : Constant;
  gv_name : string;
  gv_section : string;
  gv_alignment : Z;
  gv_visibility : Visibility
}.

Record ProtocolDecl := {
  protoAddr : positive;
  getObjCProtocolName : string
}.

#[global] Instance ProtocolDecl_eq_dec : EqDecision ProtocolDecl.
Proof. solve_decision. Defined.

#[global] Instance ProtocolDecl_countable : Countable ProtocolDecl :=
  inj_countable'
    (fun p => (protoAddr p, getObjCProtocolName p))
    (fun q => {| protoAddr := fst q; getObjCProtocolName := snd q |})
    (fun p => match p with Build_ProtocolDecl _ _ => eq_refl end).

Record ObjCProtocolPair := {
  record : Constant;
  ref : Constant
}.

(** ** The module being generated (class [IRGenModule]) *)

Record IRGenModule := {
  Module : list GlobalVariable;
  ObjCMethodNames : gmap string Constant;
  ObjCSelectorRefs : gmap string Constant;
  ObjCProtocols : gmap ProtocolDecl ObjCProtocolPair;
  LLVMUsed : list Constant;
  PointerSize : Z;
  PointerAlignment : Z;
  ObjCUseStret : bool
}.

Definition setModule (gs : list GlobalVariable) (IGM : IRGenModule) : IRGenModule :=
  {| Module := gs;
     ObjCMethodNames := ObjCMethodNames IGM;
     ObjCSelectorRefs := ObjCSelectorRefs IGM;
     ObjCProtocols := ObjCProtocols IGM;
     LLVMUsed := LLVMUsed IGM;
     PointerSize := PointerSize IGM;
     PointerAlignment := PointerAlignment IGM;
     ObjCUseStret := ObjCUseStret IGM |}.

Definition setObjCMethodNames (m : gmap string Constant) (IGM : IRGenModule)
  : IRGenModule :=
  {| Module := Module IGM;
     ObjCMethodNames := m;
     ObjCSelectorRefs := ObjCSelectorRefs IGM;
     ObjCProtocols := ObjCProtocols IGM;
     LLVMUsed := LLVMUsed IGM;
     PointerSize := PointerSize IGM;
     PointerAlignment := PointerAlignment IGM;
     ObjCUseStret := ObjCUseStret IGM |}.

Definition setObjCSelectorRefs (m : gmap string Constant) (IGM : IRGenModule)
  : IRGenModule :=
  {| Module := Module IGM;
     ObjCMethodNames := ObjCMethodNames IGM;
     ObjCSelectorRefs := m;
     ObjCProtocols := ObjCProtocols IGM;
     LLVMUsed := LLVMUsed IGM;
     PointerSize := PointerSize IGM;
     PointerAlignment := PointerAlignment IGM;
     ObjCUseStret := ObjCUseStret IGM |}.

Definition setObjCProtocols (m : gmap ProtocolDecl ObjCProtocolPair)
  (IGM : IRGenModule) : IRGenModule :=
  {| Module := Module IGM;
     ObjCMethodNames := ObjCMethodNames IGM;
     ObjCSelectorRefs := ObjCSelectorRefs IGM;
     ObjCProtocols := m;
     LLVMUsed := LLVMUsed IGM;
     PointerSize := PointerSize IGM;
     PointerAlignment := PointerAlignment IGM;
     ObjCUseStret := ObjCUseStret IGM |}.

Definition setLLVMUsed (u : list Constant) (IGM : IRGenModule) : IRGenModule :=
  {| Module := Module IGM;
     ObjCMethodNames := ObjCMethodNames IGM;
     ObjCSelectorRefs := ObjCSelectorRefs IGM;
     ObjCProtocols := ObjCProtocols IGM;
     LLVMUsed := u;
     PointerSize := PointerSize IGM;
     PointerAlignment := PointerAlignment IGM;
     ObjCUseStret := ObjCUseStret IGM |}.

(** [new llvm::GlobalVariable(Module, ...)]: the global is appended to the
    module and its address returned. *)
Definition newGlobalVariable (g : GlobalVariable) (IGM : IRGenModule)
  : Constant * IRGenModule :=
  (GlobalVariableAddr (length (Module IGM)), setModule (Module IGM ++ [g]) IGM).

(** [IRGenModule::addUsedGlobal] *)
Definition addUsedGlobal (global : Constant) (IGM : IRGenModule) : IRGenModule :=
  setLLVMUsed (LLVMUsed IGM ++ [global]) IGM.

(** [StringMap::operator[]]: a missing key is entered with a null value. *)
Definition subscript (m : gmap string Constant) (key : string)
  : Constant * gmap string Constant :=
  match m !! key with
  | Some entry => (entry, m)
  | None => (ConstantPointerNull, <[key := ConstantPointerNull]> m)
  end.

(** [DenseMap::insert]: an existing key keeps its value. *)
Definition denseInsert (proto : ProtocolDecl) (protocolPair : ObjCProtocolPair)
  (m : gmap ProtocolDecl ObjCProtocolPair) : gmap ProtocolDecl ObjCProtocolPair :=
  match m !! proto with
  | Some _ => m
  | None => <[proto := protocolPair]> m
  end.

(** *** Symbol cache *)

Definition getAddrOfObjCMethodName (selector : string) (IGM : IRGenModule)
  : Constant * IRGenModule :=
  let '(entry, names) := subscript (ObjCMethodNames IGM) selector in
  let IGM := setObjCMethodNames names IGM in
  if negb (isNull entry) then (entry, IGM)
  else
    let init := ConstantDataArrayString selector in
    let '(global, IGM) :=
      newGlobalVariable
        {| gv_typeOf := init;
           gv_isConstant := true;
           gv_linkage := InternalLinkage;
           gv_initializer := init;
           gv_name := String (ascii_of_nat 1) "L_selector_data(" +:+ selector +:+ ")";
           gv_section := "__TEXT,__objc_methname,cstring_literals";
           gv_alignment := 1;
           gv_visibility := DefaultVisibility |} IGM in
    let address := InBoundsGEP00 global in
    (address, setObjCMethodNames (<[selector := address]> (ObjCMethodNames IGM)) IGM).

Definition getAddrOfObjCSelectorRef (selector : string) (IGM : IRGenModule)
  : Constant * IRGenModule :=
  let '(entry, refs) := subscript (ObjCSelectorRefs IGM) selector in
  let IGM := setObjCSelectorRefs refs IGM in
  if negb (isNull entry) then (entry, IGM)
  else
    let '(init, IGM) := getAddrOfObjCMethodName selector IGM in
    let '(global, IGM) :=
      newGlobalVariable
        {| gv_typeOf := init;
           gv_isConstant := false;
           gv_linkage := InternalLinkage;
           gv_initializer := init;
           gv_name := String (ascii_of_nat 1) "L_selector(" +:+ selector +:+ ")";
           gv_section := "__DATA,__objc_selrefs,literal_pointers,no_dead_strip";
           gv_alignment := PointerAlignment IGM;
           gv_visibility := DefaultVisibility |} IGM in
    let IGM := addUsedGlobal global IGM in
    (global, setObjCSelectorRefs (<[selector := global]> (ObjCSelectorRefs IGM)) IGM).

Section ProtocolRecords.

(** [emitObjCProtocolData] builds the protocol record; it lives with the
    class-data builder and is taken as a collaborator that may itself add
    to the module. *)
Variable emitObjCProtocolData : ProtocolDecl -> IRGenModule -> Constant * IRGenModule.

Definition getObjCProtocolGlobalVars (proto : ProtocolDecl) (IGM : IRGenModule)
  : ObjCProtocolPair * IRGenModule :=
  match ObjCProtocols IGM !! proto with
  | Some found => (found, IGM)
  | None =>
      let '(protocolRecord, IGM) := emitObjCProtocolData proto IGM in
      let protocolRecord := BitCastToInt8Ptr protocolRecord in
      let '(protocolLabel, IGM) :=
        newGlobalVariable
          {| gv_typeOf := protocolRecord;
             gv_isConstant := false;
             gv_linkage := WeakAnyLinkage;
             gv_initializer := protocolRecord;
             gv_name := String (ascii_of_nat 1) "l_OBJC_LABEL_PROTOCOL_$_"
                          +:+ getObjCProtocolName proto;
             gv_section := "__DATA,__objc_protolist,coalesced,no_dead_strip";
             gv_alignment := PointerAlignment IGM;
             gv_visibility := HiddenVisibility |} IGM in
      let '(protocolRef, IGM) :=
        newGlobalVariable
          {| gv_typeOf := protocolRecord;
             gv_isConstant := false;
             gv_linkage := WeakAnyLinkage;
             gv_initializer := protocolRecord;
             gv_name := String (ascii_of_nat 1) "l_OBJC_PROTOCOL_REFERENCE_$_"
                          +:+ getObjCProtocolName proto;
             gv_section := "__DATA,__objc_protorefs,coalesced,no_dead_strip";
             gv_alignment := PointerAlignment IGM;
             gv_visibility := HiddenVisibility |} IGM in
      let protocolPair := {| record := protocolRecord; ref := protocolRef |} in
      (protocolPair,
       setObjCProtocols (denseInsert proto protocolPair (ObjCProtocols IGM)) IGM)
  end.

Definition getAddrOfObjCProtocolRecord (proto : ProtocolDecl) (IGM : IRGenModule)
  : Constant * IRGenModule :=
  let '(vars, IGM) := getObjCProtocolGlobalVars proto IGM in (record vars, IGM).

Definition getAddrOfObjCProtocolRef (proto : ProtocolDecl) (IGM : IRGenModule)
  : Constant * IRGenModule :=
  let '(vars, IGM) := getObjCProtocolGlobalVars proto IGM in (ref vars, IGM).

End ProtocolRecords.

(** ** Machine integers and [llvm::itostr] *)

(** [uint64_t] arithmetic ([Size::int_type]) wraps around. *)
Definition wrap64 (z : Z) : Z := z mod 2 ^ 64.

(** The conversion of a [uint64_t] to [int64_t]. *)
Definition toInt64 (z : Z) : Z := (z + 2 ^ 63) mod 2 ^ 64 - 2 ^ 63.

(** The digit loop of [utostr]; a [uint64_t] has at most twenty digits. *)
Fixpoint utostr_digits (fuel : nat) (X : Z) (buffer : string) : string :=
  match fuel with
  | O => buffer
  | S fuel =>
      if (X =? 0)%Z then buffer
      else utostr_digits fuel (X / 10)
             (String (ascii_of_nat (48 + Z.to_nat (X mod 10))) buffer)
  end.

Definition utostr (X : Z) (isNeg : bool) : string :=
  let buffer := if (X =? 0)%Z then "0" else utostr_digits 20 X "" in
  if isNeg then String "-" buffer else buffer.

Definition itostr (X : Z) : string :=
  if (X <? 0)%Z then utostr (wrap64 (- X)) true else utostr (wrap64 X) false.

(** ** The foreign type encoder

    [GenClangType::visit] maps a Swift type to a Clang type or to the null
    type; the Clang AST context gives the encoding text and the encoded
    size of a Clang type. *)

Class ClangTypeEncoder := {
  ClangType : Type;
  visit : Ty -> option ClangType;
  getObjCEncodingForType : ClangType -> string;
  getObjCEncodingTypeSize : ClangType -> Z;
  VoidTy : ClangType
}.

Section TypeEncoding.

Context {CTG : ClangTypeEncoder}.

Definition GetObjCEncodingForType (T : Ty) : Constant :=
  match visit (getCanonicalType T) with
  | Some clangType => GlobalStringAddr (getObjCEncodingForType clangType)
  | None => ConstantPointerNull
  end.

(** First loop over the tuple elements: the frame size. *)
Fixpoint sumParmSizes (elts : list Ty) (ParmOffset : Z) : option Z :=
  match elts with
  | [] => Some ParmOffset
  | ArgType :: rest =>
      match visit (getCanonicalType ArgType) with
      | None => None
      | Some clangType =>
          let sz := getObjCEncodingTypeSize clangType in
          if (sz =? 0)%Z then sumParmSizes rest ParmOffset
          else sumParmSizes rest (wrap64 (ParmOffset + sz))
      end
  end.

(** Second loop over the tuple elements: the argument codes and offsets. *)
Fixpoint encodeParms (elts : list Ty) (TypeStr : string) (ParmOffset : Z)
  : option string :=
  match elts with
  | [] => Some TypeStr
  | ArgType :: rest =>
      match visit (getCanonicalType ArgType) with
      | None => None
      | Some PType =>
          let TypeStr := TypeStr +:+ getObjCEncodingForType PType in
          let TypeStr := TypeStr +:+ itostr (toInt64 ParmOffset) in
          let sz := getObjCEncodingTypeSize PType in
          encodeParms rest TypeStr (wrap64 (ParmOffset + sz))
      end
  end.

Definition GetObjCEncodingForMethodType (IGM : IRGenModule) (T : AnyFunctionType)
  : Constant :=
  let cnull := ConstantPointerNull in
  let Result := getResult T in
  let Input := getInput T in
  match visit (getCanonicalType Result) with
  | None => cnull
  | Some clangType =>
      let TypeStr := getObjCEncodingForType clangType in
      let PtrSize := PointerSize IGM in
      let ParmOffset := wrap64 (2 * PtrSize) in
      match getCanonicalType Input with
      | TupleType elts =>
          match sumParmSizes elts ParmOffset with
          | None => cnull
          | Some ParmOffset =>
              let TypeStr := TypeStr +:+ itostr (toInt64 ParmOffset) in
              let TypeStr := TypeStr +:+ "@0:" in
              let TypeStr := TypeStr +:+ itostr (toInt64 PtrSize) in
              let ParmOffset := wrap64 (2 * PtrSize) in
              match encodeParms elts TypeStr ParmOffset with
              | None => cnull
              | Some TypeStr => GlobalStringAddr TypeStr
              end
          end
      | _ =>
          let ArgType :=
            match Input with
            | ParenType underlying => getCanonicalType underlying
            | _ => Input
            end in
          match visit (getCanonicalType ArgType) with
          | None => cnull
          | Some clangType =>
              let sz := getObjCEncodingTypeSize clangType in
              let ParmOffset :=
                if negb (sz =? 0)%Z then wrap64 (ParmOffset + sz) else ParmOffset in
              let TypeStr := TypeStr +:+ itostr (toInt64 ParmOffset) in
              let TypeStr := TypeStr +:+ "@0:" in
              let TypeStr := TypeStr +:+ itostr (toInt64 PtrSize) in
              let ParmOffset := wrap64 (2 * PtrSize) in
              let TypeStr := TypeStr +:+ getObjCEncodingForType clangType in
              let TypeStr := TypeStr +:+ itostr (toInt64 ParmOffset) in
              GlobalStringAddr TypeStr
          end
      end
  end.

End TypeEncoding.

(** ** Generation steps over the module

    A step reads and updates the module and may abort. *)

Definition IRGen (A : Type) : Type := IRGenModule -> Result (A * IRGenModule).

#[global] Instance IRGen_ret : MRet IRGen :=
  fun A a IGM => Ok (a, IGM).

#[global] Instance IRGen_bind : MBind IRGen :=
  fun A B k m IGM =>
    match m IGM with
    | Ok (a, IGM') => k a IGM'
    | Abort f => Abort f
    end.

Definition liftState {A : Type} (f : IRGenModule -> A * IRGenModule) : IRGen A :=
  fun IGM => Ok (f IGM).

Definition getPointerSize : IRGen Z :=
  fun IGM => Ok (PointerSize IGM, IGM).

Definition abort {A : Type} (f : Fatal) : IRGen A :=
  fun _ => Abort f.

Definition liftResult {A : Type} (r : Result A) : IRGen A :=
  fun IGM =>
    match r with
    | Ok a => Ok (a, IGM)
    | Abort f => Abort f
    end.

Definition assertion (cond : bool) (msg : string) : IRGen unit :=
  if cond then mret tt else abort (AssertionFailed msg).

(** ** Method descriptors *)

(** A [llvm::Constant *] variable of the caller that a descriptor builder
    receives by reference: it holds no value until it is assigned. *)
Inductive Slot :=
| Uninitialized
| Assigned (c : Constant).

Record DescriptorParts := {
  selectorRef : Slot;
  atEncoding : Slot;
  impl : Slot
}.

Definition setSelectorRef (c : Constant) (parts : DescriptorParts) : DescriptorParts :=
  {| selectorRef := Assigned c; atEncoding := atEncoding parts; impl := impl parts |}.

Definition setAtEncoding (c : Constant) (parts : DescriptorParts) : DescriptorParts :=
  {| selectorRef := selectorRef parts; atEncoding := Assigned c; impl := impl parts |}.

Definition setImpl (c : Constant) (parts : DescriptorParts) : DescriptorParts :=
  {| selectorRef := selectorRef parts; atEncoding := atEncoding parts; impl := Assigned c |}.

(** The three local variables of a caller, as declared. *)
Definition declaredParts : DescriptorParts :=
  {| selectorRef := Uninitialized; atEncoding := Uninitialized; impl := Uninitialized |}.

(** [llvm::ConstantStruct::getAnon] of the three fields. *)
Record MethodDescriptor := {
  fields : DescriptorParts
}.

(** The lowered entry point of the foreign variant of a declaration, made
    internal and cast to [i8*]. *)
Definition findSwiftAsObjCThunk (declRef : SILDeclRef) : IRGen Constant :=
  mret (BitCastToInt8Ptr (FunctionAddr declRef)).

Definition foreignRef (k : SILDeclRef.Kind) (d : ValueDecl) : SILDeclRef :=
  {| SILDeclRef.kind := k; SILDeclRef.getDecl := d; SILDeclRef.isForeign := true |}.

Definition getObjCGetterPointer (ctx : DeclContext) (getter : FuncDecl)
  : IRGen Constant :=
  if isProtocolDecl ctx then mret ConstantPointerNull
  else findSwiftAsObjCThunk (foreignRef SILDeclRef.Func (AFuncDecl getter)).

Definition getObjCSetterPointer (ctx : DeclContext) (settable : bool)
  (setter : option FuncDecl) : IRGen Constant :=
  if isProtocolDecl ctx then mret ConstantPointerNull
  else
    _ ← assertion settable "property is not settable?!";
    match setter with
    | Some setter => findSwiftAsObjCThunk (foreignRef SILDeclRef.Func (AFuncDecl setter))
    | None => abort (AssertionFailed "no IR function for swift-as-objc thunk")
    end.

Definition getObjCMethodPointer_Func (method : FuncDecl) : IRGen Constant :=
  if isProtocolDecl (func_getDeclContext method) then mret ConstantPointerNull
  else findSwiftAsObjCThunk (foreignRef SILDeclRef.Func (AFuncDecl method)).

Definition getObjCMethodPointer_Constructor (constructor : ConstructorDecl)
  : IRGen Constant :=
  if isProtocolDecl (ctor_getDeclContext constructor) then mret ConstantPointerNull
  else findSwiftAsObjCThunk
         (foreignRef SILDeclRef.Initializer (AConstructorDecl constructor)).

Definition getObjCMethodPointer_Destructor (destructor : DestructorDecl)
  : IRGen Constant :=
  findSwiftAsObjCThunk (foreignRef SILDeclRef.Deallocator (ADestructorDecl destructor)).

Inductive AbstractFunctionDecl :=
| MethodFunc (f : FuncDecl)
| MethodConstructor (c : ConstructorDecl)
| MethodDestructor (d : DestructorDecl).

Definition asValueDecl (method : AbstractFunctionDecl) : ValueDecl :=
  match method with
  | MethodFunc f => AFuncDecl f
  | MethodConstructor c => AConstructorDecl c
  | MethodDestructor d => ADestructorDecl d
  end.

Definition getType (method : AbstractFunctionDecl) : Ty :=
  match method with
  | MethodFunc f => func_getType f
  | MethodConstructor c => ctor_getType c
  | MethodDestructor d => dtor_getType d
  end.

Definition castTo_AnyFunctionType (t : Ty) : IRGen AnyFunctionType :=
  match getAs_AnyFunctionType t with
  | Some ft => mret ft
  | None => abort (AssertionFailed "castTo<Ty>() argument of incompatible type!")
  end.

Section Descriptors.

Context {CTG : ClangTypeEncoder}.

Definition emitObjCMethodDescriptorParts (method : AbstractFunctionDecl)
  (out : DescriptorParts) : IRGen DescriptorParts :=
  selector ← liftResult (Selector.ofValueDecl (asValueDecl method));
  name ← liftState (getAddrOfObjCMethodName (Selector.str selector));
  let out := setSelectorRef name out in
  methodType ← castTo_AnyFunctionType (getType method);
  methodType ←
    match method with
    | MethodDestructor _ => mret methodType
    | _ => castTo_AnyFunctionType (getResult methodType)
    end;
  encoding ← (fun IGM => Ok (GetObjCEncodingForMethodType IGM methodType, IGM));
  let out := setAtEncoding encoding out in
  pointer ←
    match method with
    | MethodFunc func => getObjCMethodPointer_Func func
    | MethodConstructor ctor => getObjCMethodPointer_Constructor ctor
    | MethodDestructor dtor => getObjCMethodPointer_Destructor dtor
    end;
  mret (setImpl pointer out).

(** [emitObjCGetterDescriptorParts] for a property. *)
Definition emitObjCGetterDescriptorParts_Var (property : VarDecl)
  (out : DescriptorParts) : IRGen DescriptorParts :=
  let getterSel := Selector.ofVarDeclForGetter property in
  name ← liftState (getAddrOfObjCMethodName (Selector.str getterSel));
  let out := setSelectorRef name out in
  match visit (getCanonicalType (var_getType property)) with
  | None => mret (setAtEncoding ConstantPointerNull out)
  | Some clangType =>
      let TypeStr := getObjCEncodingForType clangType in
      PtrSize ← getPointerSize;
      let ParmOffset := wrap64 (2 * PtrSize) in
      let TypeStr := TypeStr +:+ itostr (toInt64 ParmOffset) in
      let TypeStr := TypeStr +:+ "@0:" in
      let TypeStr := TypeStr +:+ itostr (toInt64 PtrSize) in
      let out := setAtEncoding (GlobalStringAddr TypeStr) out in
      pointer ← getObjCGetterPointer (var_getDeclContext property)
                  (var_getGetter property);
      mret (setImpl pointer out)
  end.

(** [emitObjCGetterDescriptorParts] for a subscript. *)
Definition emitObjCGetterDescriptorParts_Subscript (subscript : SubscriptDecl)
  (out : DescriptorParts) : IRGen DescriptorParts :=
  let getterSel := Selector.ofSubscriptDeclForGetter subscript in
  name ← liftState (getAddrOfObjCMethodName (Selector.str getterSel));
  let out := setSelectorRef name out in
  let out := setAtEncoding ConstantPointerNull out in
  pointer ← getObjCGetterPointer (sub_getDeclContext subscript)
              (sub_getGetter subscript);
  mret (setImpl pointer out).

(** [emitObjCSetterDescriptorParts] for a property. *)
Definition emitObjCSetterDescriptorParts_Var (property : VarDecl)
  (out : DescriptorParts) : IRGen DescriptorParts :=
  _ ← assertion (var_isSettable property) "not a settable property?!";
  let setterSel := Selector.ofVarDeclForSetter property in
  name ← liftState (getAddrOfObjCMethodName (Selector.str setterSel));
  let out := setSelectorRef name out in
  let TypeStr := getObjCEncodingForType VoidTy in
  PtrSize ← getPointerSize;
  let ParmOffset := wrap64 (2 * PtrSize) in
  let ArgType := var_getType property in
  match visit (getCanonicalType ArgType) with
  | None => mret (setAtEncoding ConstantPointerNull out)
  | Some clangType =>
      let sz := getObjCEncodingTypeSize clangType in
      let ParmOffset :=
        if negb (sz =? 0)%Z then wrap64 (ParmOffset + sz) else ParmOffset in
      let TypeStr := TypeStr +:+ itostr (toInt64 ParmOffset) in
      let TypeStr := TypeStr +:+ "@0:" in
      let TypeStr := TypeStr +:+ itostr (toInt64 PtrSize) in
      let ParmOffset := wrap64 (2 * PtrSize) in
      let TypeStr := TypeStr +:+ getObjCEncodingForType clangType in
      let TypeStr := TypeStr +:+ itostr (toInt64 ParmOffset) in
      let out := setAtEncoding (GlobalStringAddr TypeStr) out in
      pointer ← getObjCSetterPointer (var_getDeclContext property)
                  (var_isSettable property) (var_getSetter property);
      mret (setImpl pointer out)
  end.

(** [emitObjCSetterDescriptorParts] for a subscript. *)
Definition emitObjCSetterDescriptorParts_Subscript (subscript : SubscriptDecl)
  (out : DescriptorParts) : IRGen DescriptorParts :=
  _ ← assertion (sub_isSettable subscript) "not a settable subscript?!";
  let setterSel := Selector.ofSubscriptDeclForSetter subscript in
  name ← liftState (getAddrOfObjCMethodName (Selector.str setterSel));
  let out := setSelectorRef name out in
  let out := setAtEncoding ConstantPointerNull out in
  pointer ← getObjCSetterPointer (sub_getDeclContext subscript)
              (sub_isSettable subscript) (sub_getSetter subscript);
  mret (setImpl pointer out).

Definition emitObjCMethodDescriptor (method : AbstractFunctionDecl)
  : IRGen MethodDescriptor :=
  parts ← emitObjCMethodDescriptorParts method declaredParts;
  mret {| fields := parts |}.

Definition emitObjCPropertyMethodDescriptors (property : VarDecl)
  : IRGen (MethodDescriptor * option MethodDescriptor) :=
  parts ← emitObjCGetterDescriptorParts_Var property declaredParts;
  let getter := {| fields := parts |} in
  if var_isSettable property then
    parts ← emitObjCSetterDescriptorParts_Var property parts;
    mret (getter, Some {| fields := parts |})
  else mret (getter, None).

Definition emitObjCSubscriptMethodDescriptors (subscript : SubscriptDecl)
  : IRGen (MethodDescriptor * option MethodDescriptor) :=
  parts ← emitObjCGetterDescriptorParts_Subscript subscript declaredParts;
  let getter := {| fields := parts |} in
  if sub_isSettable subscript then
    parts ← emitObjCSetterDescriptorParts_Subscript subscript parts;
    mret (getter, Some {| fields := parts |})
  else mret (getter, None).

End Descriptors.

(** ** Message sends *)

Inductive ObjCMessageKind := Normal | Peer | Super.

(** The messenger entry points of the runtime. *)
Inductive Messenger :=
| ObjCMsgSendFn
| ObjCMsgSendStretFn
| ObjCMsgSendSuperFn
| ObjCMsgSendSuperStretFn
| ObjCMsgSendSuper2Fn
| ObjCMsgSendSuperStret2Fn.

Inductive LLVMType :=
| ObjCPtrTy
| ObjCSuperPtrTy
| ObjCClassPtrTy
| Int8PtrTy
| LLVMVoidTy
| NamedTy (name : string).

Record LLVMFunctionType := {
  getReturnType : LLVMType;
  params : list LLVMType;
  isVarArg : bool
}.

Inductive ParameterConvention :=
| Indirect_In
| Indirect_Out
| Indirect_Inout
| Direct_Owned
| Direct_Unowned
| Direct_Guaranteed.

(** A lowered function type together with what the type lowering answers
    about it: its LLVM signature without and with a trailing context
    parameter, whether the result is returned indirectly, and the
    conventions of its parameters. *)
Record SILFunctionType := {
  getInterfaceParameters : list ParameterConvention;
  getFunctionType : LLVMFunctionType;
  getFunctionTypeRetainable : LLVMFunctionType;
  requiresExternalIndirectResult : bool;
  resultRequiresIndirectResult : bool
}.

Definition getMsgSendSuperTy (fnTy : LLVMFunctionType) (indirectResult : bool)
  : Result LLVMFunctionType :=
  let args := params fnTy in
  let index := if indirectResult then 1%nat else 0%nat in
  bindR (assertR (index <? length args)%nat "idx < size()") (fun _ =>
  Ok {| getReturnType := getReturnType fnTy;
        params := <[index := ObjCSuperPtrTy]> args;
        isVarArg := isVarArg fnTy |}).

Record Callee := {
  origFnType : SILFunctionType;
  substFnType : SILFunctionType;
  messenger : Messenger;
  messengerType : LLVMFunctionType
}.

Definition isObjCMethodKind (k : SILDeclRef.Kind) : bool :=
  match k with
  | SILDeclRef.Initializer
  | SILDeclRef.Func
  | SILDeclRef.Destroyer
  | SILDeclRef.Deallocator => true
  | _ => false
  end.

Definition prepareObjCMethodRootCall (IGM : IRGenModule) (method : SILDeclRef)
  (origFnType substFnType : SILFunctionType) (kind : ObjCMessageKind)
  : Result Callee :=
  bindR (assertR (isObjCMethodKind (SILDeclRef.kind method))
           "objc method call must be to a func/initializer/getter/setter/dtor")
  (fun _ =>
  let fnTy := getFunctionType origFnType in
  let indirectResult := requiresExternalIndirectResult origFnType in
  bindR (match kind with
         | Normal => Ok fnTy
         | _ => getMsgSendSuperTy fnTy indirectResult
         end)
  (fun fnTy =>
  let messenger :=
    if indirectResult && ObjCUseStret IGM then
      match kind with
      | Normal => ObjCMsgSendStretFn
      | Peer => ObjCMsgSendSuperStretFn
      | Super => ObjCMsgSendSuperStret2Fn
      end
    else
      match kind with
      | Normal => ObjCMsgSendFn
      | Peer => ObjCMsgSendSuperFn
      | Super => ObjCMsgSendSuper2Fn
      end in
  Ok {| origFnType := origFnType;
        substFnType := substFnType;
        messenger := messenger;
        messengerType := fnTy |})).

(** ** Emitted code of a function

    The values and operations that the builders of this file emit into a
    function, named after the emitter that produces them. *)

Inductive Value :=
| Param (index : nat)
| Outer (name : string)
| Allocated (name : string)
| FieldAddr (base : Value) (index : nat)
| Loaded (addr : Value)
| LoadedFrom (addr : Constant)
| CallResult
| FunctionPtr (name : string)
| CastOf (c : Constant).

Inductive Inst :=
| UnmanagedAlloc (name : string)
| InitializeFromParams (value : Value) (field : Value)
| LoadAsCopy (field : Value)
| LoadAsTake (field : Value)
| Load (addr : Constant)
| EmitToMemory (callee : Callee) (args : list Value) (dest : Value)
| EmitToExplosion (callee : Callee) (args : list Value)
| Release (value : Value)
| RetVoid
| ScalarReturn (value : Value).

Record Function := {
  fn_type : LLVMFunctionType;
  fn_linkage : Linkage;
  fn_name : string;
  fn_body : list Inst
}.

(** Modelled from the spec: [IRGenFunction::emitObjCSelectorRefLoad] is
    defined outside this file; the selector is loaded through one
    indirection from its reference cell, not from its name. *)
Definition emitObjCSelectorRefLoad (selector : string) : IRGen (Value * list Inst) :=
  loadSelRef ← liftState (getAddrOfObjCSelectorRef selector);
  mret (LoadedFrom loadSelRef, [Load loadSelRef]).

(** [addObjCMethodCallImplicitArguments] for a send that is not a super
    send (a null search type): the receiver, then the selector. *)
Definition addObjCMethodCallImplicitArguments (method : SILDeclRef) (self : Value)
  : IRGen (list Value * list Inst) :=
  selector ← liftResult (Selector.ofSILDeclRef method);
  let args := [self] in
  '(sel, code) ← emitObjCSelectorRefLoad (Selector.str selector);
  mret ((args ++ [sel])%list, code).

(** ** Partial application *)

Definition back {A : Type} (l : list A) : Result A :=
  match last l with
  | Some a => Ok a
  | None => Abort (AssertionFailed "!empty()")
  end.

Definition emitObjCPartialApplicationForwarder (method : SILDeclRef)
  (origMethodType resultType : SILFunctionType) : IRGen Function :=
  let fwdTy := getFunctionTypeRetainable resultType in
  selfConvention ← liftResult (back (getInterfaceParameters origMethodType));
  retainsSelf ←
    match selfConvention with
    | Direct_Unowned => mret false
    | Direct_Guaranteed
    | Direct_Owned => mret true
    | Indirect_In
    | Indirect_Out
    | Indirect_Inout => abort (Unreachable "self passed indirectly?!")
    end;
  let collected := map Param (seq 0 (length (params fwdTy))) in
  context ← liftResult (back collected);
  let collected := removelast collected in
  let selfAddr := FieldAddr context 0 in
  let loadSelf := if retainsSelf : bool then LoadAsCopy selfAddr else LoadAsTake selfAddr in
  let self := Loaded selfAddr in
  '(indirectReturn, collected) ←
    (if resultRequiresIndirectResult origMethodType then
       match collected with
       | next :: rest => mret (Some next, rest)
       | [] => abort (AssertionFailed "NextValue < Values.size()")
       end
     else mret (None, collected));
  IGM ← (fun IGM => Ok (IGM, IGM));
  emission ← liftResult
    (prepareObjCMethodRootCall IGM method origMethodType origMethodType Normal);
  '(args, selectorCode) ← addObjCMethodCallImplicitArguments method self;
  let args := (args ++ collected)%list in
  let exit :=
    match indirectReturn with
    | Some indirectReturn =>
        [ EmitToMemory emission args indirectReturn;
          Release context;
          RetVoid ]
    | None =>
        [ EmitToExplosion emission args;
          Release context;
          ScalarReturn CallResult ]
    end in
  mret {| fn_type := fwdTy;
          fn_linkage := InternalLinkage;
          fn_name := "_TPAo";
          fn_body := (loadSelf :: selectorCode ++ exit)%list |}.

(** [emitObjCPartialApplication]: the code emitted into the enclosing
    function, the forwarder, and the two values of the result. *)
Record PartialApplication := {
  pa_code : list Inst;
  pa_forwarder : Function;
  pa_out : list Value
}.

Definition emitObjCPartialApplication (method : SILDeclRef)
  (origMethodType resultType : SILFunctionType) (self : Value)
  : IRGen PartialApplication :=
  let data := Allocated "closure" in
  let fieldAddr := FieldAddr data 0 in
  let code := [UnmanagedAlloc "closure"; InitializeFromParams self fieldAddr] in
  forwarder ← emitObjCPartialApplicationForwarder method origMethodType resultType;
  let forwarderValue := FunctionPtr (fn_name forwarder) in
  mret {| pa_code := code;
          pa_forwarder := forwarder;
          pa_out := [forwarderValue; data] |}.






(** ** Eligibility predicates *)

(** [ty->getAs<AnyFunctionType>()->getResult()->is<PolymorphicFunctionType>()];
    the type of a method or constructor is a function type. *)
Definition resultIsPolymorphic (ty : Ty) : bool :=
  match getAs_AnyFunctionType ty with
  | Some ft => is_PolymorphicFunctionType (getResult ft)
  | None => false
  end.

Definition inBoundGenericContext (ctx : DeclContext) : bool :=
  is_BoundGenericType (getDeclaredTypeInContext ctx).

Fixpoint requiresObjCMethodDescriptor (method : FuncDecl) : bool :=
  if func_isAccessor method then false
  else if is_PolymorphicFunctionType (func_getType method)
          || resultIsPolymorphic (func_getType method)
          || inBoundGenericContext (func_getDeclContext method)
  then false
  else if func_isObjC method || func_isIBAction method then true
  else
    match func_getOverriddenDecl method with
    | Some override => requiresObjCMethodDescriptor override
    | None => false
    end.

Definition requiresObjCMethodDescriptor_Constructor (constructor : ConstructorDecl)
  : bool :=
  if is_PolymorphicFunctionType (ctor_getType constructor)
     || resultIsPolymorphic (ctor_getType constructor)
     || inBoundGenericContext (ctor_getDeclContext constructor)
  then false
  else ctor_isObjC constructor.

Fixpoint requiresObjCPropertyDescriptor (property : VarDecl) : bool :=
  if inBoundGenericContext (var_getDeclContext property) then false
  else
    match var_getOverriddenDecl property with
    | Some override => requiresObjCPropertyDescriptor override
    | None =>
        if negb (var_isObjC property) then false
        else
          match getAs_AnyFunctionType (var_getType property) with
          | Some ft => isBlock ft
          | None => true
          end
    end.

Fixpoint requiresObjCSubscriptDescriptor (subscript : SubscriptDecl) : bool :=
  if inBoundGenericContext (sub_getDeclContext subscript) then false
  else
    match sub_getOverriddenDecl subscript with
    | Some override => requiresObjCSubscriptDescriptor override
    | None =>
        if negb (sub_isObjC subscript) then false
        else
          match getAs_AnyFunctionType (sub_getElementType subscript) with
          | Some ft => isBlock ft
          | None => true
          end
    end.

(** ** The family classification in the words of the specification

    The text is stripped of all its leading underscores; a family prefix
    matches the stripped text when the text starts with it and the next
    character, if there is one, is not a lowercase letter. *)

Fixpoint underscores (n : nat) : string :=
  match n with
  | O => EmptyString
  | S n => String "_" (underscores n)
  end.

Definition nextIsNotLowercase (rest : string) : Prop :=
  match rest with
  | EmptyString => True
  | String c _ => Selector.islower c = false
  end.

Definition prefixMatch (body pfx : string) : Prop :=
  exists rest, body = pfx +:+ rest /\ nextIsNotLowercase rest.

Definition stripped (text body : string) : Prop :=
  (exists n, text = underscores n +:+ body) /\
  (forall rest, body <> String "_" rest).

Inductive classifies (text : string) : Family.Family -> Prop :=
| classifies_family body label pfx :
    stripped text body ->
    In (label, pfx) Selector.FOREACH_FAMILY ->
    prefixMatch body pfx ->
    classifies text label
| classifies_none body :
    stripped text body ->
    (forall label pfx, In (label, pfx) Selector.FOREACH_FAMILY -> ~ prefixMatch body pfx) ->
    classifies text Family.None.

(** ** Sequences of requests to the selector cache *)

Inductive SelectorRequest :=
| RequestMethodName (selector : string)
| RequestSelectorRef (selector : string).

Definition request (r : SelectorRequest) (IGM : IRGenModule) : Constant * IRGenModule :=
  match r with
  | RequestMethodName selector => getAddrOfObjCMethodName selector IGM
  | RequestSelectorRef selector => getAddrOfObjCSelectorRef selector IGM
  end.

Fixpoint requests (rs : list SelectorRequest) (IGM : IRGenModule) : IRGenModule :=
  match rs with
  | [] => IGM
  | r :: rs => requests rs (request r IGM).2
  end.

(** ** The method encoding in the words of the specification

    The return code, the frame size, the receiver and selector codes
    [@0:<P>], then each argument's code followed by its offset, the
    offsets starting at [2P] and growing by the argument sizes. *)

Section EncodingLayout.

Context {CTG : ClangTypeEncoder}.

(** The argument types of a method type: the elements of its input tuple,
    or its single input. *)
Definition argumentTypes (T : AnyFunctionType) : list Ty :=
  match getCanonicalType (getInput T) with
  | TupleType elts => elts
  | _ =>
      [ match getInput T with
        | ParenType underlying => getCanonicalType underlying
        | _ => getInput T
        end ]
  end.

Definition encodes (t : Ty) (clangType : ClangType) : Prop :=
  visit (getCanonicalType t) = Some clangType.

Definition unencodable (t : Ty) : Prop :=
  visit (getCanonicalType t) = None.

Definition sizes (cts : list ClangType) : Z :=
  fold_right (fun ct total => getObjCEncodingTypeSize ct + total)%Z 0%Z cts.

Fixpoint argumentEncoding (cts : list ClangType) (offset : Z) : string :=
  match cts with
  | [] => EmptyString
  | ct :: rest =>
      getObjCEncodingForType ct +:+ itostr offset
        +:+ argumentEncoding rest (offset + getObjCEncodingTypeSize ct)
  end.

Definition methodEncoding (P : Z) (returnType : ClangType) (cts : list ClangType)
  : string :=
  getObjCEncodingForType returnType +:+ itostr (2 * P + sizes cts)
    +:+ "@0:" +:+ itostr P +:+ argumentEncoding cts (2 * P).

End EncodingLayout.

(** ** The dispatch table in the words of the specification

    Whether a struct return is in effect, and the kind of the send, select
    one of the six entry points. *)

Definition dispatchEntryPoint (structReturn : bool) (kind : ObjCMessageKind)
  : Messenger :=
  match structReturn, kind with
  | false, Normal => ObjCMsgSendFn
  | true, Normal => ObjCMsgSendStretFn
  | false, Peer => ObjCMsgSendSuperFn
  | true, Peer => ObjCMsgSendSuperStretFn
  | false, Super => ObjCMsgSendSuper2Fn
  | true, Super => ObjCMsgSendSuperStret2Fn
  end.

(** ** Override chains *)

(** The declaration reached by following the overridden declaration
    [n] times. *)
Fixpoint overriddenFunc (n : nat) (method : FuncDecl) : option FuncDecl :=
  match n with
  | O => Some method
  | S n =>
      match func_getOverriddenDecl method with
      | Some override => overriddenFunc n override
      | None => None
      end
  end.

Fixpoint overriddenVar (n : nat) (property : VarDecl) : option VarDecl :=
  match n with
  | O => Some property
  | S n =>
      match var_getOverriddenDecl property with
      | Some override => overriddenVar n override
      | None => None
      end
  end.

Fixpoint overriddenSubscript (n : nat) (subscript : SubscriptDecl)
  : option SubscriptDecl :=
  match n with
  | O => Some subscript
  | S n =>
      match sub_getOverriddenDecl subscript with
      | Some override => overriddenSubscript n override
      | None => None
      end
  end.

(** The exclusions that each predicate tests on the declaration itself
    before it looks at anything else. *)
Definition excludedFunc (method : FuncDecl) : bool :=
  func_isAccessor method
  || is_PolymorphicFunctionType (func_getType method)
  || resultIsPolymorphic (func_getType method)
  || inBoundGenericContext (func_getDeclContext method).

Definition excludedConstructor (constructor : ConstructorDecl) : bool :=
  is_PolymorphicFunctionType (ctor_getType constructor)
  || resultIsPolymorphic (ctor_getType constructor)
  || inBoundGenericContext (ctor_getDeclContext constructor).

(** ** Sample inputs *)

Definition sampleContext : DeclContext :=
  {| isProtocolDecl := false; getDeclaredTypeInContext := NominalType "Widget" |}.

Definition sampleMethod : FuncDecl :=
  {| func_getObjCSelector := "frobnicate:";
     func_getDeclContext := sampleContext;
     func_getType :=
       FunctionType (NominalType "Widget")
         (FunctionType (ParenType (NominalType "Int")) (NominalType "Void") false) false;
     func_isAccessor := false;
     func_isObjC := true;
     func_isIBAction := false;
     func_isInstanceMember := true;
     func_getOverriddenDecl := None |}.

Definition sampleMethodRef : SILDeclRef :=
  {| SILDeclRef.kind := SILDeclRef.Func;
     SILDeclRef.getDecl := AFuncDecl sampleMethod;
     SILDeclRef.isForeign := true |}.

(** The lowered type of [sampleMethod]: an integer argument and the
    receiver, passed with the given convention. *)
Definition sampleMethodType (selfConvention : ParameterConvention)
  (indirect : bool) : SILFunctionType :=
  {| getInterfaceParameters := [Direct_Unowned; selfConvention];
     getFunctionType :=
       {| getReturnType := LLVMVoidTy;
          params := [ObjCPtrTy; Int8PtrTy; NamedTy "i64"];
          isVarArg := false |};
     getFunctionTypeRetainable :=
       {| getReturnType := LLVMVoidTy;
          params := [NamedTy "i64"; NamedTy "%swift.refcounted*"];
          isVarArg := false |};
     requiresExternalIndirectResult := indirect;
     resultRequiresIndirectResult := false |}.

(** An encoder for a few nominal types: code and encoded size. *)
Definition sampleVisit (t : Ty) : option (string * Z) :=
  match t with
  | NominalType "Void" => Some ("v", 0%Z)
  | NominalType "Int" => Some ("q", 8%Z)
  | NominalType "Float" => Some ("f", 4%Z)
  | NominalType "NSObject" => Some ("@", 8%Z)
  | _ => None
  end.

Definition sampleEncoder : ClangTypeEncoder :=
  {| ClangType := string * Z;
     visit := sampleVisit;
     getObjCEncodingForType := fst;
     getObjCEncodingTypeSize := snd;
     VoidTy := ("v", 0%Z) |}.

(** An empty module for a target with eight-byte pointers. *)
Definition sampleModule : IRGenModule :=
  {| Module := [];
     ObjCMethodNames := ∅;
     ObjCSelectorRefs := ∅;
     ObjCProtocols := ∅;
     LLVMUsed := [];
     PointerSize := 8;
     PointerAlignment := 8;
     ObjCUseStret := true |}.

(** A record builder that emits the record as one more global. *)
Definition sampleEmitObjCProtocolData (proto : ProtocolDecl) (IGM : IRGenModule)
  : Constant * IRGenModule :=
  newGlobalVariable
    {| gv_typeOf := OpaqueData "protocol_t" (protoAddr proto);
       gv_isConstant := false;
       gv_linkage := InternalLinkage;
       gv_initializer := OpaqueData "protocol_t" (protoAddr proto);
       gv_name := "_PROTOCOL_" +:+ getObjCProtocolName proto;
       gv_section := "__DATA,__objc_const";
       gv_alignment := PointerAlignment IGM;
       gv_visibility := DefaultVisibility |} IGM.

Definition sampleProtocol : ProtocolDecl :=
  {| protoAddr := 1%positive; getObjCProtocolName := "NSCopying" |}.

Definition sampleGenericContext : DeclContext :=
  {| isProtocolDecl := false;
     getDeclaredTypeInContext := BoundGenericType "Box" [NominalType "Int"] |}.

(** A method of a bound generic class, not marked itself, that overrides
    the marked [sampleMethod]. *)
Definition sampleOverridingMethod : FuncDecl :=
  {| func_getObjCSelector := "frobnicate:";
     func_getDeclContext := sampleGenericContext;
     func_getType := func_getType sampleMethod;
     func_isAccessor := false;
     func_isObjC := false;
     func_isIBAction := false;
     func_isInstanceMember := true;
     func_getOverriddenDecl := Some sampleMethod |}.

(** An unmarked method of a plain class that overrides [sampleMethod]. *)
Definition samplePlainOverride : FuncDecl :=
  {| func_getObjCSelector := "frobnicate:";
     func_getDeclContext := sampleContext;
     func_getType := func_getType sampleMethod;
     func_isAccessor := false;
     func_isObjC := false;
     func_isIBAction := false;
     func_isInstanceMember := true;
     func_getOverriddenDecl := Some sampleMethod |}.

Definition sampleConstructor : ConstructorDecl :=
  {| ctor_getObjCSelector := "init";
     ctor_getDeclContext := sampleContext;
     ctor_getType :=
       FunctionType (NominalType "Widget.Type")
         (FunctionType (TupleType []) (NominalType "Widget") false) false;
     ctor_isObjC := true;
     ctor_getOverriddenDecl := None |}.

(** An unmarked constructor that overrides the marked [sampleConstructor]. *)
Definition sampleOverridingConstructor : ConstructorDecl :=
  {| ctor_getObjCSelector := "init";
     ctor_getDeclContext := sampleContext;
     ctor_getType := ctor_getType sampleConstructor;
     ctor_isObjC := false;
     ctor_getOverriddenDecl := Some sampleConstructor |}.

(** A settable property whose type the encoder does not know. *)
Definition sampleOpaqueProperty : VarDecl :=
  {| var_getObjCGetterSelector := "payload";
     var_getObjCSetterSelector := "setPayload:";
     var_getDeclContext := sampleContext;
     var_getType := NominalType "Payload";
     var_isObjC := true;
     var_isSettable := true;
     var_getGetter := sampleMethod;
     var_getSetter := Some sampleMethod;
     var_getOverriddenDecl := None |}.

(** A settable subscript with an encodable element type. *)
Definition sampleSubscript : SubscriptDecl :=
  {| sub_getObjCGetterSelector := "objectAtIndexedSubscript:";
     sub_getObjCSetterSelector := "setObject:atIndexedSubscript:";
     sub_getDeclContext := sampleContext;
     sub_getElementType := NominalType "NSObject";
     sub_isObjC := true;
     sub_isSettable := true;
     sub_getGetter := sampleMethod;
     sub_getSetter := Some sampleMethod;
     sub_getOverriddenDecl := None |}.

(** A method type with two arguments. *)
Definition sampleTwoArgumentType : AnyFunctionType :=
  {| getInput := TupleType [NominalType "Int"; NominalType "Float"];
     getResult := NominalType "Void";
     isBlock := false |}.

(** ** The selector cache and the globals of the module *)

(** The entry of a selector, a null entry counting as none. *)
Definition cachedIn (m : gmap string Constant) (selector : string) : option Constant :=
  match m !! selector with
  | Some entry => if isNull entry then None else Some entry
  | None => None
  end.

Definition cachedName (IGM : IRGenModule) (selector : string) : option Constant :=
  cachedIn (ObjCMethodNames IGM) selector.

Definition cachedRef (IGM : IRGenModule) (selector : string) : option Constant :=
  cachedIn (ObjCSelectorRefs IGM) selector.

Definition methnameSection : string := "__TEXT,__objc_methname,cstring_literals".

Definition selrefsSection : string :=
  "__DATA,__objc_selrefs,literal_pointers,no_dead_strip".

Definition selectorRefName (selector : string) : string :=
  String (ascii_of_nat 1) "L_selector(" +:+ selector +:+ ")".

(** The caches and the globals of the method-name and selector-reference
    sections describe one another: a cached name is the start of a global
    of the name section that holds the selector text, a cached reference
    is a used global of the reference section that is initialised with the
    cached name of its selector, and every global of the two sections is
    the cached symbol of its selector. *)
Record cacheConsistent (IGM : IRGenModule) : Prop := {
  name_has_global :
    forall s a, cachedName IGM s = Some a ->
      exists i g, a = InBoundsGEP00 (GlobalVariableAddr i) /\
                  Module IGM !! i = Some g /\
                  gv_initializer g = ConstantDataArrayString s /\
                  gv_section g = methnameSection;
  global_has_name :
    forall i g s, Module IGM !! i = Some g ->
      gv_section g = methnameSection ->
      gv_initializer g = ConstantDataArrayString s ->
      cachedName IGM s = Some (InBoundsGEP00 (GlobalVariableAddr i));
  ref_has_global :
    forall s r, cachedRef IGM s = Some r ->
      exists i g, r = GlobalVariableAddr i /\
                  Module IGM !! i = Some g /\
                  gv_section g = selrefsSection /\
                  gv_name g = selectorRefName s /\
                  cachedName IGM s = Some (gv_initializer g) /\
                  In r (LLVMUsed IGM);
  global_has_ref :
    forall i g s, Module IGM !! i = Some g ->
      gv_section g = selrefsSection ->
      gv_name g = selectorRefName s ->
      cachedRef IGM s = Some (GlobalVariableAddr i)
}.

(** The number of globals a request adds to the module. *)
Definition globalsAdded (r : SelectorRequest) (IGM : IRGenModule) : nat :=
  match r with
  | RequestMethodName s => if is_Some_dec (cachedName IGM s) then 0 else 1
  | RequestSelectorRef s =>
      if is_Some_dec (cachedRef IGM s) then 0
      else if is_Some_dec (cachedName IGM s) then 1 else 2
  end.

Definition protolistSection : string :=
  "__DATA,__objc_protolist,coalesced,no_dead_strip".

Definition protorefsSection : string :=
  "__DATA,__objc_protorefs,coalesced,no_dead_strip".

(** ** Method types of declarations *)

(** The function type a method descriptor encodes: the type of the
    declaration with the curried self parameter taken off, except for a
    destructor, whose own type is encoded. *)
Definition encodedMethodType (method : AbstractFunctionDecl) : option AnyFunctionType :=
  match getAs_AnyFunctionType (getType method) with
  | None => None
  | Some methodType =>
      match method with
      | MethodDestructor _ => Some methodType
      | _ => getAs_AnyFunctionType (getResult methodType)
      end
  end.

(** Whether a method has no implementation of its own: a method or a
    constructor declared in a protocol. *)
Definition isProtocolRequirement (method : AbstractFunctionDecl) : bool :=
  match method with
  | MethodFunc f => isProtocolDecl (func_getDeclContext f)
  | MethodConstructor c => isProtocolDecl (ctor_getDeclContext c)
  | MethodDestructor _ => false
  end.

Definition selectorText (method : AbstractFunctionDecl) : string :=
  match method with
  | MethodFunc f => func_getObjCSelector f
  | MethodConstructor c => ctor_getObjCSelector c
  | MethodDestructor _ => "dealloc"
  end.

(** A descriptor with its three fields assigned. *)
Definition assignedDescriptor (name encoding pointer : Constant) : MethodDescriptor :=
  {| fields := {| selectorRef := Assigned name;
                  atEncoding := Assigned encoding;
                  impl := Assigned pointer |} |}.

(** The type of the getter of a property as a method type, and that of
    its setter with a given result type. *)
Definition getterMethodType (property : VarDecl) : AnyFunctionType :=
  {| getInput := TupleType [];
     getResult := var_getType property;
     isBlock := false |}.

Definition setterMethodType (property : VarDecl) (result : Ty) : AnyFunctionType :=
  {| getInput := ParenType (var_getType property);
     getResult := result;
     isBlock := false |}.

Definition isTupleType (t : Ty) : bool :=
  match t with
  | TupleType _ => true
  | _ => false
  end.

(** ** Instance-variable initialisers and destroyers *)

Record ClassDecl := {
  class_name : string;
  class_getDestructor : DestructorDecl
}.

Section IVarInitDestroy.

Context {CTG : ClangTypeEncoder}.

(** [IRGenModule::getAddrOfObjCIVarInitDestroy] looks up the function the
    compiler synthesised for the class, if any; it is defined with the
    function declarations of the module. *)
Variable getAddrOfObjCIVarInitDestroy : ClassDecl -> bool -> option Constant.

Definition emitObjCIVarInitDestroyDescriptor (cd : ClassDecl) (isDestroyer : bool)
  : IRGen (option MethodDescriptor) :=
  match getAddrOfObjCIVarInitDestroy cd isDestroyer with
  | None => mret None
  | Some objcImpl =>
      let declRef :=
        {| SILDeclRef.kind :=
             if isDestroyer then SILDeclRef.IVarDestroyer
             else SILDeclRef.IVarInitializer;
           SILDeclRef.getDecl := AClassDecl (class_name cd);
           SILDeclRef.isForeign := true |} in
      selector ← liftResult (Selector.ofSILDeclRef declRef);
      name ← liftState (getAddrOfObjCMethodName (Selector.str selector));
      let encoding := GetObjCEncodingForType (dtor_getType (class_getDestructor cd)) in
      let pointer := BitCastToInt8Ptr objcImpl in
      mret (Some {| fields := {| selectorRef := Assigned name;
                                 atEncoding := Assigned encoding;
                                 impl := Assigned pointer |} |})
  end.

End IVarInitDestroy.

(** ** Message sends, continued *)

(** The parameter of the lowered signature that a super send retypes:
    the second when the first is the indirect-result slot, the first
    otherwise. *)
Definition superParameterIndex (origFnType : SILFunctionType) : nat :=
  if requiresExternalIndirectResult origFnType then 1 else 0.

Definition isIndirectConvention (c : ParameterConvention) : bool :=
  match c with
  | Indirect_In | Indirect_Out | Indirect_Inout => true
  | Direct_Owned | Direct_Unowned | Direct_Guaranteed => false
  end.

(** ** Override chains, continued *)

(** The number of declarations a method overrides, directly or not. *)
Fixpoint funcChainLength (method : FuncDecl) : nat :=
  match func_getOverriddenDecl method with
  | Some override => S (funcChainLength override)
  | None => 0
  end.

Definition funcIsMarked (method : FuncDecl) : bool :=
  func_isObjC method || func_isIBAction method.

(** What the property and subscript predicates answer for a declaration
    that overrides nothing and is not in a bound generic type: it must be
    marked, and a function type must be a block type. *)
Definition exposableType (marked : bool) (t : Ty) : bool :=
  marked && match getAs_AnyFunctionType t with
            | Some ft => isBlock ft
            | None => true
            end.

(** ** The type information of class pointers *)

Record TypeInfo := {
  StorageType : LLVMType;
  StorageSize : Z;
  StorageAlignment : Z
}.

(** The converter caches the type information of [ObjCClassPtrTy] and
    chains every type information it creates, newest first
    ([FirstType], [NextConverted]). *)
Record TypeConverter := {
  ObjCClassPtrTI : option TypeInfo;
  FirstType : list TypeInfo
}.

(** [TypeConverter::getObjCClassPtrTypeInfo]; [createPrimitive] builds
    the type information of a primitive type from its storage type, size
    and alignment. *)
Definition getObjCClassPtrTypeInfo (IGM : IRGenModule) (Types : TypeConverter)
  : TypeInfo * TypeConverter :=
  match ObjCClassPtrTI Types with
  | Some ti => (ti, Types)
  | None =>
      let ti := {| StorageType := ObjCClassPtrTy;
                   StorageSize := PointerSize IGM;
                   StorageAlignment := PointerAlignment IGM |} in
      (ti, {| ObjCClassPtrTI := Some ti; FirstType := ti :: FirstType Types |})
  end.

(** ** More sample inputs *)

(** A property that is not settable, of an encodable type. *)
Definition sampleReadOnlyProperty : VarDecl :=
  {| var_getObjCGetterSelector := "count";
     var_getObjCSetterSelector := "setCount:";
     var_getDeclContext := sampleContext;
     var_getType := NominalType "Int";
     var_isObjC := true;
     var_isSettable := false;
     var_getGetter := sampleMethod;
     var_getSetter := None;
     var_getOverriddenDecl := None |}.

(** A settable property of an encodable type. *)
Definition sampleSettableProperty : VarDecl :=
  {| var_getObjCGetterSelector := "count";
     var_getObjCSetterSelector := "setCount:";
     var_getDeclContext := sampleContext;
     var_getType := NominalType "Int";
     var_isObjC := true;
     var_isSettable := true;
     var_getGetter := sampleMethod;
     var_getSetter := Some sampleMethod;
     var_getOverriddenDecl := None |}.

(** A property of plain function type, marked, that overrides the
    unmarked [sampleUnmarkedProperty]. *)
Definition sampleUnmarkedProperty : VarDecl :=
  {| var_getObjCGetterSelector := "handler";
     var_getObjCSetterSelector := "setHandler:";
     var_getDeclContext := sampleContext;
     var_getType := NominalType "Int";
     var_isObjC := false;
     var_isSettable := false;
     var_getGetter := sampleMethod;
     var_getSetter := None;
     var_getOverriddenDecl := None |}.

Definition sampleMarkedOverridingProperty : VarDecl :=
  {| var_getObjCGetterSelector := "handler";
     var_getObjCSetterSelector := "setHandler:";
     var_getDeclContext := sampleContext;
     var_getType := NominalType "Int";
     var_isObjC := true;
     var_isSettable := false;
     var_getGetter := sampleMethod;
     var_getSetter := None;
     var_getOverriddenDecl := Some sampleUnmarkedProperty |}.

Definition sampleRequests : list SelectorRequest :=
  [RequestSelectorRef "init"; RequestMethodName "copy"; RequestMethodName "init"].

(** ** The implementation pointer of an accessor *)

(** What [getObjCGetterPointer] and [getObjCSetterPointer] produce for an
    accessor function: null for a member of a protocol, and otherwise
    the accessor's foreign entry point cast to [i8*]. *)
Definition accessorThunk (ctx : DeclContext) (accessor : FuncDecl) : Constant :=
  if isProtocolDecl ctx then ConstantPointerNull
  else BitCastToInt8Ptr
         (FunctionAddr
            {| SILDeclRef.kind := SILDeclRef.Func;
               SILDeclRef.getDecl := AFuncDecl accessor;
               SILDeclRef.isForeign := true |}).

(** * Properties *)

#[local] Arguments append !s1 s2 / : simpl nomatch.

(** ** Selector model *)

Lemma startswith_split (pfx text : string) :
  Selector.startswith text pfx = true <-> exists rest, text = pfx +:+ rest.
Proof.
  unfold Selector.startswith. revert text.
  induction pfx as [|c pfx IH]; intros text; simpl.
  - split; [intros _; exists text; reflexivity | intros _; destruct text; reflexivity].
  - destruct text as [|d text].
    + split; [discriminate | intros [rest H]; discriminate].
    + simpl. destruct (ascii_dec c d) as [->|Hne].
      * rewrite IH. split; intros [rest H]; exists rest; congruence.
      * split; [discriminate | intros [rest H]; congruence].
Qed.

Lemma length_append_eqb (pfx rest : string) :
  (String.length (pfx +:+ rest) =? String.length pfx)%nat = true <-> rest = EmptyString.
Proof.
  induction pfx as [|c pfx IH]; simpl.
  - destruct rest; simpl; split; congruence.
  - exact IH.
Qed.

Lemma get_past_prefix (pfx rest : string) :
  String.get (String.length pfx) (pfx +:+ rest) = String.get 0 rest.
Proof. induction pfx as [|c pfx IH]; simpl; [reflexivity | exact IH]. Qed.

Lemma hasPrefix_prefixMatch (text pfx : string) :
  Selector.hasPrefix text pfx = true <-> prefixMatch text pfx.
Proof.
  unfold Selector.hasPrefix, prefixMatch.
  destruct (Selector.startswith text pfx) eqn:Hsw; simpl.
  - apply startswith_split in Hsw as [rest ->].
    rewrite get_past_prefix.
    destruct (String.length (pfx +:+ rest) =? String.length pfx)%nat eqn:Hlen.
    + apply length_append_eqb in Hlen as ->.
      split; [intros _; exists EmptyString; split; [reflexivity | exact I] | reflexivity].
    + assert (Hrest : rest <> EmptyString).
      { intros ->. rewrite (proj2 (length_append_eqb pfx EmptyString) eq_refl) in Hlen.
        discriminate. }
      destruct rest as [|c rest]; [congruence |]. simpl.
      split.
      * intros Hc. exists (String c rest). split; [reflexivity |].
        simpl. destruct (Selector.islower c); [discriminate | reflexivity].
      * intros [rest' [Heq Hnext]].
        assert (rest' = String c rest) as ->.
        { clear -Heq. induction pfx as [|d pfx IH]; simpl in Heq; [congruence |].
          injection Heq as Heq. auto. }
        simpl in Hnext. rewrite Hnext. reflexivity.
  - split; [discriminate |].
    intros [rest [-> _]].
    rewrite (proj2 (startswith_split pfx (pfx +:+ rest))) in Hsw by (eexists; reflexivity).
    discriminate.
Qed.

Lemma dropUnderscores_stripped (text : string) :
  stripped text (Selector.dropUnderscores text).
Proof.
  induction text as [|c text [[n Hn] Hno]]; simpl.
  - split; [exists 0%nat; reflexivity | discriminate].
  - destruct (Ascii.eqb c "_") eqn:Hc.
    + apply Ascii.eqb_eq in Hc as ->. split; [| exact Hno].
      exists (S n). simpl. rewrite <- Hn. reflexivity.
    + split; [exists 0%nat; reflexivity |].
      intros rest [= -> _]. rewrite Ascii.eqb_refl in Hc. discriminate.
Qed.

Lemma dropUnderscores_underscores (n : nat) (text : string) :
  Selector.dropUnderscores (underscores n +:+ text) = Selector.dropUnderscores text.
Proof. induction n as [|n IH]; simpl; [reflexivity | exact IH]. Qed.

Lemma dropUnderscores_fixed (body : string) :
  (forall rest, body <> String "_" rest) -> Selector.dropUnderscores body = body.
Proof.
  destruct body as [|c body]; simpl; [reflexivity |].
  intros Hno. destruct (Ascii.eqb c "_") eqn:Hc; [| reflexivity].
  apply Ascii.eqb_eq in Hc as ->. exfalso. exact (Hno body eq_refl).
Qed.

Lemma stripped_unique (text body : string) :
  stripped text body -> body = Selector.dropUnderscores text.
Proof.
  intros [[n ->] Hno]. rewrite dropUnderscores_underscores.
  symmetry. apply dropUnderscores_fixed. exact Hno.
Qed.

Lemma checkPrefixes_sound (body : string) (families : list (Family.Family * string)) :
  (exists pfx, In (Selector.checkPrefixes body families, pfx) families /\
               prefixMatch body pfx) \/
  (Selector.checkPrefixes body families = Family.None /\
   forall label pfx, In (label, pfx) families -> ~ prefixMatch body pfx).
Proof.
  induction families as [|[label pfx] families IH]; simpl.
  - right. split; [reflexivity | intros ? ? []].
  - destruct (Selector.hasPrefix body pfx) eqn:Hp.
    + left. exists pfx. split; [left; reflexivity |].
      apply hasPrefix_prefixMatch. exact Hp.
    + destruct IH as [[pfx' [Hin Hm]] | [Hnone Hall]].
      * left. exists pfx'. split; [right; exact Hin | exact Hm].
      * right. split; [exact Hnone |].
        intros l q [[= <- <-] | Hin].
        -- rewrite <- hasPrefix_prefixMatch, Hp. discriminate.
        -- apply Hall with l. exact Hin.
Qed.

(** The family prefixes exclude one another: a text matches at most one. *)
Lemma family_prefix_exclusive (body : string) (label : Family.Family) (pfx : string) :
  In (label, pfx) Selector.FOREACH_FAMILY ->
  prefixMatch body pfx ->
  Selector.checkPrefixes body Selector.FOREACH_FAMILY = label.
Proof.
  intros Hin Hm.
  pose proof (proj2 (hasPrefix_prefixMatch body pfx) Hm) as Hp.
  destruct Hm as [rest [-> _]].
  simpl in Hin.
  destruct Hin as [[= <- <-] | [[= <- <-] | [[= <- <-] | [[= <- <-] | [[= <- <-] | []]]]]];
    unfold Selector.checkPrefixes, Selector.FOREACH_FAMILY;
    rewrite ?Hp; try reflexivity;
    repeat match goal with
           | |- context [Selector.hasPrefix ?t ?q] =>
               first [ rewrite Hp
                     | change (Selector.hasPrefix t q) with false ]
           end; reflexivity.
Qed.

(** C2: the family of a selector is the one the specification describes:
    the leading underscores are stripped, then the family whose prefix
    matches the stripped text is returned, a match requiring that the
    character after the prefix, if any, is not lowercase; no family
    otherwise.  Any number of leading underscores leaves the family
    unchanged, and the sample names fall into their families. *)
Theorem getFamily_classification :
  (forall text f,
     Selector.getFamily {| Selector.Text := text |} = f <-> classifies text f) /\
  (forall n text,
     Selector.getFamily {| Selector.Text := underscores n +:+ text |}
     = Selector.getFamily {| Selector.Text := text |}) /\
  Selector.getFamily {| Selector.Text := "allocX" |} = Family.Alloc /\
  Selector.getFamily {| Selector.Text := "copyThing" |} = Family.Copy /\
  Selector.getFamily {| Selector.Text := "new" |} = Family.New /\
  Selector.getFamily {| Selector.Text := "_initFoo" |} = Family.Init.
Proof.
  split; [| split; [| repeat split]].
  - intros text f. unfold Selector.getFamily. cbn [Selector.str Selector.Text]. split.
    + intros <-.
      pose proof (dropUnderscores_stripped text) as Hs.
      destruct (checkPrefixes_sound (Selector.dropUnderscores text)
                  Selector.FOREACH_FAMILY) as [[pfx [Hin Hm]] | [Hnone Hall]].
      * eapply classifies_family; eassumption.
      * rewrite Hnone. eapply classifies_none; eassumption.
    + intros [body label pfx Hs Hin Hm | body Hs Hall].
      * rewrite <- (stripped_unique _ _ Hs).
        eapply family_prefix_exclusive; eassumption.
      * rewrite <- (stripped_unique _ _ Hs).
        destruct (checkPrefixes_sound body Selector.FOREACH_FAMILY)
          as [[pfx [Hin Hm]] | [Hnone _]]; [| exact Hnone].
        exfalso. exact (Hall _ _ Hin Hm).
  - intros n text. unfold Selector.getFamily. cbn [Selector.str Selector.Text].
    rewrite dropUnderscores_underscores. reflexivity.
Qed.

(** C9: a reference to an allocator entry point, a default-argument
    generator, an enum-element constructor or a global accessor has no
    selector: building one aborts with the fatal error, whatever the
    declaration referred to, and never yields a selector text. *)
Theorem selector_of_unsupported_kind_is_fatal :
  forall (decl : ValueDecl) (foreign : bool) (k : SILDeclRef.Kind),
    In k [SILDeclRef.Allocator; SILDeclRef.DefaultArgGenerator;
          SILDeclRef.EnumElement; SILDeclRef.GlobalAccessor] <->
    Selector.ofSILDeclRef
      {| SILDeclRef.kind := k; SILDeclRef.getDecl := decl;
         SILDeclRef.isForeign := foreign |}
    = Abort (Unreachable "Method does not have a selector").
Proof.
  intros decl foreign k. unfold Selector.ofSILDeclRef. simpl. split.
  - intros [<- | [<- | [<- | [<- | []]]]]; reflexivity.
  - destruct k; try (intros _; tauto); try discriminate;
      destruct decl; discriminate.
Qed.

(** ** Symbol cache *)

Lemma setObjCMethodNames_same (IGM : IRGenModule) :
  setObjCMethodNames (ObjCMethodNames IGM) IGM = IGM.
Proof. destruct IGM; reflexivity. Qed.

Lemma setObjCSelectorRefs_same (IGM : IRGenModule) :
  setObjCSelectorRefs (ObjCSelectorRefs IGM) IGM = IGM.
Proof. destruct IGM; reflexivity. Qed.

(** A selector whose name is cached is answered from the cache, and the
    module is left as it is. *)
Lemma getAddrOfObjCMethodName_cached (selector : string) (IGM : IRGenModule)
  (entry : Constant) :
  ObjCMethodNames IGM !! selector = Some entry ->
  isNull entry = false ->
  getAddrOfObjCMethodName selector IGM = (entry, IGM).
Proof.
  intros Hlook Hnn. unfold getAddrOfObjCMethodName, subscript.
  rewrite Hlook, Hnn. simpl. rewrite setObjCMethodNames_same. reflexivity.
Qed.

(** After a request the name is cached, with the address returned. *)
Lemma getAddrOfObjCMethodName_caches (selector : string) (IGM : IRGenModule) :
  ObjCMethodNames (getAddrOfObjCMethodName selector IGM).2 !! selector
    = Some (getAddrOfObjCMethodName selector IGM).1 /\
  isNull (getAddrOfObjCMethodName selector IGM).1 = false.
Proof.
  unfold getAddrOfObjCMethodName, subscript.
  destruct (ObjCMethodNames IGM !! selector) as [entry|] eqn:Hlook.
  - destruct (isNull entry) eqn:Hnull; simpl.
    + split; [apply lookup_insert_eq | reflexivity].
    + split; [exact Hlook | exact Hnull].
  - simpl. split; [apply lookup_insert_eq | reflexivity].
Qed.

(** A request for a name leaves the selector references alone. *)
Lemma getAddrOfObjCMethodName_refs (selector : string) (IGM : IRGenModule) :
  ObjCSelectorRefs (getAddrOfObjCMethodName selector IGM).2 = ObjCSelectorRefs IGM.
Proof.
  unfold getAddrOfObjCMethodName, subscript.
  destruct (ObjCMethodNames IGM !! selector) as [entry|];
    [destruct (isNull entry) |]; reflexivity.
Qed.

Lemma getAddrOfObjCSelectorRef_cached (selector : string) (IGM : IRGenModule)
  (entry : Constant) :
  ObjCSelectorRefs IGM !! selector = Some entry ->
  isNull entry = false ->
  getAddrOfObjCSelectorRef selector IGM = (entry, IGM).
Proof.
  intros Hlook Hnn. unfold getAddrOfObjCSelectorRef, subscript.
  rewrite Hlook, Hnn. simpl. rewrite setObjCSelectorRefs_same. reflexivity.
Qed.

Lemma getAddrOfObjCSelectorRef_caches (selector : string) (IGM : IRGenModule) :
  ObjCSelectorRefs (getAddrOfObjCSelectorRef selector IGM).2 !! selector
    = Some (getAddrOfObjCSelectorRef selector IGM).1 /\
  isNull (getAddrOfObjCSelectorRef selector IGM).1 = false.
Proof.
  unfold getAddrOfObjCSelectorRef, subscript.
  destruct (ObjCSelectorRefs IGM !! selector) as [entry|] eqn:Hlook.
  - destruct (isNull entry) eqn:Hnull; simpl.
    + destruct (getAddrOfObjCMethodName selector _) as [init IGM1]. simpl.
      split; [apply lookup_insert_eq | reflexivity].
    + split; [exact Hlook | exact Hnull].
  - simpl. destruct (getAddrOfObjCMethodName selector _) as [init IGM1]. simpl.
    split; [apply lookup_insert_eq | reflexivity].
Qed.


(** Cached names and references survive every later request, for any
    selector, so the symbol of a selector never changes once handed out. *)

Lemma getAddrOfObjCMethodName_keeps_names (s selector : string) (IGM : IRGenModule)
  (entry : Constant) :
  ObjCMethodNames IGM !! s = Some entry ->
  isNull entry = false ->
  ObjCMethodNames (getAddrOfObjCMethodName selector IGM).2 !! s = Some entry.
Proof.
  intros Hlook Hnn. destruct (decide (selector = s)) as [->|Hne].
  - rewrite (getAddrOfObjCMethodName_cached _ _ _ Hlook Hnn). exact Hlook.
  - unfold getAddrOfObjCMethodName, subscript.
    destruct (ObjCMethodNames IGM !! selector) as [other|];
      [destruct (isNull other) |]; simpl;
      rewrite ?lookup_insert_ne by exact Hne; exact Hlook.
Qed.

Lemma getAddrOfObjCSelectorRef_keeps_names (s selector : string) (IGM : IRGenModule)
  (entry : Constant) :
  ObjCMethodNames IGM !! s = Some entry ->
  isNull entry = false ->
  ObjCMethodNames (getAddrOfObjCSelectorRef selector IGM).2 !! s = Some entry.
Proof.
  intros Hlook Hnn. unfold getAddrOfObjCSelectorRef, subscript.
  destruct (ObjCSelectorRefs IGM !! selector) as [other|];
    [destruct (isNull other) |]; simpl; try exact Hlook;
    match goal with
    | |- context [getAddrOfObjCMethodName selector ?M] =>
        pose proof (getAddrOfObjCMethodName_keeps_names s selector M entry Hlook Hnn) as Hk;
        destruct (getAddrOfObjCMethodName selector M) as [init IGM1]
    end; exact Hk.
Qed.

Lemma getAddrOfObjCSelectorRef_keeps_refs (s selector : string) (IGM : IRGenModule)
  (entry : Constant) :
  ObjCSelectorRefs IGM !! s = Some entry ->
  isNull entry = false ->
  ObjCSelectorRefs (getAddrOfObjCSelectorRef selector IGM).2 !! s = Some entry.
Proof.
  intros Hlook Hnn. destruct (decide (selector = s)) as [->|Hne].
  - rewrite (getAddrOfObjCSelectorRef_cached _ _ _ Hlook Hnn). exact Hlook.
  - unfold getAddrOfObjCSelectorRef, subscript.
    destruct (ObjCSelectorRefs IGM !! selector) as [other|];
      [destruct (isNull other) |]; simpl; try exact Hlook;
      match goal with
      | |- context [getAddrOfObjCMethodName selector ?M] =>
          pose proof (getAddrOfObjCMethodName_refs selector M) as Hr;
          destruct (getAddrOfObjCMethodName selector M) as [init IGM1]
      end; simpl in *; rewrite lookup_insert_ne by exact Hne; rewrite Hr;
      rewrite ?lookup_insert_ne by exact Hne; exact Hlook.
Qed.

Lemma requests_keep_names (rs : list SelectorRequest) (s : string) (IGM : IRGenModule)
  (entry : Constant) :
  ObjCMethodNames IGM !! s = Some entry ->
  isNull entry = false ->
  ObjCMethodNames (requests rs IGM) !! s = Some entry.
Proof.
  revert IGM. induction rs as [|r rs IH]; intros IGM Hlook Hnn; simpl; [exact Hlook |].
  apply IH; [| exact Hnn].
  destruct r as [selector|selector]; simpl.
  - apply getAddrOfObjCMethodName_keeps_names; assumption.
  - apply getAddrOfObjCSelectorRef_keeps_names; assumption.
Qed.

Lemma requests_keep_refs (rs : list SelectorRequest) (s : string) (IGM : IRGenModule)
  (entry : Constant) :
  ObjCSelectorRefs IGM !! s = Some entry ->
  isNull entry = false ->
  ObjCSelectorRefs (requests rs IGM) !! s = Some entry.
Proof.
  revert IGM. induction rs as [|r rs IH]; intros IGM Hlook Hnn; simpl; [exact Hlook |].
  apply IH; [| exact Hnn].
  destruct r as [selector|selector]; simpl.
  - rewrite getAddrOfObjCMethodName_refs. exact Hlook.
  - apply getAddrOfObjCSelectorRef_keeps_refs; assumption.
Qed.


Section ProtocolCache.

Variable emitObjCProtocolData : ProtocolDecl -> IRGenModule -> Constant * IRGenModule.

(** Building the record of a protocol does not itself enter that protocol
    into the cache (it may ask for the records of other protocols). *)
Hypothesis emitObjCProtocolData_not_reentrant :
  forall proto IGM,
    ObjCProtocols IGM !! proto = None ->
    ObjCProtocols (emitObjCProtocolData proto IGM).2 !! proto = None.

Lemma getObjCProtocolGlobalVars_cached (proto : ProtocolDecl) (IGM : IRGenModule)
  (found : ObjCProtocolPair) :
  ObjCProtocols IGM !! proto = Some found ->
  getObjCProtocolGlobalVars emitObjCProtocolData proto IGM = (found, IGM).
Proof. intros Hlook. unfold getObjCProtocolGlobalVars. rewrite Hlook. reflexivity. Qed.

Lemma getObjCProtocolGlobalVars_caches (proto : ProtocolDecl) (IGM : IRGenModule) :
  ObjCProtocols (getObjCProtocolGlobalVars emitObjCProtocolData proto IGM).2 !! proto
    = Some (getObjCProtocolGlobalVars emitObjCProtocolData proto IGM).1.
Proof.
  unfold getObjCProtocolGlobalVars.
  destruct (ObjCProtocols IGM !! proto) as [found|] eqn:Hlook; [exact Hlook |].
  pose proof (emitObjCProtocolData_not_reentrant proto IGM Hlook) as Hemit.
  destruct (emitObjCProtocolData proto IGM) as [protocolRecord IGM1].
  simpl in *. unfold denseInsert. rewrite Hemit. apply lookup_insert_eq.
Qed.


End ProtocolCache.

(** ** Type encoding *)

Lemma append_assoc (a b c : string) : (a +:+ b) +:+ c = a +:+ b +:+ c.
Proof. induction a as [|x a IH]; simpl; [reflexivity | rewrite IH; reflexivity]. Qed.

Lemma append_empty_r (a : string) : a +:+ EmptyString = a.
Proof. induction a as [|x a IH]; simpl; [reflexivity | rewrite IH; reflexivity]. Qed.

Lemma wrap64_small (z : Z) : (0 <= z < 2 ^ 64)%Z -> wrap64 z = z.
Proof. intros H. unfold wrap64. apply Z.mod_small. exact H. Qed.

Lemma toInt64_small (z : Z) : (0 <= z < 2 ^ 63)%Z -> toInt64 z = z.
Proof. intros H. unfold toInt64. rewrite Z.mod_small; lia. Qed.

Section TypeEncodingProperties.

Context {CTG : ClangTypeEncoder}.

Lemma sizes_nonneg (cts : list ClangType) :
  Forall (fun ct => 0 <= getObjCEncodingTypeSize ct)%Z cts -> (0 <= sizes cts)%Z.
Proof. induction 1 as [|ct cts Hct _ IH]; simpl; lia. Qed.

Lemma sumParmSizes_total (elts : list Ty) (cts : list ClangType) (offset : Z) :
  Forall2 encodes elts cts ->
  Forall (fun ct => 0 <= getObjCEncodingTypeSize ct)%Z cts ->
  (0 <= offset)%Z ->
  (offset + sizes cts < 2 ^ 64)%Z ->
  sumParmSizes elts offset = Some (offset + sizes cts)%Z.
Proof.
  intros Henc. revert offset.
  induction Henc as [|t ct elts cts Ht _ IH]; intros offset Hsz Hoff Hfit; simpl.
  - f_equal. lia.
  - inversion Hsz as [|? ? Hct Hrest]; subst.
    pose proof (sizes_nonneg cts Hrest) as Hnn.
    unfold encodes in Ht. rewrite Ht. simpl in Hfit.
    destruct (getObjCEncodingTypeSize ct =? 0)%Z eqn:Hz.
    + apply Z.eqb_eq in Hz. rewrite IH by (try assumption; lia). f_equal. lia.
    + rewrite wrap64_small by lia.
      rewrite IH by (try assumption; lia). f_equal. lia.
Qed.

Lemma encodeParms_layout (elts : list Ty) (cts : list ClangType) (TypeStr : string)
  (offset : Z) :
  Forall2 encodes elts cts ->
  Forall (fun ct => 0 <= getObjCEncodingTypeSize ct)%Z cts ->
  (0 <= offset)%Z ->
  (offset + sizes cts < 2 ^ 63)%Z ->
  encodeParms elts TypeStr offset = Some (TypeStr +:+ argumentEncoding cts offset).
Proof.
  intros Henc. revert TypeStr offset.
  induction Henc as [|t ct elts cts Ht _ IH]; intros TypeStr offset Hsz Hoff Hfit; simpl.
  - rewrite append_empty_r. reflexivity.
  - inversion Hsz as [|? ? Hct Hrest]; subst.
    pose proof (sizes_nonneg cts Hrest) as Hnn.
    unfold encodes in Ht. rewrite Ht. simpl in Hfit.
    rewrite toInt64_small by lia. rewrite wrap64_small by lia.
    rewrite IH by (try assumption; lia).
    rewrite !append_assoc. reflexivity.
Qed.

Lemma sumParmSizes_fails (elts : list Ty) (offset : Z) :
  sumParmSizes elts offset = None <-> Exists unencodable elts.
Proof.
  revert offset. induction elts as [|t elts IH]; intros offset; simpl.
  - split; [discriminate | intros H; inversion H].
  - destruct (visit (getCanonicalType t)) as [ct|] eqn:Hv.
    + assert (Hrest : forall o, sumParmSizes elts o = None <-> Exists unencodable (t :: elts)).
      { intros o. rewrite IH. split; [apply Exists_cons_tl |].
        intros H. inversion H as [? ? Hu | ? ? Hu]; subst; [| exact Hu].
        unfold unencodable in Hu. congruence. }
      destruct (getObjCEncodingTypeSize ct =? 0)%Z; apply Hrest.
    + split; [intros _; apply Exists_cons_hd; exact Hv | reflexivity].
Qed.

Lemma encodeParms_fails (elts : list Ty) (TypeStr : string) (offset : Z) :
  encodeParms elts TypeStr offset = None <-> Exists unencodable elts.
Proof.
  revert TypeStr offset. induction elts as [|t elts IH]; intros TypeStr offset; simpl.
  - split; [discriminate | intros H; inversion H].
  - destruct (visit (getCanonicalType t)) as [ct|] eqn:Hv.
    + rewrite IH. split; [apply Exists_cons_tl |].
      intros H. inversion H as [? ? Hu | ? ? Hu]; subst; [| exact Hu].
      unfold unencodable in Hu. congruence.
    + split; [intros _; apply Exists_cons_hd; exact Hv | reflexivity].
Qed.

End TypeEncodingProperties.

Section MethodEncoding.

Context {CTG : ClangTypeEncoder}.

(** The single-argument path, once the input is known not to be a tuple. *)
Lemma single_argument_layout (P : Z) (returnType ct : ClangType) :
  (0 <= P)%Z ->
  (0 <= getObjCEncodingTypeSize ct)%Z ->
  (2 * P + sizes [ct] < 2 ^ 63)%Z ->
  let sz := getObjCEncodingTypeSize ct in
  let ParmOffset :=
    if negb (sz =? 0)%Z then wrap64 (wrap64 (2 * P) + sz) else wrap64 (2 * P) in
  ((((getObjCEncodingForType returnType +:+ itostr (toInt64 ParmOffset)) +:+ "@0:")
      +:+ itostr (toInt64 P)) +:+ getObjCEncodingForType ct)
    +:+ itostr (toInt64 (wrap64 (2 * P)))
  = methodEncoding P returnType [ct].
Proof.
  intros HP Hct Hfit. simpl in Hfit. cbv zeta.
  unfold methodEncoding. simpl.
  rewrite (wrap64_small (2 * P)) by lia.
  assert (Hoff : (if negb (getObjCEncodingTypeSize ct =? 0)%Z
                  then wrap64 (2 * P + getObjCEncodingTypeSize ct) else 2 * P)%Z
                 = (2 * P + (getObjCEncodingTypeSize ct + 0))%Z).
  { destruct (getObjCEncodingTypeSize ct =? 0)%Z eqn:Hz; simpl.
    - apply Z.eqb_eq in Hz. lia.
    - rewrite wrap64_small by lia. lia. }
  rewrite Hoff. rewrite !toInt64_small by lia.
  rewrite !append_assoc, append_empty_r. reflexivity.
Qed.

Lemma GetObjCEncodingForMethodType_layout (IGM : IRGenModule) (T : AnyFunctionType)
  (returnType : ClangType) (cts : list ClangType) :
  (0 <= PointerSize IGM)%Z ->
  encodes (getResult T) returnType ->
  Forall2 encodes (argumentTypes T) cts ->
  Forall (fun ct => 0 <= getObjCEncodingTypeSize ct)%Z cts ->
  (2 * PointerSize IGM + sizes cts < 2 ^ 63)%Z ->
  GetObjCEncodingForMethodType IGM T
  = GlobalStringAddr (methodEncoding (PointerSize IGM) returnType cts).
Proof.
  intros HP Hret Hargs Hsz Hfit.
  pose proof (sizes_nonneg cts Hsz) as Hnn.
  unfold GetObjCEncodingForMethodType, argumentTypes in *.
  unfold encodes in Hret. rewrite Hret.
  destruct (getCanonicalType (getInput T)) as [n|n args|elts|u|i r b|i r] eqn:Hin;
    try (inversion Hargs as [|t ct ? ? Ht Hnil]; subst;
         inversion Hnil; subst;
         inversion Hsz as [|? ? Hct _]; subst;
         unfold encodes in Ht; rewrite Ht;
         f_equal; apply single_argument_layout; assumption).
  rewrite (wrap64_small (2 * PointerSize IGM)) by lia.
  rewrite (sumParmSizes_total elts cts) by (try assumption; lia).
  rewrite (encodeParms_layout elts cts) by (try assumption; lia).
  rewrite !toInt64_small by lia.
  unfold methodEncoding. rewrite !append_assoc. reflexivity.
Qed.

(** C3: for a method whose return type and argument types are encodable
    (with non-negative sizes and a frame below 2^63 bytes), the encoding is
    the return code, the frame size [2P] plus the argument sizes, the codes
    [@0:<P>], then each argument's code followed by its offset, the
    offsets starting at [2P].  Without arguments this is
    [<returnCode><2P>@0:<P>]; with two arguments of sizes [s1] and [s2] the
    offsets are [2P] and [2P+s1] and the frame size is [2P+s1+s2]. *)
Theorem method_encoding_layout (IGM : IRGenModule) (T : AnyFunctionType)
  (returnType : ClangType) (cts : list ClangType) :
  (0 <= PointerSize IGM)%Z ->
  encodes (getResult T) returnType ->
  Forall2 encodes (argumentTypes T) cts ->
  Forall (fun ct => 0 <= getObjCEncodingTypeSize ct)%Z cts ->
  (2 * PointerSize IGM + sizes cts < 2 ^ 63)%Z ->
  GetObjCEncodingForMethodType IGM T
  = GlobalStringAddr (methodEncoding (PointerSize IGM) returnType cts) /\
  (cts = [] ->
   GetObjCEncodingForMethodType IGM T
   = GlobalStringAddr
       (getObjCEncodingForType returnType +:+ itostr (2 * PointerSize IGM)
          +:+ "@0:" +:+ itostr (PointerSize IGM))) /\
  (forall a1 a2, cts = [a1; a2] ->
   GetObjCEncodingForMethodType IGM T
   = GlobalStringAddr
       (getObjCEncodingForType returnType
          +:+ itostr (2 * PointerSize IGM + getObjCEncodingTypeSize a1
                      + getObjCEncodingTypeSize a2)
          +:+ "@0:" +:+ itostr (PointerSize IGM)
          +:+ getObjCEncodingForType a1 +:+ itostr (2 * PointerSize IGM)
          +:+ getObjCEncodingForType a2
          +:+ itostr (2 * PointerSize IGM + getObjCEncodingTypeSize a1))).
Proof.
  intros HP Hret Hargs Hsz Hfit.
  pose proof (GetObjCEncodingForMethodType_layout IGM T returnType cts
                HP Hret Hargs Hsz Hfit) as Hlayout.
  split; [exact Hlayout |]. split.
  - intros ->. rewrite Hlayout. unfold methodEncoding. simpl.
    rewrite Z.add_0_r, append_empty_r. reflexivity.
  - intros a1 a2 ->. rewrite Hlayout. unfold methodEncoding. simpl.
    rewrite append_empty_r.
    replace (2 * PointerSize IGM
             + (getObjCEncodingTypeSize a1 + (getObjCEncodingTypeSize a2 + 0)))%Z
      with (2 * PointerSize IGM + getObjCEncodingTypeSize a1
            + getObjCEncodingTypeSize a2)%Z by lia.
    reflexivity.
Qed.

(** C4: the method encoding is all or nothing.  The result is the null
    encoding exactly when the return type or one of the argument types is
    unencodable; otherwise it is the address of a string.  No string is
    returned for a method with an unencodable type. *)
Theorem method_encoding_all_or_nothing (IGM : IRGenModule) (T : AnyFunctionType) :
  (GetObjCEncodingForMethodType IGM T = ConstantPointerNull <->
   unencodable (getResult T) \/ Exists unencodable (argumentTypes T)) /\
  (GetObjCEncodingForMethodType IGM T = ConstantPointerNull \/
   exists TypeStr, GetObjCEncodingForMethodType IGM T = GlobalStringAddr TypeStr).
Proof.
  unfold GetObjCEncodingForMethodType, argumentTypes, unencodable.
  destruct (visit (getCanonicalType (getResult T))) as [rt|] eqn:Hret;
    [| split; [split; [intros _; left; reflexivity | reflexivity] | left; reflexivity]].
  assert (Hsingle : forall ArgType : Ty,
    let r := match visit (getCanonicalType ArgType) with
             | Some clangType =>
                 let sz := getObjCEncodingTypeSize clangType in
                 let ParmOffset :=
                   if negb (sz =? 0)%Z
                   then wrap64 (wrap64 (2 * PointerSize IGM) + sz)
                   else wrap64 (2 * PointerSize IGM) in
                 GlobalStringAddr
                   (((((getObjCEncodingForType rt +:+ itostr (toInt64 ParmOffset))
                         +:+ "@0:") +:+ itostr (toInt64 (PointerSize IGM)))
                       +:+ getObjCEncodingForType clangType)
                      +:+ itostr (toInt64 (wrap64 (2 * PointerSize IGM))))
             | None => ConstantPointerNull
             end in
    (r = ConstantPointerNull <->
     Some rt = None \/ Exists (fun t => visit (getCanonicalType t) = None) [ArgType]) /\
    (r = ConstantPointerNull \/ exists TypeStr, r = GlobalStringAddr TypeStr)).
  { intros ArgType. cbv zeta.
    destruct (visit (getCanonicalType ArgType)) as [ct|] eqn:Hv.
    - split; [| right; eexists; reflexivity].
      split; [discriminate |].
      intros [Hf | Hex]; [discriminate |].
      inversion Hex as [? ? Hu | ? ? Hu]; subst; [congruence | inversion Hu].
    - split; [| left; reflexivity].
      split; [intros _; right; apply Exists_cons_hd; exact Hv | reflexivity]. }
  destruct (getCanonicalType (getInput T)) as [n|n args|elts|u|i r b|i r] eqn:Hin;
    try apply Hsingle.
  destruct (sumParmSizes elts (wrap64 (2 * PointerSize IGM))) as [total|] eqn:Hsum.
  - match goal with
    | |- context [encodeParms elts ?acc ?off] =>
        destruct (encodeParms elts acc off) as [TypeStr|] eqn:Henc
    end.
    + split; [| right; eexists; reflexivity].
      split; [discriminate |].
      intros [Hf | Hex]; [discriminate |].
      apply (sumParmSizes_fails elts (wrap64 (2 * PointerSize IGM))) in Hex. congruence.
    + split; [| left; reflexivity].
      split; [| reflexivity].
      intros _. right. eapply encodeParms_fails. exact Henc.
  - split; [| left; reflexivity].
    split; [| reflexivity].
    intros _. right. eapply sumParmSizes_fails. exact Hsum.
Qed.

End MethodEncoding.

(** ** Message sends *)

(** C5: a message send to a func, initializer or destructor whose lowered
    signature has the receiver and selector parameters is prepared with
    the entry point of the six-way table: struct return in effect (an
    indirect result on a target that uses the struct-return convention)
    against the kind of the send; the six entries are distinct. *)
Theorem messenger_selection (IGM : IRGenModule) (method : SILDeclRef)
  (origFnType substFnType : SILFunctionType) (kind : ObjCMessageKind) :
  isObjCMethodKind (SILDeclRef.kind method) = true ->
  (2 <= length (params (getFunctionType origFnType)))%nat ->
  (exists callee,
     prepareObjCMethodRootCall IGM method origFnType substFnType kind = Ok callee /\
     messenger callee
     = dispatchEntryPoint
         (requiresExternalIndirectResult origFnType && ObjCUseStret IGM) kind) /\
  (forall sr sr' k k',
     dispatchEntryPoint sr k = dispatchEntryPoint sr' k' -> sr = sr' /\ k = k').
Proof.
  intros Hkind Hlen. split.
  - unfold prepareObjCMethodRootCall, getMsgSendSuperTy, assertR, bindR.
    rewrite Hkind.
    assert (H0 : (0 <? length (params (getFunctionType origFnType)))%nat = true)
      by (apply Nat.ltb_lt; lia).
    assert (H1 : (1 <? length (params (getFunctionType origFnType)))%nat = true)
      by (apply Nat.ltb_lt; lia).
    destruct kind, (requiresExternalIndirectResult origFnType), (ObjCUseStret IGM);
      rewrite ?H0, ?H1; eexists; split; reflexivity.
  - intros [] [] [] []; simpl; intros H; try discriminate H; split; reflexivity.
Qed.

(** ** Method descriptors *)

Ltac run_irgen :=
  unfold mbind, IRGen_bind, mret, IRGen_ret, liftState, liftResult, getPointerSize,
    assertion, abort, findSwiftAsObjCThunk;
  simpl.

Section DescriptorProperties.

Context {CTG : ClangTypeEncoder}.

(** The method path assigns the implementation whatever the encoding. *)
Lemma emitObjCMethodDescriptorParts_assigns_impl (method : AbstractFunctionDecl)
  (out parts : DescriptorParts) (IGM IGM' : IRGenModule) :
  emitObjCMethodDescriptorParts method out IGM = Ok (parts, IGM') ->
  exists pointer, impl parts = Assigned pointer.
Proof.
  unfold emitObjCMethodDescriptorParts, castTo_AnyFunctionType,
    getObjCMethodPointer_Func, getObjCMethodPointer_Constructor,
    getObjCMethodPointer_Destructor.
  run_irgen.
  destruct method as [f|c|d]; simpl;
    destruct (getAddrOfObjCMethodName _ IGM) as [name IGM1];
    repeat match goal with
           | |- context [match getAs_AnyFunctionType ?t with _ => _ end] =>
               destruct (getAs_AnyFunctionType t); simpl; try discriminate
           | |- context [if isProtocolDecl ?c then _ else _] =>
               destruct (isProtocolDecl c); simpl
           end;
    intros [= <- _]; eexists; reflexivity.
Qed.

(** The getter of a property whose type has no encoding: the selector
    and the null encoding are assigned, the implementation is not. *)
Lemma emitObjCGetterDescriptorParts_Var_unencodable (property : VarDecl)
  (out : DescriptorParts) (IGM : IRGenModule) :
  unencodable (var_getType property) ->
  exists name IGM',
    emitObjCGetterDescriptorParts_Var property out IGM
    = Ok ({| selectorRef := Assigned name;
             atEncoding := Assigned ConstantPointerNull;
             impl := impl out |}, IGM') /\
    (name, IGM') = getAddrOfObjCMethodName (var_getObjCGetterSelector property) IGM.
Proof.
  intros Hun. unfold emitObjCGetterDescriptorParts_Var. run_irgen.
  destruct (getAddrOfObjCMethodName _ IGM) as [name IGM1].
  unfold unencodable in Hun. rewrite Hun. run_irgen.
  exists name, IGM1. split; reflexivity.
Qed.

Lemma emitObjCSetterDescriptorParts_Var_unencodable (property : VarDecl)
  (out : DescriptorParts) (IGM : IRGenModule) :
  var_isSettable property = true ->
  unencodable (var_getType property) ->
  exists name IGM',
    emitObjCSetterDescriptorParts_Var property out IGM
    = Ok ({| selectorRef := Assigned name;
             atEncoding := Assigned ConstantPointerNull;
             impl := impl out |}, IGM') /\
    (name, IGM') = getAddrOfObjCMethodName (var_getObjCSetterSelector property) IGM.
Proof.
  intros Hset Hun. unfold emitObjCSetterDescriptorParts_Var. run_irgen.
  rewrite Hset. simpl.
  destruct (getAddrOfObjCMethodName _ IGM) as [name IGM1].
  unfold unencodable in Hun. rewrite Hun. run_irgen.
  exists name, IGM1. split; reflexivity.
Qed.

(** C6, as the code behaves: for a property whose type has no encoding,
    the getter descriptor, and the setter descriptor of a settable
    property, carry the selector and the null encoding, but their
    implementation field is the caller's variable as declared, never
    assigned. *)
Theorem property_descriptor_impl_unassigned (property : VarDecl) (IGM : IRGenModule) :
  unencodable (var_getType property) ->
  exists getter setter IGM',
    emitObjCPropertyMethodDescriptors property IGM = Ok ((getter, setter), IGM') /\
    (exists name, selectorRef (fields getter) = Assigned name) /\
    atEncoding (fields getter) = Assigned ConstantPointerNull /\
    impl (fields getter) = Uninitialized /\
    (if var_isSettable property then
       exists s name,
         setter = Some s /\
         selectorRef (fields s) = Assigned name /\
         atEncoding (fields s) = Assigned ConstantPointerNull /\
         impl (fields s) = Uninitialized
     else setter = None).
Proof.
  intros Hun. unfold emitObjCPropertyMethodDescriptors.
  destruct (emitObjCGetterDescriptorParts_Var_unencodable property declaredParts IGM Hun)
    as [name [IGM1 [Hget _]]].
  unfold mbind at 1, IRGen_bind at 1. rewrite Hget.
  destruct (var_isSettable property) eqn:Hset.
  - destruct (emitObjCSetterDescriptorParts_Var_unencodable property
                {| selectorRef := Assigned name;
                   atEncoding := Assigned ConstantPointerNull;
                   impl := impl declaredParts |} IGM1 Hset Hun)
      as [name' [IGM2 [Hsetter _]]].
    unfold mbind, IRGen_bind. rewrite Hsetter. simpl.
    do 3 eexists. split; [reflexivity |]. simpl.
    repeat split; eauto.
    do 2 eexists. repeat split; reflexivity.
  - simpl. do 3 eexists. split; [reflexivity |]. simpl. repeat split; eauto.
Qed.

(** C10: the getter and the setter descriptor parts of a subscript carry
    the null type encoding, whatever the element type and whatever the
    encoder says of it, and only the selector and the implementation
    pointer are populated: the selector field is the method name symbol
    of the accessor's selector, which is not null, and the implementation
    field is the accessor's foreign entry point, null only for a member
    of a protocol.  The setter is that of a settable subscript with a
    setter.  So the descriptors emitted for a subscript are exactly
    these, the setter descriptor being present exactly for a settable
    subscript. *)
Theorem subscript_descriptors_null_encoding (subscript : SubscriptDecl)
  (out : DescriptorParts) (IGM : IRGenModule) :
  let ctx := sub_getDeclContext subscript in
  (let named := getAddrOfObjCMethodName (sub_getObjCGetterSelector subscript) IGM in
   emitObjCGetterDescriptorParts_Subscript subscript out IGM
   = Ok ({| selectorRef := Assigned named.1;
            atEncoding := Assigned ConstantPointerNull;
            impl := Assigned (accessorThunk ctx (sub_getGetter subscript)) |},
         named.2) /\
   isNull named.1 = false) /\
  (forall setter,
     sub_isSettable subscript = true ->
     sub_getSetter subscript = Some setter ->
     let named := getAddrOfObjCMethodName (sub_getObjCSetterSelector subscript) IGM in
     emitObjCSetterDescriptorParts_Subscript subscript out IGM
     = Ok ({| selectorRef := Assigned named.1;
              atEncoding := Assigned ConstantPointerNull;
              impl := Assigned (accessorThunk ctx setter) |},
           named.2) /\
     isNull named.1 = false) /\
  (forall accessor,
     accessorThunk ctx accessor = ConstantPointerNull <-> isProtocolDecl ctx = true) /\
  ((sub_isSettable subscript = true -> is_Some (sub_getSetter subscript)) ->
   let getterName :=
     getAddrOfObjCMethodName (sub_getObjCGetterSelector subscript) IGM in
   let setterName :=
     getAddrOfObjCMethodName (sub_getObjCSetterSelector subscript) getterName.2 in
   exists getter setter IGM',
     emitObjCSubscriptMethodDescriptors subscript IGM = Ok ((getter, setter), IGM') /\
     fields getter
     = {| selectorRef := Assigned getterName.1;
          atEncoding := Assigned ConstantPointerNull;
          impl := Assigned (accessorThunk ctx (sub_getGetter subscript)) |} /\
     atEncoding (fields getter) = Assigned ConstantPointerNull /\
     (forall s, setter = Some s ->
                atEncoding (fields s) = Assigned ConstantPointerNull /\
                selectorRef (fields s) = Assigned setterName.1 /\
                (forall setterDecl, sub_getSetter subscript = Some setterDecl ->
                                    impl (fields s)
                                    = Assigned (accessorThunk ctx setterDecl)) /\
                IGM' = setterName.2) /\
     (setter = None -> IGM' = getterName.2) /\
     (is_Some setter <-> sub_isSettable subscript = true)).
Proof.
  cbv zeta.
  assert (Hgetter : forall out IGM,
     emitObjCGetterDescriptorParts_Subscript subscript out IGM
     = Ok ({| selectorRef :=
                Assigned (getAddrOfObjCMethodName
                            (sub_getObjCGetterSelector subscript) IGM).1;
              atEncoding := Assigned ConstantPointerNull;
              impl := Assigned (accessorThunk (sub_getDeclContext subscript)
                                  (sub_getGetter subscript)) |},
           (getAddrOfObjCMethodName (sub_getObjCGetterSelector subscript) IGM).2)).
  { intros out0 IGM0.
    unfold emitObjCGetterDescriptorParts_Subscript, getObjCGetterPointer,
      accessorThunk, foreignRef.
    run_irgen.
    destruct (getAddrOfObjCMethodName _ IGM0) as [name IGM1].
    destruct (isProtocolDecl (sub_getDeclContext subscript)); reflexivity. }
  assert (Hsetter : forall setter out IGM,
     sub_isSettable subscript = true ->
     sub_getSetter subscript = Some setter ->
     emitObjCSetterDescriptorParts_Subscript subscript out IGM
     = Ok ({| selectorRef :=
                Assigned (getAddrOfObjCMethodName
                            (sub_getObjCSetterSelector subscript) IGM).1;
              atEncoding := Assigned ConstantPointerNull;
              impl := Assigned (accessorThunk (sub_getDeclContext subscript) setter) |},
           (getAddrOfObjCMethodName (sub_getObjCSetterSelector subscript) IGM).2)).
  { intros setter out0 IGM0 Hset Hsome.
    unfold emitObjCSetterDescriptorParts_Subscript, getObjCSetterPointer,
      accessorThunk, foreignRef.
    run_irgen. rewrite Hset, Hsome. simpl.
    destruct (getAddrOfObjCMethodName _ IGM0) as [name IGM1].
    destruct (isProtocolDecl (sub_getDeclContext subscript)); reflexivity. }
  split; [split; [apply Hgetter | apply getAddrOfObjCMethodName_caches] |].
  split; [intros setter Hset Hsome;
          split; [apply Hsetter; assumption | apply getAddrOfObjCMethodName_caches] |].
  split.
  { intros accessor. unfold accessorThunk.
    destruct (isProtocolDecl (sub_getDeclContext subscript));
      split; congruence. }
  intros Hwf. unfold emitObjCSubscriptMethodDescriptors.
  unfold mbind at 1, IRGen_bind at 1. rewrite (Hgetter declaredParts IGM).
  destruct (sub_isSettable subscript) eqn:Hset.
  - destruct (Hwf eq_refl) as [setter Hsome].
    unfold mbind, IRGen_bind. rewrite (Hsetter setter _ _ eq_refl Hsome). simpl.
    do 3 eexists. split; [reflexivity |]. simpl.
    split; [reflexivity |]. split; [reflexivity |]. split.
    + intros s [= <-]. simpl. repeat split.
      intros setterDecl Hd. congruence.
    + split; [discriminate |].
      split; [reflexivity | intros _; eexists; reflexivity].
  - simpl. do 3 eexists. split; [reflexivity |]. simpl.
    split; [reflexivity |]. split; [reflexivity |]. split.
    + intros s [=].
    + split; [reflexivity |]. split; [intros [? [=]] | discriminate].
Qed.

End DescriptorProperties.

(** ** Eligibility *)

Lemma requiresObjCMethodDescriptor_step (method : FuncDecl) :
  requiresObjCMethodDescriptor method
  = if excludedFunc method then false
    else if func_isObjC method || func_isIBAction method then true
    else match func_getOverriddenDecl method with
         | Some override => requiresObjCMethodDescriptor override
         | None => false
         end.
Proof.
  destruct method as [sel ctx ty acc objc ib inst ov]. unfold excludedFunc. simpl.
  destruct acc; simpl; [reflexivity |].
  destruct (is_PolymorphicFunctionType ty || resultIsPolymorphic ty
            || inBoundGenericContext ctx); reflexivity.
Qed.

Lemma requiresObjCPropertyDescriptor_step (property : VarDecl) :
  requiresObjCPropertyDescriptor property
  = if inBoundGenericContext (var_getDeclContext property) then false
    else match var_getOverriddenDecl property with
         | Some override => requiresObjCPropertyDescriptor override
         | None =>
             var_isObjC property
             && match getAs_AnyFunctionType (var_getType property) with
                | Some ft => isBlock ft
                | None => true
                end
         end.
Proof.
  destruct property as [g s ctx ty objc settable gd sd ov]. simpl.
  destruct (inBoundGenericContext ctx); [reflexivity |].
  destruct ov; [reflexivity |]. destruct objc; reflexivity.
Qed.

Lemma requiresObjCSubscriptDescriptor_step (subscript : SubscriptDecl) :
  requiresObjCSubscriptDescriptor subscript
  = if inBoundGenericContext (sub_getDeclContext subscript) then false
    else match sub_getOverriddenDecl subscript with
         | Some override => requiresObjCSubscriptDescriptor override
         | None =>
             sub_isObjC subscript
             && match getAs_AnyFunctionType (sub_getElementType subscript) with
                | Some ft => isBlock ft
                | None => true
                end
         end.
Proof.
  destruct subscript as [g s ctx ty objc settable gd sd ov]. simpl.
  destruct (inBoundGenericContext ctx); [reflexivity |].
  destruct ov; [reflexivity |]. destruct objc; reflexivity.
Qed.

Lemma method_eligible_through_chain (n : nat) :
  forall method ancestor,
    overriddenFunc n method = Some ancestor ->
    requiresObjCMethodDescriptor ancestor = true ->
    (forall k d, (k < n)%nat -> overriddenFunc k method = Some d -> excludedFunc d = false) ->
    requiresObjCMethodDescriptor method = true.
Proof.
  induction n as [|n IH]; intros method ancestor Hanc Helig Hguard; simpl in Hanc.
  - congruence.
  - rewrite requiresObjCMethodDescriptor_step.
    rewrite (Hguard 0%nat method) by (simpl; first [lia | reflexivity]).
    destruct (func_isObjC method || func_isIBAction method); [reflexivity |].
    destruct (func_getOverriddenDecl method) as [override|] eqn:Hov; [| discriminate].
    apply (IH override ancestor Hanc Helig).
    intros k d Hk Hd. apply (Hguard (S k) d); [lia |]. simpl. rewrite Hov. exact Hd.
Qed.

Lemma property_eligible_through_chain (n : nat) :
  forall property ancestor,
    overriddenVar n property = Some ancestor ->
    requiresObjCPropertyDescriptor ancestor = true ->
    (forall k d, (k < n)%nat -> overriddenVar k property = Some d ->
                 inBoundGenericContext (var_getDeclContext d) = false) ->
    requiresObjCPropertyDescriptor property = true.
Proof.
  induction n as [|n IH]; intros property ancestor Hanc Helig Hguard; simpl in Hanc.
  - congruence.
  - rewrite requiresObjCPropertyDescriptor_step.
    rewrite (Hguard 0%nat property) by (simpl; first [lia | reflexivity]).
    destruct (var_getOverriddenDecl property) as [override|] eqn:Hov; [| discriminate].
    apply (IH override ancestor Hanc Helig).
    intros k d Hk Hd. apply (Hguard (S k) d); [lia |]. simpl. rewrite Hov. exact Hd.
Qed.

Lemma subscript_eligible_through_chain (n : nat) :
  forall subscript ancestor,
    overriddenSubscript n subscript = Some ancestor ->
    requiresObjCSubscriptDescriptor ancestor = true ->
    (forall k d, (k < n)%nat -> overriddenSubscript k subscript = Some d ->
                 inBoundGenericContext (sub_getDeclContext d) = false) ->
    requiresObjCSubscriptDescriptor subscript = true.
Proof.
  induction n as [|n IH]; intros subscript ancestor Hanc Helig Hguard; simpl in Hanc.
  - congruence.
  - rewrite requiresObjCSubscriptDescriptor_step.
    rewrite (Hguard 0%nat subscript) by (simpl; first [lia | reflexivity]).
    destruct (sub_getOverriddenDecl subscript) as [override|] eqn:Hov; [| discriminate].
    apply (IH override ancestor Hanc Helig).
    intros k d Hk Hd. apply (Hguard (S k) d); [lia |]. simpl. rewrite Hov. exact Hd.
Qed.

(** C8 as stated fails: an unmarked method of a bound generic class that
    overrides an eligible method is not eligible, and an unmarked
    constructor that overrides an eligible constructor is not eligible. *)
Lemma override_of_eligible_not_eligible :
  func_getOverriddenDecl sampleOverridingMethod = Some sampleMethod /\
  requiresObjCMethodDescriptor sampleMethod = true /\
  requiresObjCMethodDescriptor sampleOverridingMethod = false /\
  ctor_getOverriddenDecl sampleOverridingConstructor = Some sampleConstructor /\
  requiresObjCMethodDescriptor_Constructor sampleConstructor = true /\
  requiresObjCMethodDescriptor_Constructor sampleOverridingConstructor = false.
Proof. repeat split; reflexivity. Qed.

(** C8, amended: for methods, properties and subscripts, a declaration
    that reaches an eligible declaration through its override chain is
    eligible, marked or not, provided no declaration on the way is
    excluded by the test the predicate makes on the declaration itself
    (accessor, generic, member of a bound generic type).  The constructor
    predicate does not look at overridden declarations: a constructor is
    eligible exactly when it is not excluded and is marked itself. *)
Theorem eligibility_propagates_through_overrides :
  (forall n method ancestor,
     overriddenFunc n method = Some ancestor ->
     requiresObjCMethodDescriptor ancestor = true ->
     (forall k d, (k < n)%nat -> overriddenFunc k method = Some d ->
                  excludedFunc d = false) ->
     requiresObjCMethodDescriptor method = true) /\
  (forall n property ancestor,
     overriddenVar n property = Some ancestor ->
     requiresObjCPropertyDescriptor ancestor = true ->
     (forall k d, (k < n)%nat -> overriddenVar k property = Some d ->
                  inBoundGenericContext (var_getDeclContext d) = false) ->
     requiresObjCPropertyDescriptor property = true) /\
  (forall n subscript ancestor,
     overriddenSubscript n subscript = Some ancestor ->
     requiresObjCSubscriptDescriptor ancestor = true ->
     (forall k d, (k < n)%nat -> overriddenSubscript k subscript = Some d ->
                  inBoundGenericContext (sub_getDeclContext d) = false) ->
     requiresObjCSubscriptDescriptor subscript = true) /\
  (forall constructor,
     requiresObjCMethodDescriptor_Constructor constructor
     = negb (excludedConstructor constructor) && ctor_isObjC constructor).
Proof.
  split; [exact method_eligible_through_chain |].
  split; [exact property_eligible_through_chain |].
  split; [exact subscript_eligible_through_chain |].
  intros constructor.
  unfold requiresObjCMethodDescriptor_Constructor, excludedConstructor.
  destruct (is_PolymorphicFunctionType (ctor_getType constructor)
            || resultIsPolymorphic (ctor_getType constructor)
            || inBoundGenericContext (ctor_getDeclContext constructor)); reflexivity.
Qed.

(** ** Partial application *)

Lemma collectParameters_back (n : nat) :
  back (map Param (seq 0 (S n))) = Ok (Param n) /\
  removelast (map Param (seq 0 (S n))) = map Param (seq 0 n).
Proof.
  rewrite seq_S, map_app. simpl. unfold back.
  rewrite last_snoc, removelast_last. split; reflexivity.
Qed.





(** ** The properties at sample inputs *)


Lemma method_encoding_layout_witness :
  (0 <= PointerSize sampleModule)%Z /\
  encodes (CTG := sampleEncoder) (getResult sampleTwoArgumentType) ("v", 0%Z) /\
  Forall2 (encodes (CTG := sampleEncoder)) (argumentTypes sampleTwoArgumentType)
    [("q", 8%Z); ("f", 4%Z)] /\
  GetObjCEncodingForMethodType (CTG := sampleEncoder) sampleModule sampleTwoArgumentType
  = GlobalStringAddr "v28@0:8q16f24".
Proof.
  assert (H0 : (0 <= PointerSize sampleModule)%Z) by (simpl; lia).
  assert (H1 : encodes (CTG := sampleEncoder) (getResult sampleTwoArgumentType)
                 ("v", 0%Z)) by reflexivity.
  assert (H2 : Forall2 (encodes (CTG := sampleEncoder))
                 (argumentTypes sampleTwoArgumentType) [("q", 8%Z); ("f", 4%Z)])
    by (repeat constructor).
  assert (H3 : Forall
                 (fun ct =>
                    0 <= getObjCEncodingTypeSize (ClangTypeEncoder := sampleEncoder) ct)%Z
                 [("q", 8%Z); ("f", 4%Z)])
    by (repeat constructor; simpl; lia).
  assert (H4 : (2 * PointerSize sampleModule
                + sizes (CTG := sampleEncoder) [("q", 8%Z); ("f", 4%Z)] < 2 ^ 63)%Z)
    by (vm_compute; reflexivity).
  split; [exact H0 |]. split; [exact H1 |]. split; [exact H2 |].
  exact (proj1 (method_encoding_layout (CTG := sampleEncoder) sampleModule
                  sampleTwoArgumentType ("v", 0%Z) [("q", 8%Z); ("f", 4%Z)]
                  H0 H1 H2 H3 H4)).
Defined.

Lemma messenger_selection_witness :
  isObjCMethodKind (SILDeclRef.kind sampleMethodRef) = true /\
  exists callee,
    prepareObjCMethodRootCall sampleModule sampleMethodRef
      (sampleMethodType Direct_Owned true) (sampleMethodType Direct_Owned true) Super
    = Ok callee /\
    messenger callee = ObjCMsgSendSuperStret2Fn.
Proof.
  split; [reflexivity |].
  exact (proj1 (messenger_selection sampleModule sampleMethodRef
                  (sampleMethodType Direct_Owned true) (sampleMethodType Direct_Owned true)
                  Super eq_refl (le_S _ _ (le_n 2)))).
Defined.

Lemma property_descriptor_impl_unassigned_witness :
  unencodable (CTG := sampleEncoder) (var_getType sampleOpaqueProperty) /\
  exists getter setter IGM',
    emitObjCPropertyMethodDescriptors (CTG := sampleEncoder) sampleOpaqueProperty
      sampleModule = Ok ((getter, setter), IGM') /\
    (exists name, selectorRef (fields getter) = Assigned name) /\
    atEncoding (fields getter) = Assigned ConstantPointerNull /\
    impl (fields getter) = Uninitialized /\
    (exists s name,
       setter = Some s /\
       selectorRef (fields s) = Assigned name /\
       atEncoding (fields s) = Assigned ConstantPointerNull /\
       impl (fields s) = Uninitialized).
Proof.
  split; [reflexivity |].
  exact (property_descriptor_impl_unassigned (CTG := sampleEncoder)
           sampleOpaqueProperty sampleModule eq_refl).
Defined.


Lemma eligibility_propagates_through_overrides_witness :
  overriddenFunc 1 samplePlainOverride = Some sampleMethod /\
  func_isObjC samplePlainOverride || func_isIBAction samplePlainOverride = false /\
  requiresObjCMethodDescriptor sampleMethod = true /\
  requiresObjCMethodDescriptor samplePlainOverride = true.
Proof.
  split; [reflexivity |]. split; [reflexivity |]. split; [reflexivity |].
  apply (proj1 eligibility_propagates_through_overrides 1%nat samplePlainOverride
           sampleMethod eq_refl eq_refl).
  intros k d Hk Hd. destruct k as [|k]; [| lia].
  injection Hd as <-. reflexivity.
Defined.

Lemma subscript_descriptors_null_encoding_witness :
  sub_isSettable sampleSubscript = true /\
  is_Some (visit (ClangTypeEncoder := sampleEncoder)
             (getCanonicalType (sub_getElementType sampleSubscript))) /\
  exists getter setter IGM',
    emitObjCSubscriptMethodDescriptors sampleSubscript sampleModule
    = Ok ((getter, setter), IGM') /\
    fields getter
    = {| selectorRef := Assigned (InBoundsGEP00 (GlobalVariableAddr 0));
         atEncoding := Assigned ConstantPointerNull;
         impl := Assigned (accessorThunk sampleContext sampleMethod) |} /\
    (forall s, setter = Some s ->
               atEncoding (fields s) = Assigned ConstantPointerNull /\
               selectorRef (fields s) = Assigned (InBoundsGEP00 (GlobalVariableAddr 1)) /\
               impl (fields s) = Assigned (accessorThunk sampleContext sampleMethod)) /\
    (is_Some setter <-> sub_isSettable sampleSubscript = true).
Proof.
  split; [reflexivity |]. split; [eexists; reflexivity |].
  destruct (proj2 (proj2 (proj2 (subscript_descriptors_null_encoding sampleSubscript
                                   declaredParts sampleModule)))
              (fun _ => ex_intro _ sampleMethod eq_refl))
    as [getter [setter [IGM' [Hemit [Hfields [_ [Hsetter [_ Hsome]]]]]]]].
  exists getter, setter, IGM'. split; [exact Hemit |].
  split; [exact Hfields |]. split; [| exact Hsome].
  intros s Hs. destruct (Hsetter s Hs) as [Henc [Hsel [Himpl _]]].
  split; [exact Henc |]. split; [exact Hsel |].
  exact (Himpl sampleMethod eq_refl).
Defined.

(** * Further properties *)

(** ** The selector cache and the globals of the module *)

Lemma cachedIn_insert (m : gmap string Constant) (s k : string) (a : Constant) :
  cachedIn (<[s := a]> m) k
  = if decide (k = s) then (if isNull a then None else Some a) else cachedIn m k.
Proof.
  unfold cachedIn. destruct (decide (k = s)) as [->|Hne].
  - rewrite lookup_insert_eq. reflexivity.
  - rewrite lookup_insert_ne by congruence. reflexivity.
Qed.

Lemma cachedIn_subscript (m : gmap string Constant) (s k : string) :
  cachedIn (subscript m s).2 k = cachedIn m k.
Proof.
  unfold subscript. destruct (m !! s) as [e|] eqn:Hs; simpl; [reflexivity |].
  rewrite cachedIn_insert. destruct (decide (k = s)) as [->|]; [| reflexivity].
  unfold cachedIn. rewrite Hs. reflexivity.
Qed.

Lemma cachedIn_Some (m : gmap string Constant) (s : string) (a : Constant) :
  cachedIn m s = Some a <-> m !! s = Some a /\ isNull a = false.
Proof.
  unfold cachedIn. destruct (m !! s) as [e|]; [| split; [discriminate | intros [[=] _]]].
  destruct (isNull e) eqn:He; split.
  - discriminate.
  - intros [[= ->] Hn]. congruence.
  - intros [= ->]. split; [reflexivity | exact He].
  - intros [[= ->] _]. reflexivity.
Qed.

Lemma subscript_entry (m : gmap string Constant) (s : string) :
  cachedIn m s = None -> isNull (subscript m s).1 = true.
Proof.
  unfold cachedIn, subscript. destruct (m !! s) as [e|]; simpl; [| reflexivity].
  destruct (isNull e); [reflexivity | discriminate].
Qed.

(** A request for a cached name changes nothing. *)
Lemma getAddrOfObjCMethodName_hit (s : string) (IGM : IRGenModule) (a : Constant) :
  cachedName IGM s = Some a -> getAddrOfObjCMethodName s IGM = (a, IGM).
Proof.
  intros H. apply cachedIn_Some in H as [Hlook Hnn].
  apply getAddrOfObjCMethodName_cached; assumption.
Qed.

(** A request for a name that is not cached appends one global of the
    name section and caches its start. *)
Lemma getAddrOfObjCMethodName_miss (s : string) (IGM : IRGenModule) :
  cachedName IGM s = None ->
  exists g,
    (getAddrOfObjCMethodName s IGM).1
    = InBoundsGEP00 (GlobalVariableAddr (length (Module IGM))) /\
    Module (getAddrOfObjCMethodName s IGM).2 = (Module IGM ++ [g])%list /\
    gv_initializer g = ConstantDataArrayString s /\
    gv_section g = methnameSection /\
    (forall k, cachedName (getAddrOfObjCMethodName s IGM).2 k
               = if decide (k = s)
                 then Some (InBoundsGEP00 (GlobalVariableAddr (length (Module IGM))))
                 else cachedName IGM k) /\
    ObjCSelectorRefs (getAddrOfObjCMethodName s IGM).2 = ObjCSelectorRefs IGM /\
    LLVMUsed (getAddrOfObjCMethodName s IGM).2 = LLVMUsed IGM /\
    ObjCProtocols (getAddrOfObjCMethodName s IGM).2 = ObjCProtocols IGM /\
    PointerAlignment (getAddrOfObjCMethodName s IGM).2 = PointerAlignment IGM.
Proof.
  intros Hmiss. unfold cachedName in *.
  pose proof (subscript_entry _ _ Hmiss) as Hnull.
  pose proof (cachedIn_subscript (ObjCMethodNames IGM) s) as Hsub.
  unfold getAddrOfObjCMethodName.
  destruct (subscript (ObjCMethodNames IGM) s) as [entry names] eqn:Hs.
  simpl in Hnull, Hsub. rewrite Hnull. simpl.
  eexists. split; [reflexivity |]. split; [reflexivity |].
  split; [reflexivity |]. split; [reflexivity |].
  split; [| repeat split; reflexivity].
  intros k. rewrite cachedIn_insert. simpl.
  destruct (decide (k = s)); [reflexivity | apply Hsub].
Qed.

Lemma getAddrOfObjCMethodName_setObjCSelectorRefs (s : string)
  (m : gmap string Constant) (IGM : IRGenModule) :
  getAddrOfObjCMethodName s (setObjCSelectorRefs m IGM)
  = ((getAddrOfObjCMethodName s IGM).1,
     setObjCSelectorRefs m (getAddrOfObjCMethodName s IGM).2).
Proof.
  unfold getAddrOfObjCMethodName. simpl.
  destruct (subscript (ObjCMethodNames IGM) s) as [entry names].
  destruct (isNull entry); reflexivity.
Qed.

Lemma getAddrOfObjCSelectorRef_hit (s : string) (IGM : IRGenModule) (r : Constant) :
  cachedRef IGM s = Some r -> getAddrOfObjCSelectorRef s IGM = (r, IGM).
Proof.
  intros H. apply cachedIn_Some in H as [Hlook Hnn].
  apply getAddrOfObjCSelectorRef_cached; assumption.
Qed.

(** A request for a reference that is not cached first requests the
    name, then appends one global of the reference section that is
    initialised with the name, marks it used and caches it. *)
Lemma getAddrOfObjCSelectorRef_miss (s : string) (IGM : IRGenModule) :
  cachedRef IGM s = None ->
  let named := getAddrOfObjCMethodName s IGM in
  exists g,
    (getAddrOfObjCSelectorRef s IGM).1 = GlobalVariableAddr (length (Module named.2)) /\
    Module (getAddrOfObjCSelectorRef s IGM).2 = (Module named.2 ++ [g])%list /\
    gv_initializer g = named.1 /\
    gv_section g = selrefsSection /\
    gv_name g = selectorRefName s /\
    gv_isConstant g = false /\
    ObjCMethodNames (getAddrOfObjCSelectorRef s IGM).2 = ObjCMethodNames named.2 /\
    (forall k, cachedRef (getAddrOfObjCSelectorRef s IGM).2 k
               = if decide (k = s)
                 then Some (GlobalVariableAddr (length (Module named.2)))
                 else cachedRef IGM k) /\
    LLVMUsed (getAddrOfObjCSelectorRef s IGM).2
    = (LLVMUsed IGM ++ [GlobalVariableAddr (length (Module named.2))])%list /\
    ObjCProtocols (getAddrOfObjCSelectorRef s IGM).2 = ObjCProtocols IGM.
Proof.
  intros Hmiss. cbv zeta. unfold cachedRef in *.
  pose proof (subscript_entry _ _ Hmiss) as Hnull.
  pose proof (cachedIn_subscript (ObjCSelectorRefs IGM) s) as Hsub.
  unfold getAddrOfObjCSelectorRef.
  destruct (subscript (ObjCSelectorRefs IGM) s) as [entry refs] eqn:Hs.
  simpl in Hnull, Hsub. rewrite Hnull. simpl.
  rewrite getAddrOfObjCMethodName_setObjCSelectorRefs.
  pose proof (getAddrOfObjCMethodName_refs s IGM) as Hrefs.
  destruct (cachedName IGM s) as [a|] eqn:Hname.
  - rewrite (getAddrOfObjCMethodName_hit s IGM a Hname). simpl.
    eexists. split; [reflexivity |]. split; [reflexivity |].
    split; [reflexivity |]. split; [reflexivity |]. split; [reflexivity |].
    split; [reflexivity |]. split; [reflexivity |].
    split; [| split; reflexivity].
    intros k. rewrite cachedIn_insert. simpl.
    destruct (decide (k = s)); [reflexivity | apply Hsub].
  - destruct (getAddrOfObjCMethodName_miss s IGM Hname)
      as [g0 [Ha [Hm [_ [_ [_ [_ [Hused [Hprotos _]]]]]]]]].
    destruct (getAddrOfObjCMethodName s IGM) as [a IGM1]. simpl in *.
    eexists. split; [reflexivity |]. split; [reflexivity |].
    split; [reflexivity |]. split; [reflexivity |]. split; [reflexivity |].
    split; [reflexivity |]. split; [reflexivity |].
    split; [| split; [rewrite Hused; reflexivity | exact Hprotos]].
    intros k. rewrite cachedIn_insert. simpl.
    destruct (decide (k = s)); [reflexivity | apply Hsub].
Qed.

Lemma getAddrOfObjCMethodName_used (s : string) (IGM : IRGenModule) :
  LLVMUsed (getAddrOfObjCMethodName s IGM).2 = LLVMUsed IGM.
Proof.
  unfold getAddrOfObjCMethodName, subscript.
  destruct (ObjCMethodNames IGM !! s) as [entry|];
    [destruct (isNull entry) |]; reflexivity.
Qed.

Lemma length_append (a b : string) :
  String.length (a +:+ b) = (String.length a + String.length b)%nat.
Proof. induction a as [|x a IH]; simpl; [reflexivity | rewrite IH; reflexivity]. Qed.

Lemma append_inj_l (a b rest : string) : a +:+ rest = b +:+ rest -> a = b.
Proof.
  revert b. induction a as [|x a IH]; intros [|y b] H; simpl in H.
  - reflexivity.
  - exfalso. apply (f_equal String.length) in H. simpl in H.
    rewrite length_append in H. lia.
  - exfalso. apply (f_equal String.length) in H. simpl in H.
    rewrite length_append in H. lia.
  - injection H as -> H. f_equal. apply IH. exact H.
Qed.

Lemma selectorRefName_inj (s s' : string) :
  selectorRefName s = selectorRefName s' -> s = s'.
Proof.
  unfold selectorRefName. simpl. intros [= H]. apply (append_inj_l _ _ _ H).
Qed.

Lemma sections_differ : methnameSection <> selrefsSection.
Proof. discriminate. Qed.

Lemma lookup_snoc_Some {A : Type} (l : list A) (x y : A) (i : nat) :
  (l ++ [x])%list !! i = Some y ->
  l !! i = Some y \/ (i = length l /\ y = x).
Proof.
  intros H. apply lookup_app_Some in H as [H | [Hle H]]; [left; exact H |].
  right. destruct (i - length l)%nat as [|n] eqn:Hn; simpl in H; [| discriminate].
  injection H as <-. split; [lia | reflexivity].
Qed.

Lemma lookup_snoc_old {A : Type} (l : list A) (x y : A) (i : nat) :
  l !! i = Some y -> (l ++ [x])%list !! i = Some y.
Proof. intros H. apply lookup_app_l_Some. exact H. Qed.

Lemma lookup_snoc_new {A : Type} (l : list A) (x : A) :
  (l ++ [x])%list !! length l = Some x.
Proof. apply list_lookup_middle. reflexivity. Qed.

(** A request for a name keeps the caches and the globals consistent. *)
Lemma getAddrOfObjCMethodName_consistent (s : string) (IGM : IRGenModule) :
  cacheConsistent IGM -> cacheConsistent (getAddrOfObjCMethodName s IGM).2.
Proof.
  intros [Hng Hgn Hrg Hgr].
  destruct (cachedName IGM s) as [a|] eqn:Hc.
  { rewrite (getAddrOfObjCMethodName_hit s IGM a Hc). split; assumption. }
  destruct (getAddrOfObjCMethodName_miss s IGM Hc)
    as [g [Ha [Hm [Hinit [Hsec [Hnames [Hrefs [Hused _]]]]]]]].
  assert (Hcr : forall k, cachedRef (getAddrOfObjCMethodName s IGM).2 k = cachedRef IGM k)
    by (intros k; unfold cachedRef; rewrite Hrefs; reflexivity).
  split.
  - intros k b Hk. rewrite Hnames in Hk. rewrite Hm.
    destruct (decide (k = s)) as [->|Hne].
    + injection Hk as <-. exists (length (Module IGM)), g.
      repeat split; try assumption. apply lookup_snoc_new.
    + destruct (Hng k b Hk) as [i [g0 [-> [Hi [H1 H2]]]]].
      exists i, g0. repeat split; try assumption. apply lookup_snoc_old. exact Hi.
  - intros i g1 s0 Hi Hs Hin. rewrite Hm in Hi. rewrite Hnames.
    apply lookup_snoc_Some in Hi as [Hi | [-> ->]].
    + pose proof (Hgn i g1 s0 Hi Hs Hin) as Hold.
      destruct (decide (s0 = s)) as [->|]; [congruence | exact Hold].
    + rewrite Hinit in Hin. injection Hin as <-.
      destruct (decide (s = s)); [reflexivity | congruence].
  - intros k r Hk. rewrite Hcr in Hk. rewrite Hm, Hused.
    destruct (Hrg k r Hk) as [i [g0 [-> [Hi [H1 [H2 [H3 H4]]]]]]].
    exists i, g0. repeat split; try assumption; [apply lookup_snoc_old; exact Hi |].
    rewrite Hnames. destruct (decide (k = s)) as [->|]; [congruence | exact H3].
  - intros i g1 s0 Hi Hs Hn. rewrite Hm in Hi. rewrite Hcr.
    apply lookup_snoc_Some in Hi as [Hi | [-> ->]].
    + exact (Hgr i g1 s0 Hi Hs Hn).
    + exfalso. apply sections_differ. congruence.
Qed.

(** A request for a reference keeps them consistent too. *)
Lemma getAddrOfObjCSelectorRef_consistent (s : string) (IGM : IRGenModule) :
  cacheConsistent IGM -> cacheConsistent (getAddrOfObjCSelectorRef s IGM).2.
Proof.
  intros Hwf.
  destruct (cachedRef IGM s) as [r|] eqn:Hc.
  { rewrite (getAddrOfObjCSelectorRef_hit s IGM r Hc). exact Hwf. }
  destruct (getAddrOfObjCSelectorRef_miss s IGM Hc)
    as [g [Ha [Hm [Hinit [Hsec [Hname [_ [Hnames [Hrefs [Hused _]]]]]]]]]].
  pose proof (getAddrOfObjCMethodName_consistent s IGM Hwf) as [Hng Hgn Hrg Hgr].
  pose proof (getAddrOfObjCMethodName_refs s IGM) as Hrefs1.
  pose proof (getAddrOfObjCMethodName_used s IGM) as Hused1.
  destruct (getAddrOfObjCMethodName_caches s IGM) as [Hlook Hnn].
  assert (Hnamed : cachedName (getAddrOfObjCMethodName s IGM).2 s
                   = Some (getAddrOfObjCMethodName s IGM).1)
    by (apply cachedIn_Some; split; assumption).
  set (named := getAddrOfObjCMethodName s IGM) in *.
  set (result := getAddrOfObjCSelectorRef s IGM) in *.
  assert (Hcn : forall k, cachedName result.2 k = cachedName named.2 k)
    by (intros k; unfold cachedName; rewrite Hnames; reflexivity).
  assert (Hcr1 : forall k, cachedRef named.2 k = cachedRef IGM k)
    by (intros k; unfold cachedRef; rewrite Hrefs1; reflexivity).
  split.
  - intros k b Hk. rewrite Hcn in Hk. rewrite Hm.
    destruct (Hng k b Hk) as [i [g0 [-> [Hi [H1 H2]]]]].
    exists i, g0. repeat split; try assumption. apply lookup_snoc_old. exact Hi.
  - intros i g1 s0 Hi Hs Hin. rewrite Hm in Hi. rewrite Hcn.
    apply lookup_snoc_Some in Hi as [Hi | [-> ->]].
    + exact (Hgn i g1 s0 Hi Hs Hin).
    + exfalso. apply sections_differ. congruence.
  - intros k r Hk. rewrite Hrefs in Hk. rewrite Hm, Hused, Hcn.
    destruct (decide (k = s)) as [->|Hne].
    + injection Hk as <-. exists (length (Module named.2)), g.
      split; [reflexivity |]. split; [apply lookup_snoc_new |].
      split; [exact Hsec |]. split; [exact Hname |].
      split; [rewrite Hinit; exact Hnamed |].
      apply in_or_app. right. left. reflexivity.
    + rewrite <- Hcr1 in Hk.
      destruct (Hrg k r Hk) as [i [g0 [-> [Hi [H1 [H2 [H3 H4]]]]]]].
      exists i, g0. repeat split; try assumption; [apply lookup_snoc_old; exact Hi |].
      apply in_or_app. left. rewrite <- Hused1. exact H4.
  - intros i g1 s0 Hi Hs Hn. rewrite Hm in Hi. rewrite Hrefs.
    apply lookup_snoc_Some in Hi as [Hi | [-> ->]].
    + pose proof (Hgr i g1 s0 Hi Hs Hn) as Hold. rewrite Hcr1 in Hold.
      destruct (decide (s0 = s)) as [->|]; [congruence | exact Hold].
    + rewrite Hname in Hn. apply selectorRefName_inj in Hn as <-.
      destruct (decide (s = s)); [reflexivity | congruence].
Qed.

Lemma requests_consistent (rs : list SelectorRequest) (IGM : IRGenModule) :
  cacheConsistent IGM -> cacheConsistent (requests rs IGM).
Proof.
  revert IGM. induction rs as [|r rs IH]; intros IGM Hwf; simpl; [exact Hwf |].
  apply IH. destruct r as [s|s]; simpl.
  - apply getAddrOfObjCMethodName_consistent. exact Hwf.
  - apply getAddrOfObjCSelectorRef_consistent. exact Hwf.
Qed.

(** A module with empty caches and no global of the two sections is
    consistent; so is the empty module. *)
Lemma fresh_module_consistent (IGM : IRGenModule) :
  ObjCMethodNames IGM = ∅ ->
  ObjCSelectorRefs IGM = ∅ ->
  (forall i g, Module IGM !! i = Some g ->
               gv_section g <> methnameSection /\ gv_section g <> selrefsSection) ->
  cacheConsistent IGM.
Proof.
  intros Hn Hr Hg. split.
  - intros s a H. unfold cachedName, cachedIn in H. rewrite Hn, lookup_empty in H.
    discriminate.
  - intros i g s Hi Hs _. destruct (Hg i g Hi) as [H _]. contradiction.
  - intros s r H. unfold cachedRef, cachedIn in H. rewrite Hr, lookup_empty in H.
    discriminate.
  - intros i g s Hi Hs _. destruct (Hg i g Hi) as [_ H]. contradiction.
Qed.

Lemma sampleModule_consistent : cacheConsistent sampleModule.
Proof.
  apply fresh_module_consistent; [reflexivity | reflexivity |].
  intros i g H. simpl in H. rewrite lookup_nil in H. discriminate.
Defined.

Lemma request_module (r : SelectorRequest) (IGM : IRGenModule) :
  exists added used,
    Module (request r IGM).2 = (Module IGM ++ added)%list /\
    length added = globalsAdded r IGM /\
    LLVMUsed (request r IGM).2 = (LLVMUsed IGM ++ used)%list.
Proof.
  destruct r as [s|s]; simpl.
  - destruct (cachedName IGM s) as [a|] eqn:Hc.
    + rewrite (getAddrOfObjCMethodName_hit s IGM a Hc). exists [], [].
      rewrite !app_nil_r. destruct (is_Some_dec (Some a)) as [|Hn];
        [repeat split; reflexivity | exfalso; apply Hn; eexists; reflexivity].
    + destruct (getAddrOfObjCMethodName_miss s IGM Hc)
        as [g [_ [Hm [_ [_ [_ [_ [Hused _]]]]]]]].
      exists [g], []. rewrite app_nil_r.
      destruct (is_Some_dec None) as [[? [=]]|]; repeat split; assumption.
  - destruct (cachedRef IGM s) as [r|] eqn:Hc.
    + rewrite (getAddrOfObjCSelectorRef_hit s IGM r Hc). exists [], [].
      rewrite !app_nil_r. destruct (is_Some_dec (Some r)) as [|Hn];
        [repeat split; reflexivity | exfalso; apply Hn; eexists; reflexivity].
    + destruct (getAddrOfObjCSelectorRef_miss s IGM Hc)
        as [g [_ [Hm [_ [_ [_ [_ [_ [_ [Hused _]]]]]]]]]].
      destruct (is_Some_dec None) as [[? [=]]|_].
      destruct (cachedName IGM s) as [a|] eqn:Hn.
      * rewrite (getAddrOfObjCMethodName_hit s IGM a Hn) in Hm. simpl in Hm.
        exists [g]. eexists. destruct (is_Some_dec (Some a)) as [|Hx];
          [repeat split; eassumption | exfalso; apply Hx; eexists; reflexivity].
      * destruct (getAddrOfObjCMethodName_miss s IGM Hn) as [g0 [_ [Hm0 _]]].
        rewrite Hm0, <- app_assoc in Hm. exists [g0; g]. eexists.
        destruct (is_Some_dec None) as [[? [=]]|_]. repeat split; eassumption.
Qed.

(** X1: a request to the selector cache appends to the globals of the
    module and to its used list and disturbs nothing that is there.  A
    method-name request adds one global when the name is not cached and
    none otherwise; a selector-reference request adds none when the
    reference is cached, one when only the name is cached, and two when
    neither is.  Over any sequence of requests the globals present at the
    start remain a prefix of the module. *)
Theorem requests_only_append (r : SelectorRequest) (rs : list SelectorRequest)
  (IGM : IRGenModule) :
  (exists added used,
     Module (request r IGM).2 = (Module IGM ++ added)%list /\
     length added = globalsAdded r IGM /\
     LLVMUsed (request r IGM).2 = (LLVMUsed IGM ++ used)%list) /\
  (exists added used,
     Module (requests rs IGM) = (Module IGM ++ added)%list /\
     LLVMUsed (requests rs IGM) = (LLVMUsed IGM ++ used)%list).
Proof.
  split; [apply request_module |].
  revert IGM. induction rs as [|r0 rs IH]; intros IGM; simpl.
  - exists [], []. rewrite !app_nil_r. split; reflexivity.
  - destruct (request_module r0 IGM) as [a1 [u1 [Hm1 [_ Hu1]]]].
    destruct (IH (request r0 IGM).2) as [a2 [u2 [Hm2 Hu2]]].
    exists (a1 ++ a2)%list, (u1 ++ u2)%list.
    rewrite Hm2, Hm1, Hu2, Hu1, !app_assoc. split; reflexivity.
Qed.

Lemma requests_keep_cachedName (rs : list SelectorRequest) (s : string)
  (IGM : IRGenModule) (a : Constant) :
  cachedName IGM s = Some a -> cachedName (requests rs IGM) s = Some a.
Proof.
  intros H. apply cachedIn_Some in H as [Hl Hn]. apply cachedIn_Some.
  split; [apply requests_keep_names; assumption | exact Hn].
Qed.

Lemma requests_keep_cachedRef (rs : list SelectorRequest) (s : string)
  (IGM : IRGenModule) (a : Constant) :
  cachedRef IGM s = Some a -> cachedRef (requests rs IGM) s = Some a.
Proof.
  intros H. apply cachedIn_Some in H as [Hl Hn]. apply cachedIn_Some.
  split; [apply requests_keep_refs; assumption | exact Hn].
Qed.

Lemma cachedName_after_request (s : string) (IGM : IRGenModule) :
  cachedName (getAddrOfObjCMethodName s IGM).2 s = Some (getAddrOfObjCMethodName s IGM).1.
Proof. apply cachedIn_Some. apply getAddrOfObjCMethodName_caches. Qed.

Lemma cachedRef_after_request (s : string) (IGM : IRGenModule) :
  cachedRef (getAddrOfObjCSelectorRef s IGM).2 s = Some (getAddrOfObjCSelectorRef s IGM).1.
Proof. apply cachedIn_Some. apply getAddrOfObjCSelectorRef_caches. Qed.

(** In a consistent module two selectors with the same cached name, or
    with the same cached reference, are the same selector. *)
Lemma cachedName_inj (IGM : IRGenModule) (s1 s2 : string) (a : Constant) :
  cacheConsistent IGM ->
  cachedName IGM s1 = Some a -> cachedName IGM s2 = Some a -> s1 = s2.
Proof.
  intros Hwf H1 H2.
  destruct (name_has_global IGM Hwf s1 a H1) as [i [g [-> [Hi [Hinit _]]]]].
  destruct (name_has_global IGM Hwf s2 _ H2) as [j [g' [[= <-] [Hj [Hinit' _]]]]].
  congruence.
Qed.

Lemma cachedRef_inj (IGM : IRGenModule) (s1 s2 : string) (r : Constant) :
  cacheConsistent IGM ->
  cachedRef IGM s1 = Some r -> cachedRef IGM s2 = Some r -> s1 = s2.
Proof.
  intros Hwf H1 H2.
  destruct (ref_has_global IGM Hwf s1 r H1) as [i [g [-> [Hi [_ [Hn _]]]]]].
  destruct (ref_has_global IGM Hwf s2 _ H2) as [j [g' [[= <-] [Hj [_ [Hn' _]]]]]].
  apply selectorRefName_inj. congruence.
Qed.

(** X2: different selectors never share a symbol.  In a module whose
    caches and globals are consistent, if a selector's method name (or
    its selector reference) and, after any further requests, that of a
    second selector are the same symbol, the two selectors are equal. *)
Theorem selector_symbols_injective (s1 s2 : string) (rs : list SelectorRequest)
  (IGM : IRGenModule) :
  cacheConsistent IGM ->
  (let first := getAddrOfObjCMethodName s1 IGM in
   let second := getAddrOfObjCMethodName s2 (requests rs first.2) in
   first.1 = second.1 -> s1 = s2) /\
  (let first := getAddrOfObjCSelectorRef s1 IGM in
   let second := getAddrOfObjCSelectorRef s2 (requests rs first.2) in
   first.1 = second.1 -> s1 = s2).
Proof.
  intros Hwf. split; cbv zeta; intros Heq.
  - set (first := getAddrOfObjCMethodName s1 IGM) in *.
    set (later := requests rs first.2) in *.
    assert (Hc : cacheConsistent (getAddrOfObjCMethodName s2 later).2).
    { apply getAddrOfObjCMethodName_consistent, requests_consistent,
        getAddrOfObjCMethodName_consistent, Hwf. }
    apply (cachedName_inj _ s1 s2 first.1 Hc).
    + apply (requests_keep_cachedName [RequestMethodName s2] s1 later).
      apply requests_keep_cachedName. apply cachedName_after_request.
    + rewrite Heq. apply cachedName_after_request.
  - set (first := getAddrOfObjCSelectorRef s1 IGM) in *.
    set (later := requests rs first.2) in *.
    assert (Hc : cacheConsistent (getAddrOfObjCSelectorRef s2 later).2).
    { apply getAddrOfObjCSelectorRef_consistent, requests_consistent,
        getAddrOfObjCSelectorRef_consistent, Hwf. }
    apply (cachedRef_inj _ s1 s2 first.1 Hc).
    + apply (requests_keep_cachedRef [RequestSelectorRef s2] s1 later).
      apply requests_keep_cachedRef. apply cachedRef_after_request.
    + rewrite Heq. apply cachedRef_after_request.
Qed.

(** X3: the reference cell of a selector points at its name.  In a
    consistent module the symbol returned for a selector reference is a
    global of the selector-reference section, on the used list, whose
    initializer is the method name symbol of the same selector, which is
    cached by then: asking for the name afterwards returns that
    initializer and leaves the module alone. *)
Theorem selector_reference_points_at_name (s : string) (IGM : IRGenModule) :
  cacheConsistent IGM ->
  let result := getAddrOfObjCSelectorRef s IGM in
  exists i g,
    result.1 = GlobalVariableAddr i /\
    Module result.2 !! i = Some g /\
    gv_section g = selrefsSection /\
    getAddrOfObjCMethodName s result.2 = (gv_initializer g, result.2) /\
    In result.1 (LLVMUsed result.2).
Proof.
  intros Hwf. cbv zeta.
  pose proof (getAddrOfObjCSelectorRef_consistent s IGM Hwf) as Hc.
  destruct (ref_has_global _ Hc s _ (cachedRef_after_request s IGM))
    as [i [g [Hr [Hi [Hs [_ [Hn Hu]]]]]]].
  exists i, g. repeat split; try assumption.
  apply getAddrOfObjCMethodName_hit. exact Hn.
Qed.

(** X4: at most one global per selector.  Whatever is requested from a
    consistent module, the module never holds two globals of the
    method-name section with the same selector text, nor two globals of
    the selector-reference section for the same selector. *)
Theorem selector_globals_unique (rs : list SelectorRequest) (IGM : IRGenModule)
  (i j : nat) (g g' : GlobalVariable) (s : string) :
  cacheConsistent IGM ->
  Module (requests rs IGM) !! i = Some g ->
  Module (requests rs IGM) !! j = Some g' ->
  (gv_section g = methnameSection -> gv_section g' = methnameSection ->
   gv_initializer g = ConstantDataArrayString s ->
   gv_initializer g' = ConstantDataArrayString s -> i = j) /\
  (gv_section g = selrefsSection -> gv_section g' = selrefsSection ->
   gv_name g = selectorRefName s -> gv_name g' = selectorRefName s -> i = j).
Proof.
  intros Hwf Hi Hj.
  pose proof (requests_consistent rs IGM Hwf) as Hc.
  split; intros H1 H2 H3 H4.
  - pose proof (global_has_name _ Hc i g s Hi H1 H3) as Ha.
    pose proof (global_has_name _ Hc j g' s Hj H2 H4) as Hb.
    congruence.
  - pose proof (global_has_ref _ Hc i g s Hi H1 H3) as Ha.
    pose proof (global_has_ref _ Hc j g' s Hj H2 H4) as Hb.
    congruence.
Qed.

(** ** Protocol records *)

Section ProtocolRecordProperties.

Variable emitObjCProtocolData : ProtocolDecl -> IRGenModule -> Constant * IRGenModule.

Hypothesis emitObjCProtocolData_not_reentrant :
  forall proto IGM,
    ObjCProtocols IGM !! proto = None ->
    ObjCProtocols (emitObjCProtocolData proto IGM).2 !! proto = None.

(** X5: the record and the reference of a protocol are the two halves of
    one pair.  Asking for the record and then for the reference, or the
    other way round, gives the pair that one request for both gives; the
    first of the two requests leaves the module as that request does, and
    the second adds nothing. *)
Theorem protocol_record_and_reference_agree (proto : ProtocolDecl) (IGM : IRGenModule) :
  let both := getObjCProtocolGlobalVars emitObjCProtocolData proto IGM in
  (let rec := getAddrOfObjCProtocolRecord emitObjCProtocolData proto IGM in
   let rf := getAddrOfObjCProtocolRef emitObjCProtocolData proto rec.2 in
   rec = (record both.1, both.2) /\ rf = (ref both.1, both.2)) /\
  (let rf := getAddrOfObjCProtocolRef emitObjCProtocolData proto IGM in
   let rec := getAddrOfObjCProtocolRecord emitObjCProtocolData proto rf.2 in
   rf = (ref both.1, both.2) /\ rec = (record both.1, both.2)).
Proof.
  cbv zeta.
  pose proof (getObjCProtocolGlobalVars_caches emitObjCProtocolData
                emitObjCProtocolData_not_reentrant proto IGM) as Hlook.
  pose proof (getObjCProtocolGlobalVars_cached emitObjCProtocolData proto _ _ Hlook)
    as Hagain.
  unfold getAddrOfObjCProtocolRecord, getAddrOfObjCProtocolRef.
  destruct (getObjCProtocolGlobalVars emitObjCProtocolData proto IGM) as [vars IGM1].
  simpl in *. rewrite Hagain. repeat split; reflexivity.
Qed.

(** X6: what a first request for a protocol adds.  For a protocol that
    is not cached, the record is the emitted protocol data cast to [i8*];
    after whatever the emission of the data added, exactly two globals
    are appended, the label in the protocol-list section and the
    reference in the protocol-reference section, both weak, hidden and
    initialised with the record; the reference symbol is the address of
    the second, and it is not the record.  The selector caches are as the
    emission left them. *)
Theorem protocol_first_request (proto : ProtocolDecl) (IGM : IRGenModule) :
  ObjCProtocols IGM !! proto = None ->
  let emitted := emitObjCProtocolData proto IGM in
  let result := getObjCProtocolGlobalVars emitObjCProtocolData proto IGM in
  exists label reference,
    record result.1 = BitCastToInt8Ptr emitted.1 /\
    Module result.2 = (Module emitted.2 ++ [label; reference])%list /\
    ref result.1 = GlobalVariableAddr (S (length (Module emitted.2))) /\
    Module result.2 !! S (length (Module emitted.2)) = Some reference /\
    gv_section label = protolistSection /\
    gv_section reference = protorefsSection /\
    gv_initializer label = record result.1 /\
    gv_initializer reference = record result.1 /\
    gv_linkage label = WeakAnyLinkage /\ gv_linkage reference = WeakAnyLinkage /\
    gv_visibility label = HiddenVisibility /\
    gv_visibility reference = HiddenVisibility /\
    record result.1 <> ref result.1 /\
    ObjCProtocols result.2 !! proto = Some result.1 /\
    ObjCMethodNames result.2 = ObjCMethodNames emitted.2 /\
    ObjCSelectorRefs result.2 = ObjCSelectorRefs emitted.2.
Proof.
  intros Hnone. cbv zeta.
  pose proof (getObjCProtocolGlobalVars_caches emitObjCProtocolData
                emitObjCProtocolData_not_reentrant proto IGM) as Hlook.
  revert Hlook. unfold getObjCProtocolGlobalVars. rewrite Hnone.
  destruct (emitObjCProtocolData proto IGM) as [data IGM1]. simpl. intros Hlook.
  do 2 eexists. split; [reflexivity |].
  split; [rewrite <- app_assoc; reflexivity |].
  rewrite length_app in Hlook |- *. simpl in Hlook |- *.
  split; [f_equal; lia |].
  split.
  { rewrite <- app_assoc. simpl.
    rewrite (lookup_app_r (Module IGM1)) by lia.
    replace (S (length (Module IGM1)) - length (Module IGM1))%nat with 1%nat by lia.
    reflexivity. }
  repeat (split; [reflexivity |]).
  split; [discriminate |].
  split; [exact Hlook |]. split; reflexivity.
Qed.

End ProtocolRecordProperties.

(** ** Selector families, continued *)

(** X7: a family prefix that runs on in lowercase names no family.  A
    selector that, after any leading underscores, starts with one of the
    family prefixes immediately followed by a lowercase letter (as in
    "initialize" or "copyright") belongs to no family. *)
Theorem family_prefix_followed_by_lowercase (label : Family.Family) (pfx rest : string)
  (c : ascii) (n : nat) :
  In (label, pfx) Selector.FOREACH_FAMILY ->
  Selector.islower c = true ->
  Selector.getFamily {| Selector.Text := underscores n +:+ pfx +:+ String c rest |}
  = Family.None.
Proof.
  intros Hin Hlow. unfold Selector.getFamily. cbn [Selector.str Selector.Text].
  rewrite dropUnderscores_underscores.
  simpl in Hin.
  destruct Hin as [[= <- <-] | [[= <- <-] | [[= <- <-] | [[= <- <-] | [[= <- <-] | []]]]]];
    cbv [Selector.dropUnderscores Selector.checkPrefixes Selector.FOREACH_FAMILY
         Selector.hasPrefix Selector.startswith String.prefix append Ascii.eqb
         Bool.eqb negb ascii_dec ascii_rec ascii_rect bool_dec bool_rec bool_rect
         sumbool_rec sumbool_rect eq_rec_r eq_rec eq_rect eq_sym f_equal
         String.length Nat.eqb String.get];
    rewrite Hlow; reflexivity.
Qed.

(** ** Method descriptors, continued *)

Lemma getAddrOfObjCMethodName_pointerSize (s : string) (IGM : IRGenModule) :
  PointerSize (getAddrOfObjCMethodName s IGM).2 = PointerSize IGM.
Proof.
  unfold getAddrOfObjCMethodName, subscript.
  destruct (ObjCMethodNames IGM !! s) as [entry|];
    [destruct (isNull entry) |]; reflexivity.
Qed.

Section DescriptorsContinued.

Context {CTG : ClangTypeEncoder}.

Lemma GetObjCEncodingForMethodType_pointerSize (IGM IGM' : IRGenModule)
  (T : AnyFunctionType) :
  PointerSize IGM' = PointerSize IGM ->
  GetObjCEncodingForMethodType IGM' T = GetObjCEncodingForMethodType IGM T.
Proof. intros H. unfold GetObjCEncodingForMethodType. rewrite H. reflexivity. Qed.

(** The result of emitting a method descriptor, in closed form. *)
Lemma emitObjCMethodDescriptor_result (method : AbstractFunctionDecl) (IGM : IRGenModule) :
  let named := getAddrOfObjCMethodName (selectorText method) IGM in
  match encodedMethodType method with
  | None =>
      emitObjCMethodDescriptor method IGM
      = Abort (AssertionFailed "castTo<Ty>() argument of incompatible type!")
  | Some methodType =>
      exists pointer,
        emitObjCMethodDescriptor method IGM
        = Ok (assignedDescriptor named.1
                (GetObjCEncodingForMethodType IGM methodType) pointer, named.2) /\
        (pointer = ConstantPointerNull <-> isProtocolRequirement method = true)
  end.
Proof.
  cbv zeta. unfold encodedMethodType, emitObjCMethodDescriptor,
    emitObjCMethodDescriptorParts, castTo_AnyFunctionType, assignedDescriptor,
    getObjCMethodPointer_Func, getObjCMethodPointer_Constructor,
    getObjCMethodPointer_Destructor, selectorText, isProtocolRequirement.
  run_irgen.
  pose proof (getAddrOfObjCMethodName_pointerSize) as Hps.
  destruct method as [f|c|d]; simpl;
    match goal with
    | |- context [getAddrOfObjCMethodName ?s IGM] =>
        specialize (Hps s IGM);
        destruct (getAddrOfObjCMethodName s IGM) as [name IGM1]
    end; simpl in *;
    repeat match goal with
           | |- context [match getAs_AnyFunctionType ?t with _ => _ end] =>
               destruct (getAs_AnyFunctionType t) as [?ft|]; simpl; try reflexivity
           end;
    rewrite ?(GetObjCEncodingForMethodType_pointerSize IGM IGM1 _ Hps);
    try match goal with
        | |- context [if isProtocolDecl ?c then _ else _] =>
            destruct (isProtocolDecl c); simpl
        end;
    eexists; (split; [reflexivity |]); split; congruence.
Qed.

(** X8: when a method descriptor is produced and what it holds.  A
    descriptor is produced exactly when the type of the declaration is a
    function type and, except for a destructor, its result is one too;
    otherwise the cast assertion stops the compiler.  When produced, all
    three fields are assigned: the method name symbol of the selector
    ("dealloc" for a destructor), the encoding of the type with the self
    parameter taken off, and an implementation pointer that is null
    exactly for a method or constructor of a protocol. *)
Theorem method_descriptor_contents (method : AbstractFunctionDecl) (IGM : IRGenModule) :
  let named := getAddrOfObjCMethodName (selectorText method) IGM in
  match encodedMethodType method with
  | None =>
      emitObjCMethodDescriptor method IGM
      = Abort (AssertionFailed "castTo<Ty>() argument of incompatible type!")
  | Some methodType =>
      exists pointer,
        emitObjCMethodDescriptor method IGM
        = Ok (assignedDescriptor named.1
                (GetObjCEncodingForMethodType IGM methodType) pointer, named.2) /\
        (pointer = ConstantPointerNull <-> isProtocolRequirement method = true)
  end.
Proof. exact (emitObjCMethodDescriptor_result method IGM). Qed.

(** X9: a method descriptor and a call to the method agree on the
    selector.  In a consistent module, after the descriptor of a method
    is emitted, the implicit arguments of a send to a reference with the
    same selector are the receiver and a load of the selector reference
    cell, and that cell is a global of the selector-reference section
    whose initializer is the very symbol in the descriptor's selector
    field. *)
Theorem descriptor_and_send_agree_on_selector (method : AbstractFunctionDecl)
  (callee : SILDeclRef) (self : Value) (IGM IGM1 : IRGenModule) (d : MethodDescriptor) :
  cacheConsistent IGM ->
  Selector.ofSILDeclRef callee = Ok {| Selector.Text := selectorText method |} ->
  emitObjCMethodDescriptor method IGM = Ok (d, IGM1) ->
  exists i g IGM2,
    addObjCMethodCallImplicitArguments callee self IGM1
    = Ok (([self; LoadedFrom (GlobalVariableAddr i)], [Load (GlobalVariableAddr i)]), IGM2) /\
    Module IGM2 !! i = Some g /\
    gv_section g = selrefsSection /\
    selectorRef (fields d) = Assigned (gv_initializer g).
Proof.
  intros Hwf Hsel Hemit.
  pose proof (emitObjCMethodDescriptor_result method IGM) as Hd. cbv zeta in Hd.
  destruct (encodedMethodType method) as [ft|]; [| congruence].
  destruct Hd as [pointer [Hd _]]. rewrite Hd in Hemit. injection Hemit as <- <-.
  set (s := selectorText method) in *.
  set (named := getAddrOfObjCMethodName s IGM) in *.
  pose proof (getAddrOfObjCMethodName_consistent s IGM Hwf) as Hc1.
  pose proof (getAddrOfObjCSelectorRef_consistent s named.2 Hc1) as Hc2.
  destruct (ref_has_global _ Hc2 s _ (cachedRef_after_request s named.2))
    as [i [g [Hr [Hi [Hs [_ [Hn _]]]]]]].
  pose proof (requests_keep_cachedName [RequestSelectorRef s] s named.2 named.1
                (cachedName_after_request s IGM)) as Hkeep.
  simpl in Hkeep. rewrite Hkeep in Hn. injection Hn as Hn.
  exists i, g, (getAddrOfObjCSelectorRef s named.2).2.
  unfold addObjCMethodCallImplicitArguments, emitObjCSelectorRefLoad. run_irgen.
  rewrite Hsel. simpl. fold s.
  destruct (getAddrOfObjCSelectorRef s named.2) as [r IGM2] eqn:Hreq. simpl in *.
  subst r. repeat split; try assumption. congruence.
Qed.

End DescriptorsContinued.

Lemma getCanonicalType_idem : forall t : Ty,
  getCanonicalType (getCanonicalType t) = getCanonicalType t.
Proof.
  fix IH 1. intros [n|n args|elts|u|i r b|i r]; simpl.
  - reflexivity.
  - f_equal. induction args as [|a args IHl]; simpl;
      [reflexivity | f_equal; [apply IH | apply IHl]].
  - f_equal. induction elts as [|a elts IHl]; simpl;
      [reflexivity | f_equal; [apply IH | apply IHl]].
  - apply IH.
  - f_equal; apply IH.
  - f_equal; apply IH.
Qed.

Section AccessorDescriptors.

Context {CTG : ClangTypeEncoder}.

(** X10: the encoding of an accessor is the encoding of its method type.
    The getter of a property is encoded as a method without arguments
    that returns the property type.  The setter of a property whose type
    is not a tuple is encoded as a method that takes the property type
    and returns a type the encoder maps to void. *)
Theorem accessor_encoding_is_method_encoding (property : VarDecl)
  (out parts : DescriptorParts) (IGM IGM' : IRGenModule) :
  (emitObjCGetterDescriptorParts_Var property out IGM = Ok (parts, IGM') ->
   atEncoding parts
   = Assigned (GetObjCEncodingForMethodType IGM (getterMethodType property))) /\
  (forall void,
     visit (getCanonicalType void) = Some VoidTy ->
     isTupleType (getCanonicalType (var_getType property)) = false ->
     emitObjCSetterDescriptorParts_Var property out IGM = Ok (parts, IGM') ->
     atEncoding parts
     = Assigned (GetObjCEncodingForMethodType IGM (setterMethodType property void))).
Proof.
  split.
  - unfold emitObjCGetterDescriptorParts_Var, GetObjCEncodingForMethodType,
      getterMethodType, getObjCGetterPointer.
    run_irgen.
    pose proof (getAddrOfObjCMethodName_pointerSize
                  (var_getObjCGetterSelector property) IGM) as Hps.
    destruct (getAddrOfObjCMethodName _ IGM) as [name IGM1]. simpl in Hps.
    destruct (visit (getCanonicalType (var_getType property))) as [ct|]; run_irgen.
    + rewrite Hps.
      destruct (isProtocolDecl (var_getDeclContext property)); simpl;
        intros [= <- _]; reflexivity.
    + intros [= <- _]. reflexivity.
  - intros void Hvoid Htuple.
    unfold emitObjCSetterDescriptorParts_Var, GetObjCEncodingForMethodType,
      setterMethodType, getObjCSetterPointer.
    run_irgen. rewrite Hvoid. clear Hvoid.
    destruct (var_isSettable property); simpl; [| discriminate].
    pose proof (getAddrOfObjCMethodName_pointerSize
                  (var_getObjCSetterSelector property) IGM) as Hps.
    destruct (getAddrOfObjCMethodName _ IGM) as [name IGM1]. simpl in Hps.
    rewrite getCanonicalType_idem.
    destruct (getCanonicalType (var_getType property)) as [n|n args|elts|u|i r b|i r]
      eqn:Hcanon; try discriminate Htuple;
      (match goal with
       | |- context [visit ?t] => destruct (visit t) as [ct|]
       end; run_irgen;
       [ rewrite Hps;
         destruct (isProtocolDecl (var_getDeclContext property)); simpl;
         [ intros [= <- _]; reflexivity
         | destruct (var_getSetter property); simpl;
           [intros [= <- _]; reflexivity | discriminate] ]
       | intros [= <- _]; reflexivity ]).
Qed.

(** X11: the descriptors of a property with an encodable type.  When the
    type of the property is encodable, and a settable property outside a
    protocol has its setter, the getter descriptor has its three fields
    assigned, with a string for the encoding; a property that is not
    settable gets no setter descriptor, and a settable one gets a setter
    descriptor that is complete in the same way.  The implementation
    pointers are null exactly for a property of a protocol. *)
Theorem property_descriptors_complete (property : VarDecl) (IGM : IRGenModule)
  (ct : ClangType) :
  visit (getCanonicalType (var_getType property)) = Some ct ->
  (var_isSettable property = true ->
   isProtocolDecl (var_getDeclContext property) = false ->
   is_Some (var_getSetter property)) ->
  exists name getterEncoding pointer setter IGM',
    emitObjCPropertyMethodDescriptors property IGM
    = Ok ((assignedDescriptor name (GlobalStringAddr getterEncoding) pointer, setter),
          IGM') /\
    (pointer = ConstantPointerNull
     <-> isProtocolDecl (var_getDeclContext property) = true) /\
    if var_isSettable property
    then exists name' setterEncoding pointer',
           setter = Some (assignedDescriptor name'
                            (GlobalStringAddr setterEncoding) pointer') /\
           (pointer' = ConstantPointerNull
            <-> isProtocolDecl (var_getDeclContext property) = true)
    else setter = None.
Proof.
  intros Hct Hsetter.
  unfold emitObjCPropertyMethodDescriptors, emitObjCGetterDescriptorParts_Var,
    emitObjCSetterDescriptorParts_Var, getObjCGetterPointer, getObjCSetterPointer,
    assignedDescriptor.
  run_irgen. rewrite Hct. run_irgen.
  destruct (getAddrOfObjCMethodName _ IGM) as [name IGM1]. simpl.
  destruct (isProtocolDecl (var_getDeclContext property)) eqn:Hproto; simpl;
    destruct (var_isSettable property) eqn:Hset; simpl;
    try (destruct (Hsetter eq_refl eq_refl) as [setterDecl ->]; simpl);
    try (destruct (getAddrOfObjCMethodName _ IGM1) as [name' IGM2]; simpl);
    do 5 eexists; (split; [reflexivity |]);
    (split; [split; congruence |]);
    try reflexivity;
    do 3 eexists; (split; [reflexivity |]); split; congruence.
Qed.

End AccessorDescriptors.

Section IVarInitDestroyProperties.

Context {CTG : ClangTypeEncoder}.

Variable getAddrOfObjCIVarInitDestroy : ClassDecl -> bool -> option Constant.

(** X12: the descriptor of the instance-variable initialiser or
    destroyer of a class.  Emitting it never stops the compiler.  When
    the class has no such function, there is no descriptor and the module
    is not touched.  When it has one, the descriptor is complete: its
    selector is the method name symbol of ".cxx_destruct" for the
    destroyer and ".cxx_construct" for the initialiser, its encoding is
    the encoding of the type of the destructor, and its implementation is
    the function, cast. *)
Theorem ivar_init_destroy_descriptor (cd : ClassDecl) (isDestroyer : bool)
  (IGM : IRGenModule) :
  let text := if isDestroyer then ".cxx_destruct" else ".cxx_construct" in
  let named := getAddrOfObjCMethodName text IGM in
  emitObjCIVarInitDestroyDescriptor getAddrOfObjCIVarInitDestroy cd isDestroyer IGM
  = match getAddrOfObjCIVarInitDestroy cd isDestroyer with
    | None => Ok (None, IGM)
    | Some objcImpl =>
        Ok (Some (assignedDescriptor named.1
                    (GetObjCEncodingForType (dtor_getType (class_getDestructor cd)))
                    (BitCastToInt8Ptr objcImpl)),
            named.2)
    end.
Proof.
  cbv zeta. unfold emitObjCIVarInitDestroyDescriptor, assignedDescriptor.
  destruct (getAddrOfObjCIVarInitDestroy cd isDestroyer) as [objcImpl|];
    [| reflexivity].
  run_irgen. destruct isDestroyer; simpl;
    destruct (getAddrOfObjCMethodName _ IGM) as [name IGM1]; reflexivity.
Qed.

End IVarInitDestroyProperties.

(** ** Message sends, continued *)

(** X13: when a send can be prepared and how its signature is retyped.
    The preparation aborts on the assertion for a reference that is not a
    func, initializer, destroyer or deallocator, and, for a peer or super
    send, when the lowered signature has no parameter at the position to
    retype.  Otherwise it succeeds: a normal send keeps the lowered
    signature; a peer or super send changes exactly the parameter at that
    position to the super-record pointer and keeps the length, every
    other parameter, the return type and the variadic flag. *)
Theorem message_send_preparation (IGM : IRGenModule) (method : SILDeclRef)
  (origFnType substFnType : SILFunctionType) (kind : ObjCMessageKind) :
  let fnTy := getFunctionType origFnType in
  let index := superParameterIndex origFnType in
  (isObjCMethodKind (SILDeclRef.kind method) = false ->
   prepareObjCMethodRootCall IGM method origFnType substFnType kind
   = Abort (AssertionFailed
              "objc method call must be to a func/initializer/getter/setter/dtor")) /\
  (isObjCMethodKind (SILDeclRef.kind method) = true ->
   kind <> Normal -> (length (params fnTy) <= index)%nat ->
   prepareObjCMethodRootCall IGM method origFnType substFnType kind
   = Abort (AssertionFailed "idx < size()")) /\
  (isObjCMethodKind (SILDeclRef.kind method) = true ->
   exists callee,
     prepareObjCMethodRootCall IGM method origFnType substFnType Normal = Ok callee /\
     messengerType callee = fnTy) /\
  (isObjCMethodKind (SILDeclRef.kind method) = true ->
   kind <> Normal -> (index < length (params fnTy))%nat ->
   exists callee,
     prepareObjCMethodRootCall IGM method origFnType substFnType kind = Ok callee /\
     getReturnType (messengerType callee) = getReturnType fnTy /\
     isVarArg (messengerType callee) = isVarArg fnTy /\
     length (params (messengerType callee)) = length (params fnTy) /\
     params (messengerType callee) !! index = Some ObjCSuperPtrTy /\
     (forall j, j <> index ->
                params (messengerType callee) !! j = params fnTy !! j)).
Proof.
  cbv zeta. unfold superParameterIndex, prepareObjCMethodRootCall, getMsgSendSuperTy,
    assertR, bindR.
  split; [intros ->; reflexivity |].
  split; [| split].
  - intros -> Hkind Hlen.
    assert (Hlt : ((if requiresExternalIndirectResult origFnType then 1 else 0)
                   <? length (params (getFunctionType origFnType)))%nat = false)
      by (apply Nat.ltb_ge; exact Hlen).
    destruct kind; [congruence | |]; rewrite Hlt; reflexivity.
  - intros ->. eexists. split; reflexivity.
  - intros -> Hkind Hlen.
    assert (Hlt : ((if requiresExternalIndirectResult origFnType then 1 else 0)
                   <? length (params (getFunctionType origFnType)))%nat = true)
      by (apply Nat.ltb_lt; exact Hlen).
    destruct kind; [congruence | |]; rewrite Hlt; simpl;
      (eexists; split; [reflexivity |]; simpl;
       split; [reflexivity |]; split; [reflexivity |];
       split; [apply length_insert |];
       split; [apply list_lookup_insert_eq; exact Hlen |];
       intros j Hj; apply list_lookup_insert_ne; congruence).
Qed.

(** ** Partial application, continued *)

(** X14: a receiver passed indirectly is refused.  When the last
    parameter of the method, the receiver, has one of the indirect
    conventions, emitting the forwarder, and with it the partial
    application, stops the compiler with "self passed indirectly?!"; a
    method type without parameters fails the assertion on the empty
    list. *)
Theorem indirect_receiver_is_fatal (method : SILDeclRef)
  (origMethodType resultType : SILFunctionType) (self : Value) (IGM : IRGenModule) :
  (forall selfConvention,
     back (getInterfaceParameters origMethodType) = Ok selfConvention ->
     isIndirectConvention selfConvention = true ->
     emitObjCPartialApplicationForwarder method origMethodType resultType IGM
     = Abort (Unreachable "self passed indirectly?!") /\
     emitObjCPartialApplication method origMethodType resultType self IGM
     = Abort (Unreachable "self passed indirectly?!")) /\
  (getInterfaceParameters origMethodType = [] ->
   emitObjCPartialApplicationForwarder method origMethodType resultType IGM
   = Abort (AssertionFailed "!empty()") /\
   emitObjCPartialApplication method origMethodType resultType self IGM
   = Abort (AssertionFailed "!empty()")).
Proof.
  split.
  - intros selfConvention Hback Hind.
    assert (Hfwd : emitObjCPartialApplicationForwarder method origMethodType
                     resultType IGM = Abort (Unreachable "self passed indirectly?!")).
    { unfold emitObjCPartialApplicationForwarder. cbv zeta. rewrite Hback. run_irgen.
      destruct selfConvention; try discriminate Hind; reflexivity. }
    split; [exact Hfwd |].
    unfold emitObjCPartialApplication. run_irgen. rewrite Hfwd. reflexivity.
  - intros Hnil.
    assert (Hfwd : emitObjCPartialApplicationForwarder method origMethodType
                     resultType IGM = Abort (AssertionFailed "!empty()")).
    { unfold emitObjCPartialApplicationForwarder. cbv zeta. rewrite Hnil. reflexivity. }
    split; [exact Hfwd |].
    unfold emitObjCPartialApplication. run_irgen. rewrite Hfwd. reflexivity.
Qed.

Lemma seq_shift_one (n : nat) : seq 0 (S n) = 0%nat :: seq 1 n.
Proof. reflexivity. Qed.

(** X15: what the forwarder passes on.  For a receiver passed directly,
    the forwarder is an internal function "_TPAo" of the closure's
    signature.  Its last parameter is the context; when the result is
    indirect its first parameter is the result slot.  The call goes to
    the plain messenger, the struct-return one when an indirect result
    meets that convention, never to a super messenger, with the method's
    own signature; its arguments are the receiver loaded from the
    context, the selector loaded from its reference cell, and then the
    remaining parameters in their order.  The module afterwards is the
    module after a request for that selector reference. *)
Theorem forwarder_call (method : SILDeclRef)
  (origMethodType resultType : SILFunctionType) (IGM : IRGenModule)
  (selfConvention : ParameterConvention) (selector : Selector) (n : nat) :
  back (getInterfaceParameters origMethodType) = Ok selfConvention ->
  isIndirectConvention selfConvention = false ->
  isObjCMethodKind (SILDeclRef.kind method) = true ->
  Selector.ofSILDeclRef method = Ok selector ->
  length (params (getFunctionTypeRetainable resultType)) = S n ->
  (resultRequiresIndirectResult origMethodType = true -> (1 <= n)%nat) ->
  let requested := getAddrOfObjCSelectorRef (Selector.str selector) IGM in
  let context := Param n in
  let first := if resultRequiresIndirectResult origMethodType then 1%nat else 0%nat in
  let args :=
    (Loaded (FieldAddr context 0) :: LoadedFrom requested.1
       :: map Param (seq first (n - first)))%list in
  exists fwd callee call,
    emitObjCPartialApplicationForwarder method origMethodType resultType IGM
    = Ok (fwd, requested.2) /\
    fn_name fwd = "_TPAo" /\ fn_linkage fwd = InternalLinkage /\
    fn_type fwd = getFunctionTypeRetainable resultType /\
    nth_error (fn_body fwd) 2 = Some call /\
    call = (if resultRequiresIndirectResult origMethodType
            then EmitToMemory callee args (Param 0)
            else EmitToExplosion callee args) /\
    messenger callee
    = dispatchEntryPoint
        (requiresExternalIndirectResult origMethodType && ObjCUseStret IGM) Normal /\
    messengerType callee = getFunctionType origMethodType.
Proof.
  intros Hback Hconv Hkind Hsel Hn Hind. cbv zeta.
  destruct (collectParameters_back n) as [Hctx Hrest].
  unfold emitObjCPartialApplicationForwarder. cbv zeta.
  rewrite Hn, Hback, Hctx, Hrest.
  unfold addObjCMethodCallImplicitArguments, emitObjCSelectorRefLoad,
    prepareObjCMethodRootCall, assertR, bindR.
  rewrite Hkind, Hsel. run_irgen.
  destruct (resultRequiresIndirectResult origMethodType) eqn:Hi.
  - destruct n as [|m]; [specialize (Hind eq_refl); lia |].
    rewrite seq_shift_one. simpl map.
    destruct selfConvention; try discriminate Hconv; simpl;
      destruct (getAddrOfObjCSelectorRef (Selector.str selector) IGM)
        as [selRef IGM1]; simpl; rewrite ?Nat.sub_0_r;
      do 3 eexists; (split; [reflexivity |]); simpl;
      repeat (split; [reflexivity |]); reflexivity.
  - destruct selfConvention; try discriminate Hconv; simpl;
      destruct (getAddrOfObjCSelectorRef (Selector.str selector) IGM)
        as [selRef IGM1]; simpl; rewrite ?Nat.sub_0_r;
      do 3 eexists; (split; [reflexivity |]); simpl;
      repeat (split; [reflexivity |]); reflexivity.
Qed.

(** ** Eligibility, continued *)

Lemma funcChainLength_step (method override : FuncDecl) :
  func_getOverriddenDecl method = Some override ->
  funcChainLength method = S (funcChainLength override).
Proof. destruct method; simpl. intros ->. reflexivity. Qed.

Lemma eligible_method_has_marked_ancestor (fuel : nat) :
  forall method,
    (funcChainLength method <= fuel)%nat ->
    requiresObjCMethodDescriptor method = true ->
    exists n ancestor,
      overriddenFunc n method = Some ancestor /\
      funcIsMarked ancestor = true /\
      (forall k d, (k <= n)%nat -> overriddenFunc k method = Some d ->
                   excludedFunc d = false).
Proof.
  induction fuel as [|fuel IH]; intros method Hlen Helig;
    rewrite requiresObjCMethodDescriptor_step in Helig;
    destruct (excludedFunc method) eqn:Hex; try discriminate;
    destruct (func_isObjC method || func_isIBAction method) eqn:Hmark.
  1,3: exists 0%nat, method; split; [reflexivity |]; split; [exact Hmark |];
       intros k d Hk Hd; assert (k = 0%nat) as -> by lia;
       simpl in Hd; congruence.
  - destruct (func_getOverriddenDecl method) as [override|] eqn:Hov; [| discriminate].
    rewrite (funcChainLength_step _ _ Hov) in Hlen. lia.
  - destruct (func_getOverriddenDecl method) as [override|] eqn:Hov; [| discriminate].
    rewrite (funcChainLength_step _ _ Hov) in Hlen.
    destruct (IH override ltac:(lia) Helig) as [n [ancestor [Hanc [Hm Hguard]]]].
    exists (S n), ancestor. split; [simpl; rewrite Hov; exact Hanc |].
    split; [exact Hm |].
    intros k d Hk Hd. destruct k as [|k]; simpl in Hd.
    + congruence.
    + rewrite Hov in Hd. apply (Hguard k d); [lia | exact Hd].
Qed.

(** X16: which methods are eligible.  A method requires a descriptor
    exactly when some declaration on its override chain, itself included,
    is marked for the foreign runtime or as an action, and neither that
    declaration nor any declaration before it on the chain is an
    accessor, generic or a member of a bound generic type. *)
Theorem method_eligibility_characterised (method : FuncDecl) :
  requiresObjCMethodDescriptor method = true <->
  exists n ancestor,
    overriddenFunc n method = Some ancestor /\
    funcIsMarked ancestor = true /\
    (forall k d, (k <= n)%nat -> overriddenFunc k method = Some d ->
                 excludedFunc d = false).
Proof.
  split.
  - apply (eligible_method_has_marked_ancestor (funcChainLength method)). lia.
  - intros [n [ancestor [Hanc [Hm Hguard]]]].
    apply (method_eligible_through_chain n method ancestor Hanc).
    + rewrite requiresObjCMethodDescriptor_step.
      rewrite (Hguard n ancestor (le_n n) Hanc).
      unfold funcIsMarked in Hm. rewrite Hm. reflexivity.
    + intros k d Hk Hd. apply (Hguard k d); [lia | exact Hd].
Qed.

Lemma property_eligibility_of_ancestor (n : nat) :
  forall property ancestor,
    overriddenVar n property = Some ancestor ->
    (forall k d, (k < n)%nat -> overriddenVar k property = Some d ->
                 inBoundGenericContext (var_getDeclContext d) = false) ->
    requiresObjCPropertyDescriptor property = requiresObjCPropertyDescriptor ancestor.
Proof.
  induction n as [|n IH]; intros property ancestor Hanc Hguard; simpl in Hanc.
  - congruence.
  - rewrite requiresObjCPropertyDescriptor_step.
    rewrite (Hguard 0%nat property) by (simpl; first [lia | reflexivity]).
    destruct (var_getOverriddenDecl property) as [override|] eqn:Hov; [| discriminate].
    apply (IH override ancestor Hanc).
    intros k d Hk Hd. apply (Hguard (S k) d); [lia |]. simpl. rewrite Hov. exact Hd.
Qed.

Lemma subscript_eligibility_of_ancestor (n : nat) :
  forall subscript ancestor,
    overriddenSubscript n subscript = Some ancestor ->
    (forall k d, (k < n)%nat -> overriddenSubscript k subscript = Some d ->
                 inBoundGenericContext (sub_getDeclContext d) = false) ->
    requiresObjCSubscriptDescriptor subscript
    = requiresObjCSubscriptDescriptor ancestor.
Proof.
  induction n as [|n IH]; intros subscript ancestor Hanc Hguard; simpl in Hanc.
  - congruence.
  - rewrite requiresObjCSubscriptDescriptor_step.
    rewrite (Hguard 0%nat subscript) by (simpl; first [lia | reflexivity]).
    destruct (sub_getOverriddenDecl subscript) as [override|] eqn:Hov; [| discriminate].
    apply (IH override ancestor Hanc).
    intros k d Hk Hd. apply (Hguard (S k) d); [lia |]. simpl. rewrite Hov. exact Hd.
Qed.

(** X17: a property or subscript that overrides answers as what it
    overrides.  When no declaration before the ancestor on the override
    chain is a member of a bound generic type, the predicate gives the
    overriding declaration the answer it gives the ancestor, whatever the
    marking and the type of the overriding declaration: eligible if the
    ancestor is, ineligible if it is not.  A declaration that overrides
    nothing is eligible exactly when it is not a member of a bound generic
    type, is marked, and its type, if a function type, is a block type. *)
Theorem accessor_eligibility_follows_ancestor :
  (forall n property ancestor,
     overriddenVar n property = Some ancestor ->
     (forall k d, (k < n)%nat -> overriddenVar k property = Some d ->
                  inBoundGenericContext (var_getDeclContext d) = false) ->
     requiresObjCPropertyDescriptor property
     = requiresObjCPropertyDescriptor ancestor) /\
  (forall n subscript ancestor,
     overriddenSubscript n subscript = Some ancestor ->
     (forall k d, (k < n)%nat -> overriddenSubscript k subscript = Some d ->
                  inBoundGenericContext (sub_getDeclContext d) = false) ->
     requiresObjCSubscriptDescriptor subscript
     = requiresObjCSubscriptDescriptor ancestor) /\
  (forall property,
     var_getOverriddenDecl property = None ->
     requiresObjCPropertyDescriptor property
     = negb (inBoundGenericContext (var_getDeclContext property))
       && exposableType (var_isObjC property) (var_getType property)) /\
  (forall subscript,
     sub_getOverriddenDecl subscript = None ->
     requiresObjCSubscriptDescriptor subscript
     = negb (inBoundGenericContext (sub_getDeclContext subscript))
       && exposableType (sub_isObjC subscript) (sub_getElementType subscript)).
Proof.
  split; [exact property_eligibility_of_ancestor |].
  split; [exact subscript_eligibility_of_ancestor |].
  split.
  - intros property Hov. rewrite requiresObjCPropertyDescriptor_step, Hov.
    destruct (inBoundGenericContext (var_getDeclContext property)); reflexivity.
  - intros subscript Hov. rewrite requiresObjCSubscriptDescriptor_step, Hov.
    destruct (inBoundGenericContext (sub_getDeclContext subscript)); reflexivity.
Qed.

(** ** The type information of class pointers *)

(** X18: the type information of class pointers is created once.  The
    first request creates it, pointer sized and pointer aligned, and puts
    it at the head of the chain of converted types; every later request
    returns the same type information and leaves the converter, and so
    the chain, unchanged. *)
Theorem class_pointer_type_info_once (IGM : IRGenModule) (Types : TypeConverter) :
  let first := getObjCClassPtrTypeInfo IGM Types in
  getObjCClassPtrTypeInfo IGM first.2 = first /\
  ObjCClassPtrTI first.2 = Some first.1 /\
  (ObjCClassPtrTI Types = None ->
   FirstType first.2 = first.1 :: FirstType Types /\
   StorageType first.1 = ObjCClassPtrTy /\
   StorageSize first.1 = PointerSize IGM /\
   StorageAlignment first.1 = PointerAlignment IGM) /\
  (forall ti, ObjCClassPtrTI Types = Some ti -> first = (ti, Types)).
Proof.
  cbv zeta. unfold getObjCClassPtrTypeInfo.
  destruct (ObjCClassPtrTI Types) as [ti|] eqn:Hti; simpl.
  - rewrite Hti. repeat split; try reflexivity; try discriminate.
    intros ? [= <-]. reflexivity.
  - repeat split; try reflexivity. discriminate.
Qed.

(** ** Failures of the accessor builders and of sends *)

Section AccessorFailures.

Context {CTG : ClangTypeEncoder}.

(** X19: the settable assertion is never failed by the pair emitters.
    The setter builders of a property and of a subscript fail their
    assertion when the declaration is not settable, before anything is
    added to the module.  The emitters of the getter/setter pair call
    them for settable declarations only: they never stop on either
    settable assertion, and for a declaration that is not settable they
    do not stop at all. *)
Theorem settable_assertion (property : VarDecl) (subscript : SubscriptDecl)
  (out : DescriptorParts) (IGM : IRGenModule) :
  (var_isSettable property = false ->
   emitObjCSetterDescriptorParts_Var property out IGM
   = Abort (AssertionFailed "not a settable property?!") /\
   exists r, emitObjCPropertyMethodDescriptors property IGM = Ok r) /\
  (sub_isSettable subscript = false ->
   emitObjCSetterDescriptorParts_Subscript subscript out IGM
   = Abort (AssertionFailed "not a settable subscript?!") /\
   exists r, emitObjCSubscriptMethodDescriptors subscript IGM = Ok r) /\
  (forall msg,
     emitObjCPropertyMethodDescriptors property IGM = Abort (AssertionFailed msg) \/
     emitObjCSubscriptMethodDescriptors subscript IGM = Abort (AssertionFailed msg) ->
     msg <> "not a settable property?!" /\ msg <> "not a settable subscript?!" /\
     msg <> "property is not settable?!").
Proof.
  split; [| split].
  - intros Hset. split.
    + unfold emitObjCSetterDescriptorParts_Var. run_irgen. rewrite Hset. reflexivity.
    + unfold emitObjCPropertyMethodDescriptors, emitObjCGetterDescriptorParts_Var,
        getObjCGetterPointer.
      run_irgen. rewrite Hset.
      destruct (getAddrOfObjCMethodName _ IGM) as [name IGM1].
      destruct (visit _); run_irgen;
        [destruct (isProtocolDecl (var_getDeclContext property)) |];
        simpl; eexists; reflexivity.
  - intros Hset. split.
    + unfold emitObjCSetterDescriptorParts_Subscript. run_irgen. rewrite Hset.
      reflexivity.
    + unfold emitObjCSubscriptMethodDescriptors,
        emitObjCGetterDescriptorParts_Subscript, getObjCGetterPointer.
      run_irgen. rewrite Hset.
      destruct (getAddrOfObjCMethodName _ IGM) as [name IGM1].
      destruct (isProtocolDecl (sub_getDeclContext subscript));
        simpl; eexists; reflexivity.
  - intros msg [H | H]; revert H.
    + unfold emitObjCPropertyMethodDescriptors, emitObjCGetterDescriptorParts_Var,
        emitObjCSetterDescriptorParts_Var, getObjCGetterPointer, getObjCSetterPointer.
      run_irgen.
      destruct (getAddrOfObjCMethodName _ IGM) as [name IGM1].
      destruct (visit _); run_irgen;
        destruct (var_isSettable property); simpl;
        try (destruct (isProtocolDecl (var_getDeclContext property)); simpl);
        try (destruct (getAddrOfObjCMethodName _ IGM1) as [name' IGM2]; simpl);
        try discriminate;
        destruct (var_getSetter property); simpl; try discriminate;
        intros [= <-]; repeat split; discriminate.
    + unfold emitObjCSubscriptMethodDescriptors,
        emitObjCGetterDescriptorParts_Subscript,
        emitObjCSetterDescriptorParts_Subscript, getObjCGetterPointer,
        getObjCSetterPointer.
      run_irgen.
      destruct (getAddrOfObjCMethodName _ IGM) as [name IGM1].
      destruct (sub_isSettable subscript); simpl;
        destruct (isProtocolDecl (sub_getDeclContext subscript)); simpl;
        try (destruct (getAddrOfObjCMethodName _ IGM1) as [name' IGM2]; simpl);
        try discriminate;
        destruct (sub_getSetter subscript); simpl; try discriminate;
        intros [= <-]; repeat split; discriminate.
Qed.

End AccessorFailures.

(** X20: a reference that can be sent to has a selector.  A reference
    of a kind the send preparation accepts never reaches the
    "no selector" failure of the selector construction, and the kinds
    that reach it are all refused by the preparation.  The
    instance-variable initialiser and destroyer have a selector but are
    refused by the preparation: they are never message-sent. *)
Theorem sendable_kinds_have_selectors (ref : SILDeclRef) (IGM : IRGenModule)
  (origFnType substFnType : SILFunctionType) (kind : ObjCMessageKind) :
  (isObjCMethodKind (SILDeclRef.kind ref) = true ->
   Selector.ofSILDeclRef ref <> Abort (Unreachable "Method does not have a selector")) /\
  (Selector.ofSILDeclRef ref = Abort (Unreachable "Method does not have a selector") ->
   prepareObjCMethodRootCall IGM ref origFnType substFnType kind
   = Abort (AssertionFailed
              "objc method call must be to a func/initializer/getter/setter/dtor")) /\
  (In (SILDeclRef.kind ref) [SILDeclRef.IVarInitializer; SILDeclRef.IVarDestroyer] ->
   (exists selector, Selector.ofSILDeclRef ref = Ok selector) /\
   prepareObjCMethodRootCall IGM ref origFnType substFnType kind
   = Abort (AssertionFailed
              "objc method call must be to a func/initializer/getter/setter/dtor")).
Proof.
  destruct ref as [k decl foreign].
  unfold Selector.ofSILDeclRef, prepareObjCMethodRootCall, assertR, bindR. simpl.
  split; [| split].
  - destruct k; simpl; try discriminate; destruct decl; discriminate.
  - destruct k; simpl; try reflexivity; try discriminate; destruct decl; discriminate.
  - intros [<- | [<- | []]]; simpl; (split; [eexists; reflexivity | reflexivity]).
Qed.

(** ** The further properties at sample inputs *)

Lemma selector_symbols_injective_witness :
  cacheConsistent sampleModule /\
  ((getAddrOfObjCMethodName "init" sampleModule).1
   = (getAddrOfObjCMethodName "copy"
        (requests sampleRequests (getAddrOfObjCMethodName "init" sampleModule).2)).1 ->
   "init" = "copy") /\
  ((getAddrOfObjCSelectorRef "init" sampleModule).1
   = (getAddrOfObjCSelectorRef "copy"
        (requests sampleRequests (getAddrOfObjCSelectorRef "init" sampleModule).2)).1 ->
   "init" = "copy").
Proof.
  split; [exact sampleModule_consistent |].
  exact (selector_symbols_injective "init" "copy" sampleRequests sampleModule
           sampleModule_consistent).
Defined.

Lemma selector_reference_points_at_name_witness :
  cacheConsistent sampleModule /\
  exists i g,
    (getAddrOfObjCSelectorRef "init" sampleModule).1 = GlobalVariableAddr i /\
    Module (getAddrOfObjCSelectorRef "init" sampleModule).2 !! i = Some g /\
    gv_section g = selrefsSection /\
    getAddrOfObjCMethodName "init" (getAddrOfObjCSelectorRef "init" sampleModule).2
    = (gv_initializer g, (getAddrOfObjCSelectorRef "init" sampleModule).2) /\
    In (getAddrOfObjCSelectorRef "init" sampleModule).1
       (LLVMUsed (getAddrOfObjCSelectorRef "init" sampleModule).2).
Proof.
  split; [exact sampleModule_consistent |].
  exact (selector_reference_points_at_name "init" sampleModule sampleModule_consistent).
Defined.

Lemma selector_globals_unique_witness :
  cacheConsistent sampleModule /\
  (forall g g',
     Module (requests sampleRequests sampleModule) !! 0%nat = Some g ->
     Module (requests sampleRequests sampleModule) !! 2%nat = Some g' ->
     (gv_section g = methnameSection -> gv_section g' = methnameSection ->
      gv_initializer g = ConstantDataArrayString "init" ->
      gv_initializer g' = ConstantDataArrayString "init" -> 0%nat = 2%nat) /\
     (gv_section g = selrefsSection -> gv_section g' = selrefsSection ->
      gv_name g = selectorRefName "init" -> gv_name g' = selectorRefName "init" ->
      0%nat = 2%nat)).
Proof.
  split; [exact sampleModule_consistent |].
  intros g g' Hg Hg'.
  exact (selector_globals_unique sampleRequests sampleModule 0 2 g g' "init"
           sampleModule_consistent Hg Hg').
Defined.

Lemma protocol_record_and_reference_agree_witness :
  (forall proto IGM,
     ObjCProtocols IGM !! proto = None ->
     ObjCProtocols (sampleEmitObjCProtocolData proto IGM).2 !! proto = None) /\
  (let both :=
     getObjCProtocolGlobalVars sampleEmitObjCProtocolData sampleProtocol sampleModule in
   let rec :=
     getAddrOfObjCProtocolRecord sampleEmitObjCProtocolData sampleProtocol sampleModule in
   let rf := getAddrOfObjCProtocolRef sampleEmitObjCProtocolData sampleProtocol rec.2 in
   rec = (record both.1, both.2) /\ rf = (ref both.1, both.2)).
Proof.
  refine ((fun H => conj H
            (proj1 (protocol_record_and_reference_agree sampleEmitObjCProtocolData H
                      sampleProtocol sampleModule))) _).
  intros proto IGM H. simpl. exact H.
Defined.

Lemma protocol_first_request_witness :
  ObjCProtocols sampleModule !! sampleProtocol = None /\
  exists reference,
    Module (getObjCProtocolGlobalVars sampleEmitObjCProtocolData sampleProtocol
              sampleModule).2 !! 2%nat = Some reference /\
    ref (getObjCProtocolGlobalVars sampleEmitObjCProtocolData sampleProtocol
           sampleModule).1 = GlobalVariableAddr 2 /\
    gv_section reference = protorefsSection /\
    gv_initializer reference
    = record (getObjCProtocolGlobalVars sampleEmitObjCProtocolData sampleProtocol
                sampleModule).1.
Proof.
  split; [reflexivity |].
  destruct (protocol_first_request sampleEmitObjCProtocolData
              (fun proto IGM H => H) sampleProtocol sampleModule eq_refl)
    as [label [reference [_ [_ [Href [Hlook [_ [Hsec [_ [Hinit _]]]]]]]]]].
  exists reference. repeat split; assumption.
Defined.

Lemma family_prefix_followed_by_lowercase_witness :
  In (Family.Init, "init") Selector.FOREACH_FAMILY /\
  Selector.islower "i" = true /\
  Selector.getFamily {| Selector.Text := "__initialize" |} = Family.None.
Proof.
  assert (Hin : In (Family.Init, "init") Selector.FOREACH_FAMILY)
    by (simpl; tauto).
  split; [exact Hin |]. split; [reflexivity |].
  exact (family_prefix_followed_by_lowercase Family.Init "init" "alize" "i" 2
           Hin eq_refl).
Defined.

Lemma descriptor_and_send_agree_on_selector_witness :
  cacheConsistent sampleModule /\
  exists d IGM1 i g IGM2,
    emitObjCMethodDescriptor (CTG := sampleEncoder) (MethodFunc sampleMethod) sampleModule
    = Ok (d, IGM1) /\
    addObjCMethodCallImplicitArguments sampleMethodRef (Outer "self") IGM1
    = Ok (([Outer "self"; LoadedFrom (GlobalVariableAddr i)],
           [Load (GlobalVariableAddr i)]), IGM2) /\
    Module IGM2 !! i = Some g /\
    selectorRef (fields d) = Assigned (gv_initializer g).
Proof.
  split; [exact sampleModule_consistent |].
  destruct (emitObjCMethodDescriptor (CTG := sampleEncoder) (MethodFunc sampleMethod)
              sampleModule) as [[d IGM1]|f] eqn:Hemit; [| discriminate Hemit].
  destruct (descriptor_and_send_agree_on_selector (CTG := sampleEncoder)
              (MethodFunc sampleMethod) sampleMethodRef (Outer "self")
              sampleModule IGM1 d sampleModule_consistent eq_refl Hemit)
    as [i [g [IGM2 [Hargs [Hi [_ Hsel]]]]]].
  exists d, IGM1, i, g, IGM2. repeat split; assumption.
Defined.

Lemma accessor_encoding_is_method_encoding_witness :
  exists parts IGM',
    emitObjCSetterDescriptorParts_Var (CTG := sampleEncoder) sampleSettableProperty
      declaredParts sampleModule = Ok (parts, IGM') /\
    atEncoding parts = Assigned (GlobalStringAddr "v24@0:8q16") /\
    GetObjCEncodingForMethodType (CTG := sampleEncoder) sampleModule
      (setterMethodType sampleSettableProperty (NominalType "Void"))
    = GlobalStringAddr "v24@0:8q16".
Proof.
  destruct (emitObjCSetterDescriptorParts_Var (CTG := sampleEncoder)
              sampleSettableProperty declaredParts sampleModule)
    as [[parts IGM']|f] eqn:Hemit; [| discriminate Hemit].
  pose proof (proj2 (accessor_encoding_is_method_encoding (CTG := sampleEncoder)
                       sampleSettableProperty declaredParts parts sampleModule IGM')
                (NominalType "Void") eq_refl eq_refl Hemit) as Henc.
  exists parts, IGM'. split; [reflexivity |]. split; [exact Henc | reflexivity].
Defined.

Lemma property_descriptors_complete_witness :
  visit (ClangTypeEncoder := sampleEncoder)
    (getCanonicalType (var_getType sampleReadOnlyProperty)) = Some ("q", 8%Z) /\
  exists name getterEncoding pointer IGM',
    emitObjCPropertyMethodDescriptors (CTG := sampleEncoder) sampleReadOnlyProperty
      sampleModule
    = Ok ((assignedDescriptor name (GlobalStringAddr getterEncoding) pointer, None),
          IGM').
Proof.
  split; [reflexivity |].
  destruct (property_descriptors_complete (CTG := sampleEncoder)
              sampleReadOnlyProperty sampleModule ("q", 8%Z) eq_refl
              (fun H => False_ind _ (Bool.diff_false_true H)))
    as [name [enc [pointer [setter [IGM' [Hemit [_ Hsetter]]]]]]].
  simpl in Hsetter. subst setter.
  exists name, enc, pointer, IGM'. exact Hemit.
Defined.

Lemma message_send_preparation_witness :
  isObjCMethodKind (SILDeclRef.kind sampleMethodRef) = true /\
  exists callee,
    prepareObjCMethodRootCall sampleModule sampleMethodRef
      (sampleMethodType Direct_Owned true) (sampleMethodType Direct_Owned true) Peer
    = Ok callee /\
    params (messengerType callee) !! 1%nat = Some ObjCSuperPtrTy /\
    params (messengerType callee) !! 0%nat = Some ObjCPtrTy.
Proof.
  split; [reflexivity |].
  destruct (proj2 (proj2 (proj2 (message_send_preparation sampleModule sampleMethodRef
              (sampleMethodType Direct_Owned true) (sampleMethodType Direct_Owned true)
              Peer))) eq_refl ltac:(discriminate) (le_S _ _ (le_n 2)))
    as [callee [Hprep [_ [_ [_ [Hidx Hother]]]]]].
  exists callee. split; [exact Hprep |]. split; [exact Hidx |].
  rewrite (Hother 0%nat ltac:(discriminate)). reflexivity.
Defined.

Lemma indirect_receiver_is_fatal_witness :
  back (getInterfaceParameters (sampleMethodType Indirect_In false)) = Ok Indirect_In /\
  emitObjCPartialApplication sampleMethodRef
    (sampleMethodType Indirect_In false) (sampleMethodType Indirect_In false)
    (Outer "self") sampleModule
  = Abort (Unreachable "self passed indirectly?!").
Proof.
  split; [reflexivity |].
  exact (proj2 (proj1 (indirect_receiver_is_fatal sampleMethodRef
                         (sampleMethodType Indirect_In false)
                         (sampleMethodType Indirect_In false)
                         (Outer "self") sampleModule)
                  Indirect_In eq_refl eq_refl)).
Defined.

Lemma forwarder_call_witness :
  back (getInterfaceParameters (sampleMethodType Direct_Guaranteed false))
  = Ok Direct_Guaranteed /\
  exists fwd callee,
    emitObjCPartialApplicationForwarder sampleMethodRef
      (sampleMethodType Direct_Guaranteed false)
      (sampleMethodType Direct_Guaranteed false) sampleModule
    = Ok (fwd, (getAddrOfObjCSelectorRef "frobnicate:" sampleModule).2) /\
    nth_error (fn_body fwd) 2
    = Some (EmitToExplosion callee
              [Loaded (FieldAddr (Param 1) 0);
               LoadedFrom (getAddrOfObjCSelectorRef "frobnicate:" sampleModule).1;
               Param 0]) /\
    messenger callee = ObjCMsgSendFn.
Proof.
  split; [reflexivity |].
  destruct (forwarder_call sampleMethodRef
              (sampleMethodType Direct_Guaranteed false)
              (sampleMethodType Direct_Guaranteed false) sampleModule
              Direct_Guaranteed {| Selector.Text := "frobnicate:" |} 1
              eq_refl eq_refl eq_refl eq_refl eq_refl
              (fun H => False_ind _ (Bool.diff_false_true H)))
    as [fwd [callee [call [Hemit [_ [_ [_ [Hnth [Hcall [Hmess _]]]]]]]]]].
  exists fwd, callee. split; [exact Hemit |]. split; [| exact Hmess].
  rewrite Hnth, Hcall. reflexivity.
Defined.

Lemma method_eligibility_characterised_witness :
  (exists n ancestor,
     overriddenFunc n samplePlainOverride = Some ancestor /\
     funcIsMarked ancestor = true /\
     (forall k d, (k <= n)%nat -> overriddenFunc k samplePlainOverride = Some d ->
                  excludedFunc d = false)) /\
  requiresObjCMethodDescriptor sampleOverridingMethod = false /\
  ~ (exists n ancestor,
       overriddenFunc n sampleOverridingMethod = Some ancestor /\
       funcIsMarked ancestor = true /\
       (forall k d, (k <= n)%nat -> overriddenFunc k sampleOverridingMethod = Some d ->
                    excludedFunc d = false)).
Proof.
  split; [apply (proj1 (method_eligibility_characterised samplePlainOverride));
          reflexivity |].
  split; [reflexivity |].
  intros H. apply (proj2 (method_eligibility_characterised sampleOverridingMethod)) in H.
  discriminate H.
Defined.

Lemma accessor_eligibility_follows_ancestor_witness :
  overriddenVar 1 sampleMarkedOverridingProperty = Some sampleUnmarkedProperty /\
  var_isObjC sampleMarkedOverridingProperty = true /\
  requiresObjCPropertyDescriptor sampleUnmarkedProperty = false /\
  requiresObjCPropertyDescriptor sampleMarkedOverridingProperty = false.
Proof.
  split; [reflexivity |]. split; [reflexivity |]. split; [reflexivity |].
  rewrite (proj1 accessor_eligibility_follows_ancestor 1%nat
             sampleMarkedOverridingProperty sampleUnmarkedProperty eq_refl).
  - reflexivity.
  - intros k d Hk Hd. destruct k as [|k]; [| lia].
    injection Hd as <-. reflexivity.
Defined.

Lemma settable_assertion_witness :
  var_isSettable sampleReadOnlyProperty = false /\
  emitObjCSetterDescriptorParts_Var (CTG := sampleEncoder) sampleReadOnlyProperty
    declaredParts sampleModule
  = Abort (AssertionFailed "not a settable property?!") /\
  exists r,
    emitObjCPropertyMethodDescriptors (CTG := sampleEncoder) sampleReadOnlyProperty
      sampleModule = Ok r.
Proof.
  split; [reflexivity |].
  exact (proj1 (settable_assertion (CTG := sampleEncoder) sampleReadOnlyProperty
                  sampleSubscript declaredParts sampleModule) eq_refl).
Defined.

Lemma sendable_kinds_have_selectors_witness :
  isObjCMethodKind (SILDeclRef.kind sampleMethodRef) = true /\
  Selector.ofSILDeclRef sampleMethodRef
  <> Abort (Unreachable "Method does not have a selector").
Proof.
  split; [reflexivity |].
  exact (proj1 (sendable_kinds_have_selectors sampleMethodRef sampleModule
                  (sampleMethodType Direct_Owned false)
                  (sampleMethodType Direct_Owned false) Normal) eq_refl).
Defined.
